(** * Recurring-campaign scheduler of MailchimpService.js

    A shallow embedding of [processRecurringCampaigns]
    (backend/src/services/MailchimpService.js, lines 786-906) together with
    the collaborators it calls ([createCampaign], [scheduleCampaign], the
    EmailCampaign and EmailTemplate collections, the system clock) and of the
    ECMAScript [Date] arithmetic its next-occurrence computation is written
    with.

    Conventions of the embedding.
    - A JavaScript number is an exact integer or [NaN] (type [Number]); the
      code only ever forms integers, all far below 2^53.
    - A [Date] object is its time value, milliseconds since the epoch, or
      [NaN] for an Invalid Date.  The local-time methods of [Date] are taken
      in a host whose time zone is UTC (LocalTZA = 0), as servers run; for
      another zone of fixed offset the same definitions apply to local time
      values.
    - The built-ins follow ECMA-262, section "Date Objects": [Day],
      [TimeWithinDay], [DayFromYear], [YearFromTime], [MonthFromTime],
      [DateFromTime], [WeekDay], [MakeTime], [MakeDay], [MakeDate],
      [TimeClip].

    The second part of the definitions embeds what else the service and the
    models compute: the campaigns the service launches itself
    ([scheduleNewsletter], [schedulePromotionalCampaign],
    [processNewProductAnnouncement]), the tags of a subscriber and the
    conditions of a segment, the slug of the Product model and the
    placeholder images of ImageGenerationService.js. *)

From Stdlib Require Import ZArith Lia List Bool String Ascii DecimalString.
From Stdlib Require Import DecimalZ DecimalPos.
Import ListNotations.
Local Open Scope string_scope.
Local Open Scope Z_scope.

(** ** ECMAScript numbers *)

Inductive Number : Type :=
| NaN : Number
| Num : Z -> Number.

Module JS.

(** [a + b] on numbers. *)
Definition add (a b : Number) : Number :=
  match a, b with
  | Num x, Num y => Num (x + y)
  | _, _ => NaN
  end.

(** [Math.min(a, b)]: NaN as soon as one argument is NaN. *)
Definition min (a b : Number) : Number :=
  match a, b with
  | Num x, Num y => Num (Z.min x y)
  | _, _ => NaN
  end.

(** [a !== b] on numbers: NaN differs from everything, itself included. *)
Definition strictNeq (a b : Number) : bool :=
  match a, b with
  | Num x, Num y => negb (x =? y)
  | _, _ => true
  end.

(** [a <= b] on numbers: false as soon as one side is NaN. *)
Definition le (a b : Number) : bool :=
  match a, b with
  | Num x, Num y => x <=? y
  | _, _ => false
  end.

End JS.

(** ** Time values (ECMA-262, Date Objects) *)

Definition msPerDay : Z := 86400000.
Definition msPerHour : Z := 3600000.
Definition msPerMinute : Z := 60000.
Definition msPerSecond : Z := 1000.

(** Largest magnitude of a time value: 8.64e15 ms, 100,000,000 days. *)
Definition maxTimeValue : Z := 8640000000000000.

Definition Day (t : Z) : Z := t / msPerDay.
Definition TimeWithinDay (t : Z) : Z := t mod msPerDay.

Definition DaysInYear (y : Z) : Z :=
  if negb (y mod 4 =? 0) then 365
  else if negb (y mod 100 =? 0) then 366
  else if negb (y mod 400 =? 0) then 365
  else 366.

Definition DayFromYear (y : Z) : Z :=
  365 * (y - 1970) + (y - 1969) / 4 - (y - 1901) / 100 + (y - 1601) / 400.

Definition TimeFromYear (y : Z) : Z := msPerDay * DayFromYear y.

(** ECMA-262 specifies [YearFromTime t] as the largest [y] with
    [TimeFromYear y <= t].  It is computed here from the mean year length
    (146097 days in 400 years), an estimate that is off by at most one year,
    and corrected; [YearFromTime_spec] below proves it meets the
    specification. *)
Definition YearFromTime (t : Z) : Z :=
  let d := Day t in
  let e := 1970 + (400 * d) / 146097 in
  if d <? DayFromYear e then e - 1
  else if DayFromYear (e + 1) <=? d then e + 1
  else e.

Definition InLeapYear (t : Z) : Z :=
  if DaysInYear (YearFromTime t) =? 366 then 1 else 0.

Definition DayWithinYear (t : Z) : Z := Day t - DayFromYear (YearFromTime t).

Definition MonthFromTime (t : Z) : Z :=
  let d := DayWithinYear t in
  let l := InLeapYear t in
  if d <? 31 then 0
  else if d <? 59 + l then 1
  else if d <? 90 + l then 2
  else if d <? 120 + l then 3
  else if d <? 151 + l then 4
  else if d <? 181 + l then 5
  else if d <? 212 + l then 6
  else if d <? 243 + l then 7
  else if d <? 273 + l then 8
  else if d <? 304 + l then 9
  else if d <? 334 + l then 10
  else 11.

(** Number of days of the year before month [m] (0 = January); [l] is 1 in a
    leap year.  These are the thresholds of [MonthFromTime] and the
    subtrahends of [DateFromTime]. *)
Definition daysBeforeMonth (m l : Z) : Z :=
  if m =? 0 then 0
  else if m =? 1 then 31
  else if m =? 2 then 59 + l
  else if m =? 3 then 90 + l
  else if m =? 4 then 120 + l
  else if m =? 5 then 151 + l
  else if m =? 6 then 181 + l
  else if m =? 7 then 212 + l
  else if m =? 8 then 243 + l
  else if m =? 9 then 273 + l
  else if m =? 10 then 304 + l
  else 334 + l.

Definition DateFromTime (t : Z) : Z :=
  DayWithinYear t - daysBeforeMonth (MonthFromTime t) (InLeapYear t) + 1.

Definition WeekDay (t : Z) : Z := (Day t + 4) mod 7.

Definition MakeTime (hour min sec ms : Z) : Z :=
  hour * msPerHour + min * msPerMinute + sec * msPerSecond + ms.

(** [MakeDay year month date]: the day number of the first of month
    [month mod 12] of year [year + floor(month / 12)], plus [date - 1]. *)
Definition MakeDay (year month date : Z) : Z :=
  let ym := year + month / 12 in
  let mn := month mod 12 in
  let l := if DaysInYear ym =? 366 then 1 else 0 in
  DayFromYear ym + daysBeforeMonth mn l + date - 1.

Definition MakeDate (day time : Z) : Z := day * msPerDay + time.

(** A year in 0..99 given to the [Date] constructor means 1900 + year. *)
Definition MakeFullYear (year : Z) : Z :=
  if (0 <=? year) && (year <=? 99) then 1900 + year else year.

Definition TimeClip (time : Z) : Number :=
  if maxTimeValue <? Z.abs time then NaN else Num time.

(** Length of month [m] (0..11) of year [y]. *)
Definition DaysInMonth (y m : Z) : Z :=
  if m =? 1 then (if DaysInYear y =? 366 then 29 else 28)
  else if (m =? 3) || (m =? 5) || (m =? 8) || (m =? 10) then 30
  else 31.

(** ** Date objects *)

(** A [Date] is its time value. *)
Definition Date : Type := Number.

Module DateObj.

Definition lift (f : Z -> Z) (d : Date) : Number :=
  match d with
  | Num t => Num (f t)
  | NaN => NaN
  end.

Definition getFullYear : Date -> Number := lift YearFromTime.
Definition getMonth : Date -> Number := lift MonthFromTime.
Definition getDate : Date -> Number := lift DateFromTime.
Definition getDay : Date -> Number := lift WeekDay.

(** [d.setDate(dt)] *)
Definition setDate (d : Date) (dt : Number) : Date :=
  match d, dt with
  | Num t, Num n =>
      TimeClip (MakeDate (MakeDay (YearFromTime t) (MonthFromTime t) n)
                         (TimeWithinDay t))
  | _, _ => NaN
  end.

(** [d.setMonth(month)]: the day of the month is kept. *)
Definition setMonth (d : Date) (month : Number) : Date :=
  match d, month with
  | Num t, Num m =>
      TimeClip (MakeDate (MakeDay (YearFromTime t) m (DateFromTime t))
                         (TimeWithinDay t))
  | _, _ => NaN
  end.

(** [d.setHours(hour, min, sec, ms)] *)
Definition setHours (d : Date) (hour min sec ms : Number) : Date :=
  match d, hour, min, sec, ms with
  | Num t, Num h, Num m, Num s, Num milli =>
      TimeClip (MakeDate (Day t) (MakeTime h m s milli))
  | _, _, _, _, _ => NaN
  end.

(** [new Date(year, month, date)] *)
Definition fromYMD (year month date : Number) : Date :=
  match year, month, date with
  | Num y, Num m, Num dt =>
      TimeClip (MakeDate (MakeDay (MakeFullYear y) m dt) (MakeTime 0 0 0 0))
  | _, _, _ => NaN
  end.

End DateObj.

(** ** Strings *)

Module Str.

Definition isDigit (c : ascii) : bool :=
  let n := Z.of_nat (nat_of_ascii c) in (48 <=? n) && (n <=? 57).

Fixpoint digits (acc : Z) (s : string) : Number :=
  match s with
  | EmptyString => Num acc
  | String c s' =>
      if isDigit c
      then digits (10 * acc + (Z.of_nat (nat_of_ascii c) - 48)) s'
      else NaN
  end.

(** [Number(s)] on a string: a run of decimal digits is read as its value and
    the empty string as 0.  Every other text is NaN here; the forms [Number]
    still reads (blanks, signs, fractions, exponents, radix prefixes) lie
    outside the HH:MM values of [timeOfDay]. *)
Definition toNumber (s : string) : Number := digits 0 s.

(** [s.split(sep)] for a one-character separator. *)
Fixpoint split (sep : ascii) (s : string) : list string :=
  match s with
  | EmptyString => [EmptyString]
  | String c s' =>
      if Ascii.eqb c sep then EmptyString :: split sep s'
      else match split sep s' with
           | h :: t => String c h :: t
           | [] => [String c EmptyString]
           end
  end.

(** Decimal text of an integer, as in a template literal. *)
Definition ofZ (z : Z) : string := NilZero.string_of_int (Z.to_int z).

End Str.

(** Element [i] of an array of numbers read by destructuring; a missing
    element is [undefined], which [setHours] converts to NaN. *)
Definition element (i : nat) (a : list Number) : Number := nth i a NaN.

(** [d.toLocaleDateString()] in the en-US locale: M/D/YYYY. *)
Definition toLocaleDateString (d : Date) : string :=
  match d with
  | NaN => "Invalid Date"
  | Num t =>
      Str.ofZ (MonthFromTime t + 1) ++ "/" ++ Str.ofZ (DateFromTime t) ++ "/"
      ++ Str.ofZ (YearFromTime t)
  end.

(** ** The EmailCampaign and EmailTemplate schemas *)

Definition ObjectId : Type := nat.

(** The [recurring] sub-document.  A field the schema leaves optional is an
    [option]; [None] is JavaScript's [undefined].  The numbers are the
    integers the schema's bounds are written for; [null] and fractional
    values are not represented. *)
Record Recurring : Type := {
  enabled : bool;
  frequency : string;
  dayOfWeek : option Z;
  dayOfMonth : option Z;
  timeOfDay : option string;
  lastSent : option Date;
  nextScheduled : option Date
}.

(** Segmentation criteria: an opaque key/value filter, copied as it is. *)
Definition Segment : Type := list (string * list string).

Record EmailCampaign : Type := {
  _id : ObjectId;
  name : string;
  description : option string;
  type : string;
  template : ObjectId;
  segment : Segment;
  scheduledFor : option Date;
  recurring : Recurring;
  status : string;
  mailchimpCampaignId : option nat
}.

(** The campaign [c] with [recurring.lastSent] and
    [recurring.nextScheduled] set. *)
Definition setSchedule (last next : option Date) (c : EmailCampaign)
  : EmailCampaign :=
  {| _id := _id c; name := name c; description := description c;
     type := type c; template := template c; segment := segment c;
     scheduledFor := scheduledFor c;
     recurring :=
       {| enabled := enabled (recurring c);
          frequency := frequency (recurring c);
          dayOfWeek := dayOfWeek (recurring c);
          dayOfMonth := dayOfMonth (recurring c);
          timeOfDay := timeOfDay (recurring c);
          lastSent := last;
          nextScheduled := next |};
     status := status c; mailchimpCampaignId := mailchimpCampaignId c |}.

Record EmailTemplate : Type := {
  tpl_id : ObjectId;
  subject : string;
  htmlContent : string;
  mailchimpTemplateId : option nat
}.

(** ** Next occurrence (lines 810-850) *)

(** The [switch] on [campaign.recurring.frequency], lines 812-830. *)
Definition advanceByFrequency (freq : string) (nextDate : Date) : Date :=
  if String.eqb freq "daily" then
    DateObj.setDate nextDate (JS.add (DateObj.getDate nextDate) (Num 1))
  else if String.eqb freq "weekly" then
    DateObj.setDate nextDate (JS.add (DateObj.getDate nextDate) (Num 7))
  else if String.eqb freq "biweekly" then
    DateObj.setDate nextDate (JS.add (DateObj.getDate nextDate) (Num 14))
  else if String.eqb freq "monthly" then
    DateObj.setMonth nextDate (JS.add (DateObj.getMonth nextDate) (Num 1))
  else if String.eqb freq "quarterly" then
    DateObj.setMonth nextDate (JS.add (DateObj.getMonth nextDate) (Num 3))
  else
    DateObj.setMonth nextDate (JS.add (DateObj.getMonth nextDate) (Num 1)).

(** The [while] loop of lines 835-837.  [fuel] bounds the number of times
    the body runs; [None] means the bound was reached with the loop
    condition still true. *)
Fixpoint dayOfWeekSearch (fuel : nat) (dow : Z) (nextDate : Date)
  : option Date :=
  if JS.strictNeq (DateObj.getDay nextDate) (Num dow) then
    match fuel with
    | O => None
    | S fuel' =>
        dayOfWeekSearch fuel' dow
          (DateObj.setDate nextDate (JS.add (DateObj.getDate nextDate) (Num 1)))
    end
  else Some nextDate.

(** Lines 833-838. *)
Definition applyDayOfWeek (fuel : nat) (r : Recurring) (nextDate : Date)
  : option Date :=
  match dayOfWeek r with
  | Some dow =>
      if negb (String.eqb (frequency r) "daily")
      then dayOfWeekSearch fuel dow nextDate
      else Some nextDate
  | None => Some nextDate
  end.

(** Truthiness of [campaign.recurring.dayOfMonth]: set and not 0. *)
Definition truthyDayOfMonth (r : Recurring) : option Z :=
  match dayOfMonth r with
  | Some d => if d =? 0 then None else Some d
  | None => None
  end.

(** Lines 840-844. *)
Definition applyDayOfMonth (r : Recurring) (nextDate : Date) : Date :=
  match truthyDayOfMonth r with
  | Some dom =>
      if String.eqb (frequency r) "monthly"
         || String.eqb (frequency r) "quarterly"
      then
        let maxDay :=
          DateObj.getDate
            (DateObj.fromYMD (DateObj.getFullYear nextDate)
               (JS.add (DateObj.getMonth nextDate) (Num 1)) (Num 0)) in
        DateObj.setDate nextDate (JS.min (Num dom) maxDay)
      else nextDate
  | None => nextDate
  end.

(** Lines 847-850.  The empty string is falsy, like [undefined]. *)
Definition applyTimeOfDay (r : Recurring) (nextDate : Date) : Date :=
  match timeOfDay r with
  | Some s =>
      if String.eqb s "" then nextDate
      else
        let parts := map Str.toNumber (Str.split ":" s) in
        let hours := element 0 parts in
        let minutes := element 1 parts in
        DateObj.setHours nextDate hours minutes (Num 0) (Num 0)
  | None => nextDate
  end.

(** The whole computation: [start] is the value of [new Date()] at line
    810.  [None]: the day-of-week loop ran out of [fuel]. *)
Definition computeNextOccurrence (fuel : nat) (r : Recurring) (start : Date)
  : option Date :=
  match applyDayOfWeek fuel r (advanceByFrequency (frequency r) start) with
  | Some d => Some (applyTimeOfDay r (applyDayOfMonth r d))
  | None => None
  end.

(** ** The world the service runs in *)

(** A campaign held by the Mailchimp platform: its id, its title and, once
    scheduled, the time it is scheduled for. *)
Record RemoteCampaign : Type := {
  rc_id : nat;
  rc_title : string;
  rc_content : option string;
  rc_schedule_time : option Z
}.

(** The message of a thrown [Error]. *)
Definition Error : Type := string.

(** - [campaigns], [templates]: the two collections of the document store,
      in insertion order; [nextObjectId] is the next [_id] the store issues.
    - [remote]: the campaigns held by Mailchimp.
    - [clock]: the last reading of the system clock; [ticks]: the time that
      passes before each of the coming readings (none once the list is
      used up).
    - [faults]: what happens at each of the coming calls to a collaborator
      (document store or Mailchimp API), in call order: [None] lets the
      call through, [Some e] makes it throw an error of message [e]; calls
      past the end of the list go through. *)
Record World : Type := {
  campaigns : list EmailCampaign;
  templates : list EmailTemplate;
  nextObjectId : ObjectId;
  remote : list RemoteCampaign;
  clock : Z;
  ticks : list N;
  faults : list (option Error)
}.

Definition withCampaigns (w : World) (cs : list EmailCampaign) : World :=
  {| campaigns := cs; templates := templates w;
     nextObjectId := nextObjectId w; remote := remote w;
     clock := clock w; ticks := ticks w; faults := faults w |}.

Definition withRemote (w : World) (rs : list RemoteCampaign) : World :=
  {| campaigns := campaigns w; templates := templates w;
     nextObjectId := nextObjectId w; remote := rs;
     clock := clock w; ticks := ticks w; faults := faults w |}.

(** Outcome of running a piece of the service: it returns a value, throws,
    or does not come back (a loop that never exits).  A throw keeps the
    world as the calls made before it left it: nothing is rolled back. *)
Inductive Res (A : Type) : Type :=
| Ret : A -> World -> Res A
| Throw : Error -> World -> Res A
| Hang : Res A.
Arguments Ret {A} _ _.
Arguments Throw {A} _ _.
Arguments Hang {A}.

Definition M (A : Type) : Type := World -> Res A.

Definition ret {A} (a : A) : M A := fun w => Ret a w.

Definition bind {A B} (m : M A) (k : A -> M B) : M B :=
  fun w =>
    match m w with
    | Ret a w' => k a w'
    | Throw e w' => Throw e w'
    | Hang => Hang
    end.

Definition throw {A} (e : Error) : M A := fun w => Throw e w.

Definition hang {A} : M A := fun _ => Hang.

(** [try { m } catch (error) { handler error }] *)
Definition tryCatch {A} (m : M A) (handler : Error -> M A) : M A :=
  fun w =>
    match m w with
    | Ret a w' => Ret a w'
    | Throw e w' => handler e w'
    | Hang => Hang
    end.

Declare Scope js_scope.
Delimit Scope js_scope with js.
Notation "x <- m ;; k" := (bind m (fun x => k))
  (at level 61, m at next level, right associativity) : js_scope.
Notation "m ;;; k" := (bind m (fun _ => k))
  (at level 61, right associativity) : js_scope.
Local Open Scope js_scope.

(** One call to a collaborator: it reads the next entry of [faults]. *)
Definition collaborator : M unit :=
  fun w =>
    let w' f := {| campaigns := campaigns w; templates := templates w;
                   nextObjectId := nextObjectId w; remote := remote w;
                   clock := clock w; ticks := ticks w; faults := f |} in
    match faults w with
    | [] => Ret tt w
    | None :: f => Ret tt (w' f)
    | Some e :: f => Throw e (w' f)
    end.

(** [new Date()]: the clock is read after the next tick has passed. *)
Definition newDate : M Date :=
  fun w =>
    match ticks w with
    | [] => Ret (Num (clock w)) w
    | n :: ns =>
        let c := clock w + Z.of_N n in
        Ret (Num c)
            {| campaigns := campaigns w; templates := templates w;
               nextObjectId := nextObjectId w; remote := remote w;
               clock := c; ticks := ns; faults := faults w |}
    end.

(** *** The document store *)

Module Store.

(** [EmailCampaign.find({'recurring.enabled': true,
                         status: {$in: ['draft', 'sent']}})] *)
Definition recurringQuery (c : EmailCampaign) : bool :=
  enabled (recurring c)
  && (String.eqb (status c) "draft" || String.eqb (status c) "sent").

Definition find (q : EmailCampaign -> bool) : M (list EmailCampaign) :=
  collaborator ;;;
  fun w => Ret (filter q (campaigns w)) w.

(** Defaults of the [recurring] sub-document of a new campaign. *)
Definition defaultRecurring : Recurring :=
  {| enabled := false; frequency := "monthly"; dayOfWeek := None;
     dayOfMonth := None; timeOfDay := Some "09:00"; lastSent := None;
     nextScheduled := None |}.

(** [EmailCampaign.create({name, description, type, template, segment,
    scheduledFor, status})]: the document is stored under a new [_id] and
    returned. *)
Definition create (nm : string) (descr : option string) (ty : string)
    (tpl : ObjectId) (seg : Segment) (sched : Date) (st : string)
  : M EmailCampaign :=
  collaborator ;;;
  fun w =>
    let doc := {| _id := nextObjectId w; name := nm; description := descr;
                  type := ty; template := tpl; segment := seg;
                  scheduledFor := Some sched; recurring := defaultRecurring;
                  status := st; mailchimpCampaignId := None |} in
    Ret doc
        {| campaigns := campaigns w ++ [doc]; templates := templates w;
           nextObjectId := S (nextObjectId w); remote := remote w;
           clock := clock w; ticks := ticks w; faults := faults w |}.

(** The update [{mailchimpCampaignId, status}] applied to a document. *)
Definition setMailchimp (mcid : nat) (st : string) (c : EmailCampaign)
  : EmailCampaign :=
  {| _id := _id c; name := name c; description := description c;
     type := type c; template := template c; segment := segment c;
     scheduledFor := scheduledFor c; recurring := recurring c;
     status := st; mailchimpCampaignId := Some mcid |}.

Definition updateWhere (id : ObjectId) (f : EmailCampaign -> EmailCampaign)
    (cs : list EmailCampaign) : list EmailCampaign :=
  map (fun c => if Nat.eqb (_id c) id then f c else c) cs.

(** [EmailCampaign.findByIdAndUpdate(id, {mailchimpCampaignId, status})];
    no document of that id: nothing is changed. *)
Definition findByIdAndUpdate (id : ObjectId) (mcid : nat) (st : string)
  : M unit :=
  collaborator ;;;
  fun w =>
    Ret tt (withCampaigns w (updateWhere id (setMailchimp mcid st)
                                         (campaigns w))).

(** [campaign.save()]: the paths assigned since the document was read,
    here [recurring.lastSent] and [recurring.nextScheduled], are written to
    the stored document of the same [_id]; it throws when the store no
    longer holds it. *)
Definition save (c : EmailCampaign) : M unit :=
  collaborator ;;;
  fun w =>
    if existsb (fun c' => Nat.eqb (_id c') (_id c)) (campaigns w)
    then Ret tt (withCampaigns w
                   (updateWhere (_id c)
                      (setSchedule (lastSent (recurring c))
                                   (nextScheduled (recurring c)))
                      (campaigns w)))
    else Throw "No document found for query" w.

(** [EmailTemplate.findById(id)]; [None] is [null]. *)
Definition findTemplate (id : ObjectId) : M (option EmailTemplate) :=
  collaborator ;;;
  fun w => Ret (List.find (fun t => Nat.eqb (tpl_id t) id) (templates w)) w.

End Store.

(** *** The Mailchimp API *)

Module Mailchimp.

(** [mailchimp.campaigns.create({...})]: the response carries the id of
    the new remote campaign. *)
Definition campaignsCreate (title : string) : M nat :=
  collaborator ;;;
  fun w =>
    let id := List.length (remote w) in
    Ret id (withRemote w (remote w ++
              [{| rc_id := id; rc_title := title; rc_content := None;
                  rc_schedule_time := None |}])).

Definition updateRemote (id : nat) (f : RemoteCampaign -> RemoteCampaign)
    (rs : list RemoteCampaign) : list RemoteCampaign :=
  map (fun r => if Nat.eqb (rc_id r) id then f r else r) rs.

(** [mailchimp.campaigns.setContent(id, {html})] *)
Definition campaignsSetContent (id : nat) (html : string) : M unit :=
  collaborator ;;;
  fun w =>
    Ret tt (withRemote w (updateRemote id
              (fun r => {| rc_id := rc_id r; rc_title := rc_title r;
                           rc_content := Some html;
                           rc_schedule_time := rc_schedule_time r |})
              (remote w))).

(** [mailchimp.campaigns.schedule(id, {schedule_time})]; the time is held
    as the time value its ISO 8601 text denotes. *)
Definition campaignsSchedule (id : nat) (time : Z) : M unit :=
  collaborator ;;;
  fun w =>
    Ret tt (withRemote w (updateRemote id
              (fun r => {| rc_id := rc_id r; rc_title := rc_title r;
                           rc_content := rc_content r;
                           rc_schedule_time := Some time |})
              (remote w))).

End Mailchimp.

(** ** MailchimpService *)

(** What [createCampaign] and [scheduleCampaign] return:
    [{success, message, data}] or [{success, message, error}]. *)
Record ApiResult : Type := {
  success : bool;
  message : string;
  data : option nat;
  error : option Error
}.

(** An element of [results]: [{campaign, nextScheduled, success: true}] or
    [{campaign, success: false, error}]. *)
Record ResultEntry : Type := {
  entry_campaign : string;
  entry_success : bool;
  entry_nextScheduled : option Date;
  entry_error : option string
}.

(** What [processRecurringCampaigns] returns:
    [{success, message, results}] or [{success, message, error}]. *)
Record Report : Type := {
  report_success : bool;
  report_message : string;
  report_results : option (list ResultEntry);
  report_error : option Error
}.

(** [createCampaign(campaign)], lines 146-241.  The request sent to
    Mailchimp is recorded by its title; recipients and settings do not
    bear on the control flow. *)
Definition createCampaign (campaign : EmailCampaign) : M ApiResult :=
  tryCatch
    (tpl <- Store.findTemplate (template campaign) ;;
     match tpl with
     | None =>
         throw ("Template not found with ID: "
                ++ Str.ofZ (Z.of_nat (template campaign)))
     | Some t =>
         id <- Mailchimp.campaignsCreate (name campaign) ;;
         Mailchimp.campaignsSetContent id (htmlContent t) ;;;
         Store.findByIdAndUpdate (_id campaign) id "scheduled" ;;;
         ret {| success := true; message := "Campaign created in Mailchimp";
                data := Some id; error := None |}
     end)
    (fun e =>
       ret {| success := false;
              message := "Error creating campaign in Mailchimp";
              data := None; error := Some e |}).

(** [scheduleCampaign(campaignId, scheduledTime)], lines 249-266;
    [toISOString] throws on an Invalid Date. *)
Definition scheduleCampaign (campaignId : nat) (scheduledTime : option Date)
  : M ApiResult :=
  tryCatch
    (match scheduledTime with
     | None => throw "Cannot read properties of undefined"
     | Some NaN => throw "Invalid time value"
     | Some (Num t) =>
         Mailchimp.campaignsSchedule campaignId t ;;;
         ret {| success := true;
                message := "Campaign scheduled in Mailchimp";
                data := Some campaignId; error := None |}
     end)
    (fun e =>
       ret {| success := false;
              message := "Error scheduling campaign in Mailchimp";
              data := None; error := Some e |}).

(** [!nextScheduled || nextScheduled <= now], line 806. *)
Definition isDue (next : option Date) (now : Date) : bool :=
  match next with
  | None => true
  | Some d => JS.le d now
  end.

(** Lines 880-881: the two assignments to [campaign.recurring]. *)
Definition advance (c : EmailCampaign) (now nextDate : Date)
  : EmailCampaign :=
  setSchedule (Some now) (Some nextDate) c.

Definition successEntry (c : EmailCampaign) (nextDate : Date) : ResultEntry :=
  {| entry_campaign := name c; entry_success := true;
     entry_nextScheduled := Some nextDate; entry_error := None |}.

Definition failureEntry (c : EmailCampaign) (e : Error) : ResultEntry :=
  {| entry_campaign := name c; entry_success := false;
     entry_nextScheduled := None; entry_error := Some e |}.

Definition createFailed (r : ApiResult) : Error :=
  "Failed to create campaign in Mailchimp: " ++ message r.

Definition scheduleFailed (r : ApiResult) : Error :=
  "Failed to schedule campaign in Mailchimp: " ++ message r.

(** Lines 863-877: the dispatch of the new campaign, create then
    schedule. *)
Definition dispatch (newCampaign : EmailCampaign) : M unit :=
  createResult <- createCampaign newCampaign ;;
  if negb (success createResult) then throw (createFailed createResult)
  else
    match data createResult with
    | None => throw "Cannot read properties of undefined (reading 'id')"
    | Some id =>
        scheduleResult <- scheduleCampaign id (scheduledFor newCampaign) ;;
        if negb (success scheduleResult)
        then throw (scheduleFailed scheduleResult)
        else ret tt
    end.

(** Lines 853-861: the new campaign made from the recurring one. *)
Definition materialize (campaign : EmailCampaign) (nextDate : Date)
  : M EmailCampaign :=
  match nextDate with
  | NaN => throw "Cast to date failed for value 'Invalid Date'"
  | Num _ =>
      Store.create (name campaign ++ " - " ++ toLocaleDateString nextDate)
        (description campaign) (type campaign) (template campaign)
        (segment campaign) nextDate "draft"
  end.

(** The body of the inner [try], lines 802-889, for one campaign of the
    query's answer; it returns [results] as the body leaves it. *)
Definition tryBody (fuel : nat) (campaign : EmailCampaign)
    (results : list ResultEntry) : M (list ResultEntry) :=
  now <- newDate ;;
  if isDue (nextScheduled (recurring campaign)) now then
    start <- newDate ;;
    match computeNextOccurrence fuel (recurring campaign) start with
    | None => hang
    | Some nextDate =>
        newCampaign <- materialize campaign nextDate ;;
        dispatch newCampaign ;;;
        Store.save (advance campaign now nextDate) ;;;
        ret (results ++ [successEntry campaign nextDate])%list
    end
  else ret results.

(** One turn of the [for] loop: the inner [try] and its [catch],
    lines 801-897. *)
Definition iteration (fuel : nat) (campaign : EmailCampaign)
    (results : list ResultEntry) : M (list ResultEntry) :=
  tryCatch (tryBody fuel campaign results)
           (fun e => ret (results ++ [failureEntry campaign e])%list).

(** The [for] loop of lines 800-898. *)
Fixpoint forEachCampaign (fuel : nat) (cs : list EmailCampaign)
    (results : list ResultEntry) : M (list ResultEntry) :=
  match cs with
  | [] => ret results
  | campaign :: rest =>
      results' <- iteration fuel campaign results ;;
      forEachCampaign fuel rest results'
  end.

(** [processRecurringCampaigns()], lines 786-906.  [fuel] bounds each run
    of the day-of-week loop. *)
Definition processRecurringCampaigns (fuel : nat) : M Report :=
  tryCatch
    (cs <- Store.find Store.recurringQuery ;;
     results <- forEachCampaign fuel cs [] ;;
     ret {| report_success := true;
            report_message := "Recurring campaigns processed";
            report_results := Some results; report_error := None |})
    (fun e =>
       ret {| report_success := false;
              report_message := "Error processing recurring campaigns";
              report_results := None; report_error := Some e |}).

(** ** Vocabulary of the statements *)

(** 1 in a leap year, else 0. *)
Definition leapDay (y : Z) : Z := if DaysInYear y =? 366 then 1 else 0.

(** Months counted from January of year 0: month [m] of year [y] has index
    [12 * y + m]. *)
Definition monthIndex (t : Z) : Z := 12 * YearFromTime t + MonthFromTime t.

(** Day number of the first day of the month of index [i]. *)
Definition monthStart (i : Z) : Z := MakeDay 0 i 1.

(** Time values a [Date] can hold. *)
Definition inRange (t : Z) : Prop := - maxTimeValue <= t <= maxTimeValue.

(** Days added by the [switch] on the frequency to a date of time value
    [t]: a fixed count, or the distance between the start of the month of
    [t] and the start of the month one or three months later. *)
Definition baseDays (freq : string) (t : Z) : Z :=
  if String.eqb freq "daily" then 1
  else if String.eqb freq "weekly" then 7
  else if String.eqb freq "biweekly" then 14
  else if String.eqb freq "monthly"
  then monthStart (monthIndex t + 1) - monthStart (monthIndex t)
  else if String.eqb freq "quarterly"
  then monthStart (monthIndex t + 3) - monthStart (monthIndex t)
  else monthStart (monthIndex t + 1) - monthStart (monthIndex t).

(** The five frequencies of the schema. *)
Definition recognized (freq : string) : bool :=
  String.eqb freq "daily" || String.eqb freq "weekly"
  || String.eqb freq "biweekly" || String.eqb freq "monthly"
  || String.eqb freq "quarterly".

(** The schema's bounds on [dayOfWeek] and [dayOfMonth]. *)
Definition validDayOfWeek (r : Recurring) : bool :=
  match dayOfWeek r with
  | Some d => (0 <=? d) && (d <=? 6)
  | None => true
  end.

Definition validDayOfMonth (r : Recurring) : bool :=
  match dayOfMonth r with
  | Some d => (1 <=? d) && (d <=? 31)
  | None => true
  end.

(** [timeOfDay] is absent, empty, or reads as an hour in 0..23 and a
    minute in 0..59 around a colon. *)
Definition validTimeOfDay (r : Recurring) : bool :=
  match timeOfDay r with
  | Some s =>
      if String.eqb s "" then true
      else match map Str.toNumber (Str.split ":" s) with
           | [Num h; Num m] =>
               (0 <=? h) && (h <=? 23) && (0 <=? m) && (m <=? 59)
           | _ => false
           end
  | None => true
  end.

Definition validRule (r : Recurring) : bool :=
  validDayOfWeek r && validDayOfMonth r && validTimeOfDay r.

(** Latest clock reading the scheduler is considered at: 130 days before
    the end of the range of time values (13 September 275760). *)
Definition lastStart : Z := maxTimeValue - 130 * msPerDay.

(** The rule [r] with another [frequency], or with [dayOfMonth] unset. *)
Definition withFrequency (r : Recurring) (freq : string) : Recurring :=
  {| enabled := enabled r; frequency := freq; dayOfWeek := dayOfWeek r;
     dayOfMonth := dayOfMonth r; timeOfDay := timeOfDay r;
     lastSent := lastSent r; nextScheduled := nextScheduled r |}.

Definition withoutDayOfMonth (r : Recurring) : Recurring :=
  {| enabled := enabled r; frequency := frequency r;
     dayOfWeek := dayOfWeek r; dayOfMonth := None;
     timeOfDay := timeOfDay r; lastSent := lastSent r;
     nextScheduled := nextScheduled r |}.

(** A rule given by the fields the computation reads. *)
Definition rule (freq : string) (dow dom : option Z) (tod : option string)
  : Recurring :=
  {| enabled := true; frequency := freq; dayOfWeek := dow;
     dayOfMonth := dom; timeOfDay := tod; lastSent := None;
     nextScheduled := None |}.

(** Time value of 00:00 on day [date] of month [month] (1 = January) of
    [year]. *)
Definition midnight (year month date : Z) : Z :=
  MakeDate (MakeDay year (month - 1) date) 0.

(** Year, month (1 = January), day of the month and weekday of a time
    value. *)
Definition civil (t : Z) : Z * Z * Z * Z :=
  (YearFromTime t, MonthFromTime t + 1, DateFromTime t, WeekDay t).

(** First stored campaign of a given [_id]. *)
Definition lookup (id : ObjectId) (cs : list EmailCampaign)
  : option EmailCampaign :=
  List.find (fun d => Nat.eqb (_id d) id) cs.

(** Time still to pass on the clock. *)
Definition remainingTicks (w : World) : Z :=
  Z.of_N (fold_right N.add 0%N (ticks w)).

(** Every reading of the clock, now and later, is a time value at most
    [lastStart]. *)
Definition clockOK (w : World) : Prop :=
  inRange (clock w) /\ clock w + remainingTicks w <= lastStart.

(** The stored rules are within the schema's bounds. *)
Definition schemaOK (cs : list EmailCampaign) : Prop :=
  Forall (fun d => validRule (recurring d) = true) cs.

(** The store issues ids it has not issued before. *)
Definition freshIds (w : World) : Prop :=
  Forall (fun d => (_id d < nextObjectId w)%nat) (campaigns w).

(** The invariant of a definition: once both are set, [nextScheduled] is
    strictly later than [lastSent]. *)
Definition ordered (d : EmailCampaign) : Prop :=
  match lastSent (recurring d), nextScheduled (recurring d) with
  | Some l, Some n =>
      match l, n with
      | Num a, Num b => a < b
      | _, _ => False
      end
  | _, _ => True
  end.

(** All of the world but the outcomes of the coming calls. *)
Definition sameButFaults (w w' : World) : Prop :=
  campaigns w' = campaigns w /\ templates w' = templates w /\
  nextObjectId w' = nextObjectId w /\ remote w' = remote w /\
  clock w' = clock w /\ ticks w' = ticks w.

(** The clock, the templates and the id supply are as before. *)
Definition quiet (w w' : World) : Prop :=
  clock w' = clock w /\ ticks w' = ticks w /\
  templates w' = templates w /\ nextObjectId w' = nextObjectId w.

(** The turn of the loop for [campaign] in world [w] finds it due at the
    reading [now], computes [nextDate] and stores the new campaign
    [newCampaign], reaching the dispatch in world [w1]. *)
Definition reachesDispatch (fuel : nat) (campaign : EmailCampaign)
    (w : World) (now nextDate : Date) (newCampaign : EmailCampaign)
    (w1 : World) : Prop :=
  exists wa start wb,
    newDate w = Ret now wa /\
    isDue (nextScheduled (recurring campaign)) now = true /\
    newDate wa = Ret start wb /\
    computeNextOccurrence fuel (recurring campaign) start = Some nextDate /\
    materialize campaign nextDate wb = Ret newCampaign w1.

(** The errors thrown at lines 866 and 876. *)
Definition createError : Error :=
  "Failed to create campaign in Mailchimp: Error creating campaign in Mailchimp".
Definition scheduleError : Error :=
  "Failed to schedule campaign in Mailchimp: Error scheduling campaign in Mailchimp".

(** How a turn of the loop may change the stored campaigns: a new campaign
    is appended, a campaign gets its Mailchimp id and status, the campaign
    of id [i] gets its schedule with [lastSent] before [nextScheduled]. *)
Inductive evolves (i : option ObjectId)
  : list EmailCampaign -> list EmailCampaign -> Prop :=
| evolves_refl cs : evolves i cs cs
| evolves_new cs n :
    recurring n = Store.defaultRecurring -> evolves i cs (cs ++ [n])
| evolves_mark cs id mc st :
    evolves i cs (Store.updateWhere id (Store.setMailchimp mc st) cs)
| evolves_save cs id now next :
    i = Some id -> now < next ->
    evolves i cs
      (Store.updateWhere id
         (setSchedule (Some (Num now)) (Some (Num next))) cs)
| evolves_trans cs1 cs2 cs3 :
    evolves i cs1 cs2 -> evolves i cs2 cs3 -> evolves i cs1 cs3.

(** The turn of the loop for [campaign] reaches the dispatch and the
    dispatch throws [e], at its create step (line 866) or at its schedule
    step (line 876), leaving the world [w2]. *)
Definition dispatchFails (fuel : nat) (campaign : EmailCampaign) (w : World)
    (now nextDate : Date) (e : Error) (w2 : World) : Prop :=
  exists newCampaign w1,
    reachesDispatch fuel campaign w now nextDate newCampaign w1 /\
    dispatch newCampaign w1 = Throw e w2.

(** The turn of the loop for [campaign] reaches the dispatch and the
    dispatch succeeds, leaving the world [w2]. *)
Definition dispatchSucceeds (fuel : nat) (campaign : EmailCampaign)
    (w : World) (now nextDate : Date) (w2 : World) : Prop :=
  exists newCampaign w1,
    reachesDispatch fuel campaign w now nextDate newCampaign w1 /\
    dispatch newCampaign w1 = Ret tt w2.

(** The fields of the new campaign of lines 853-861. *)
Definition instanceOf (campaign : EmailCampaign) (nextDate : Date)
    (inst : EmailCampaign) : Prop :=
  name inst = name campaign ++ " - " ++ toLocaleDateString nextDate /\
  description inst = description campaign /\ type inst = type campaign /\
  template inst = template campaign /\ segment inst = segment campaign /\
  scheduledFor inst = Some nextDate /\
  recurring inst = Store.defaultRecurring.

(** ** Worlds of the examples *)

Definition definition (id : ObjectId) (nm st : string) (r : Recurring)
  : EmailCampaign :=
  {| _id := id; name := nm; description := None; type := "newsletter";
     template := 0%nat; segment := []; scheduledFor := None;
     recurring := r; status := st; mailchimpCampaignId := None |}.

(** A store with one template, read at 10:00 on 15 January 2024; the
    clock moves by 250 ms before its second reading. *)
Definition world (cs : list EmailCampaign) (fs : list (option Error))
  : World :=
  {| campaigns := cs;
     templates := [{| tpl_id := 0%nat; subject := "News";
                      htmlContent := "<p>News</p>";
                      mailchimpTemplateId := Some 7%nat |}];
     nextObjectId := 100%nat; remote := [];
     clock := midnight 2024 1 15 + 10 * msPerHour; ticks := [0%N; 250%N];
     faults := fs |}.

Definition weeklyDigest : EmailCampaign :=
  definition 1%nat "Weekly digest" "sent"
    (rule "weekly" (Some 3) None (Some "09:00")).

Definition monthlyOffers : EmailCampaign :=
  definition 2%nat "Monthly offers" "draft"
    (rule "monthly" None (Some 31) (Some "09:00")).

Definition dailyTips : EmailCampaign :=
  definition 3%nat "Daily tips" "draft" (rule "daily" None None None).

(** The calls of a turn of the loop that goes through: create the new
    campaign, find the template, create in Mailchimp, set the content,
    mark the new campaign, schedule, save. *)
Definition through : list (option Error) :=
  [None; None; None; None; None; None; None].

(** The world a run ends in. *)
Definition worldAfter {A} (r : Res A) (w : World) : World :=
  match r with
  | Ret _ w' => w'
  | Throw _ w' => w'
  | Hang => w
  end.

(** The flag of a report and, of each entry of its results, the campaign,
    the success flag and the error. *)
Definition outcomes (r : Res Report)
  : option (bool * list (string * bool * option Error)) :=
  match r with
  | Ret rep _ =>
      match report_results rep with
      | Some es =>
          Some (report_success rep,
                map (fun e => (entry_campaign e, entry_success e,
                               entry_error e)) es)
      | None => Some (report_success rep, [])
      end
  | _ => None
  end.

(** Name, status, [lastSent] and [nextScheduled] of the stored
    campaigns. *)
Definition schedules (w : World)
  : list (string * string * option Date * option Date) :=
  map (fun d => (name d, status d, lastSent (recurring d),
                 nextScheduled (recurring d))) (campaigns w).

(** An enabled definition, due, whose status is scheduled. *)
Definition paused : EmailCampaign :=
  definition 1%nat "Paused" "scheduled" (rule "daily" None None None).

(** One due definition; the query answers and the new campaign is stored,
    then the named call of the turn throws. *)
Definition mailchimpCreateFails : World :=
  world [monthlyOffers] [None; None; None; Some "Mailchimp is down"].

Definition mailchimpScheduleFails : World :=
  world [monthlyOffers]
        [None; None; None; None; None; None; Some "Mailchimp is down"].

Definition saveFails : World :=
  world [dailyTips]
        [None; None; None; None; None; None; None; Some "write failed"].

(** The batch of the third end-to-end scenario: three due definitions; the
    Mailchimp call that creates the campaign of the second one fails. *)
Definition threeDefinitions : World :=
  world [weeklyDigest; monthlyOffers; dailyTips]
        ([None] ++ through ++ [None; None; Some "Mailchimp is down"]).
(** * The campaigns the service launches itself

    [scheduleNewsletter], [schedulePromotionalCampaign] and
    [processNewProductAnnouncement] (MailchimpService.js, lines 545-780)
    look up the default template of their type, store a new campaign and
    dispatch it with the same create-then-schedule steps as the scheduler
    ([dispatch] above). *)

(** ** What the EmailCampaign schema does to a new document *)

Module Schema.

(** White space and line terminators of ECMAScript among the code units
    below U+0100: TAB, LF, VT, FF, CR, SP and NBSP. *)
Definition isWhiteSpace (c : ascii) : bool :=
  let n := Z.of_nat (nat_of_ascii c) in
  (9 <=? n) && (n <=? 13) || (n =? 32) || (n =? 160).

Fixpoint trimStart (s : string) : string :=
  match s with
  | EmptyString => EmptyString
  | String c s' => if isWhiteSpace c then trimStart s' else s
  end.

Fixpoint trimEnd (s : string) : string :=
  match s with
  | EmptyString => EmptyString
  | String c s' =>
      match trimEnd s' with
      | EmptyString => if isWhiteSpace c then EmptyString
                       else String c EmptyString
      | r => String c r
      end
  end.

(** [s.trim()], the setter of a path declared with [trim: true]. *)
Definition trim (s : string) : string := trimEnd (trimStart s).

Definition oneOf (s : string) (values : list string) : bool :=
  existsb (String.eqb s) values.

(** The [enum] of [type] and of [status]. *)
Definition campaignTypes : list string :=
  ["welcome"; "product_announcement"; "inquiry_followup"; "promotional";
   "newsletter"].

Definition statuses : list string :=
  ["draft"; "scheduled"; "sending"; "sent"; "cancelled"].

(** A [Date] path holding an Invalid Date fails its cast. *)
Definition castFails (d : option Date) : bool :=
  match d with
  | Some NaN => true
  | _ => false
  end.

Definition invalid (path reason : string) : Error :=
  "EmailCampaign validation failed: " ++ path ++ ": " ++ reason.

(** The validators of the schema, in the order of its paths; the error
    names the first path that fails.  [nm] is the name after its setter. *)
Definition validate (nm ty : string) (sched : Date) (rec : Recurring)
    (st : string) : option Error :=
  if String.eqb nm "" then Some (invalid "name" "Campaign name is required")
  else if negb (oneOf ty campaignTypes)
  then Some (invalid "type" "not a valid enum value")
  else if castFails (Some sched)
  then Some (invalid "scheduledFor" "Cast to date failed")
  else if negb (recognized (frequency rec))
  then Some (invalid "recurring.frequency" "not a valid enum value")
  else if negb (validDayOfWeek rec)
  then Some (invalid "recurring.dayOfWeek" "outside the allowed bounds")
  else if negb (validDayOfMonth rec)
  then Some (invalid "recurring.dayOfMonth" "outside the allowed bounds")
  else if castFails (lastSent rec)
  then Some (invalid "recurring.lastSent" "Cast to date failed")
  else if castFails (nextScheduled rec)
  then Some (invalid "recurring.nextScheduled" "Cast to date failed")
  else if negb (oneOf st statuses)
  then Some (invalid "status" "not a valid enum value")
  else None.

(** [EmailCampaign.create({name, description, type, template, segment,
    scheduledFor, recurring, status})]: the strings are trimmed, the
    document is validated and, when valid, stored under a new [_id] and
    returned.  A document that fails its validation is not sent to the
    store.  [Store.create] is this creation for the documents of the
    scheduler, which pass the validators as they are. *)
Definition create (nm : string) (descr : option string) (ty : string)
    (tpl : ObjectId) (seg : Segment) (sched : Date) (rec : Recurring)
    (st : string) : M EmailCampaign :=
  match validate (trim nm) ty sched rec st with
  | Some e => throw e
  | None =>
      collaborator ;;;
      fun w =>
        let doc := {| _id := nextObjectId w; name := trim nm;
                      description := option_map trim descr;
                      type := ty; template := tpl; segment := seg;
                      scheduledFor := Some sched; recurring := rec;
                      status := st; mailchimpCampaignId := None |} in
        Ret doc
            {| campaigns := campaigns w ++ [doc]; templates := templates w;
               nextObjectId := S (nextObjectId w); remote := remote w;
               clock := clock w; ticks := ticks w; faults := faults w |}
  end.

End Schema.

(** ** The arguments and the results *)

(** [a || b] on an optional string: [undefined] and the empty string are
    falsy. *)
Definition truthyString (s : option string) : option string :=
  match s with
  | Some x => if String.eqb x "" then None else Some x
  | None => None
  end.

(** The [options] of [scheduleNewsletter] and
    [schedulePromotionalCampaign]; [recurring] is the sub-document with the
    defaults of the schema filled in. *)
Module Options.
Record t : Type := {
  name : option string;
  description : option string;
  segment : option Segment;
  scheduledFor : option Date;
  recurring : option Recurring
}.
End Options.

Module Category.
Record t : Type := { name : string }.
End Category.

(** A product: its title, its slug and its category, populated or
    absent. *)
Module Product.
Record t : Type := {
  title : string;
  slug : string;
  category : option Category.t
}.
End Product.

(** [{success, message, campaign}] or [{success, message, error}]. *)
Module Outcome.
Record t : Type := {
  success : bool;
  message : string;
  campaign : option EmailCampaign;
  error : option Error
}.
End Outcome.

(** [Date.now()]: the time value of the clock's next reading. *)
Definition dateNow : M Number := newDate.

(** [new Date(value)] for a number. *)
Definition dateOfValue (value : Number) : Date :=
  match value with
  | Num t => TimeClip t
  | NaN => NaN
  end.

(** [new Date(Date.now() + 3600000)] *)
Definition inOneHour : M Date :=
  now <- dateNow ;;
  ret (dateOfValue (JS.add now (Num 3600000))).

Section DefaultTemplates.

(** The paths [type] and [isDefault] of the EmailTemplate documents, which
    the record [EmailTemplate] does not carry. *)
Variable templateType : EmailTemplate -> string.
Variable templateIsDefault : EmailTemplate -> bool.

(** [EmailTemplate.findOne({type, isDefault: true})]: the first such
    template of the collection, [None] for [null]. *)
Definition findOneTemplate (ty : string) : M (option EmailTemplate) :=
  collaborator ;;;
  fun w =>
    Ret (List.find
           (fun t => String.eqb (templateType t) ty && templateIsDefault t)
           (templates w)) w.

(** [scheduleNewsletter(options)], lines 684-730. *)
Definition scheduleNewsletter (options : Options.t) : M Outcome.t :=
  tryCatch
    (template <- findOneTemplate "newsletter" ;;
     match template with
     | None => throw "Default newsletter template not found"
     | Some t =>
         nm <- match truthyString (Options.name options) with
               | Some n => ret n
               | None =>
                   d <- newDate ;;
                   ret ("Newsletter: " ++ toLocaleDateString d)
               end ;;
         sched <- match Options.scheduledFor options with
                  | Some d => ret d
                  | None => inOneHour
                  end ;;
         campaign <-
           Schema.create nm
             (Some match truthyString (Options.description options) with
                   | Some d => d
                   | None => "Regular newsletter campaign"
                   end)
             "newsletter" (tpl_id t)
             match Options.segment options with
             | Some s => s
             | None => []
             end
             sched
             match Options.recurring options with
             | Some r => r
             | None => Store.defaultRecurring
             end
             "draft" ;;
         dispatch campaign ;;;
         ret {| Outcome.success := true;
                Outcome.message := "Newsletter campaign scheduled successfully";
                Outcome.campaign := Some campaign;
                Outcome.error := None |}
     end)
    (fun e =>
       ret {| Outcome.success := false;
              Outcome.message := "Error scheduling newsletter campaign";
              Outcome.campaign := None; Outcome.error := Some e |}).

(** [schedulePromotionalCampaign(options)], lines 737-780. *)
Definition schedulePromotionalCampaign (options : Options.t) : M Outcome.t :=
  tryCatch
    (template <- findOneTemplate "promotional" ;;
     match template with
     | None => throw "Default promotional template not found"
     | Some t =>
         nm <- match truthyString (Options.name options) with
               | Some n => ret n
               | None =>
                   d <- newDate ;;
                   ret ("Promotion: " ++ toLocaleDateString d)
               end ;;
         sched <- match Options.scheduledFor options with
                  | Some d => ret d
                  | None => inOneHour
                  end ;;
         campaign <-
           Schema.create nm
             (Some match truthyString (Options.description options) with
                   | Some d => d
                   | None => "Promotional campaign"
                   end)
             "promotional" (tpl_id t)
             match Options.segment options with
             | Some s => s
             | None => []
             end
             sched Store.defaultRecurring "draft" ;;
         dispatch campaign ;;;
         ret {| Outcome.success := true;
                Outcome.message := "Promotional campaign scheduled successfully";
                Outcome.campaign := Some campaign;
                Outcome.error := None |}
     end)
    (fun e =>
       ret {| Outcome.success := false;
              Outcome.message := "Error scheduling promotional campaign";
              Outcome.campaign := None; Outcome.error := Some e |}).

(** [processNewProductAnnouncement(product)], lines 545-590. *)
Definition processNewProductAnnouncement (product : Product.t)
  : M Outcome.t :=
  tryCatch
    (template <- findOneTemplate "product_announcement" ;;
     match template with
     | None => throw "Default product announcement template not found"
     | Some t =>
         sched <- inOneHour ;;
         campaign <-
           Schema.create ("New Product: " ++ Product.title product)
             (Some ("Announcement for new product: "
                    ++ Product.title product))
             "product_announcement" (tpl_id t)
             [("interests",
               [match Product.category product with
                | Some c => Category.name c
                | None => "all-products"
                end])]
             sched Store.defaultRecurring "draft" ;;
         dispatch campaign ;;;
         ret {| Outcome.success := true;
                Outcome.message
                := "New product announcement processed successfully";
                Outcome.campaign := Some campaign;
                Outcome.error := None |}
     end)
    (fun e =>
       ret {| Outcome.success := false;
              Outcome.message := "Error processing new product announcement";
              Outcome.campaign := None; Outcome.error := Some e |}).

End DefaultTemplates.
(** * Tags and segments (MailchimpService.js, lines 45-78 and 155-206) *)

(** ** The criteria of a segment *)

Module Criteria.

(** A value held by the criteria object: a string or an array of
    strings. *)
Inductive Value : Type :=
| Text : string -> Value
| Items : list string -> Value.

(** The object [campaign.segment], its keys in insertion order, each
    listed once. *)
Definition Object : Type := list (string * Value).

(** [segment.key]; [None] is [undefined]. *)
Definition get (key : string) (o : Object) : option Value :=
  option_map snd (List.find (fun kv => String.eqb (fst kv) key) o).

Definition truthy (v : option Value) : bool :=
  match v with
  | Some (Text s) => negb (String.eqb s "")
  | Some (Items _) => true
  | None => false
  end.

(** The text of a value in a template literal: an array is joined with
    commas. *)
Definition toString (v : Value) : string :=
  match v with
  | Text s => s
  | Items l => String.concat "," l
  end.

End Criteria.

(** A condition of Mailchimp's segment options. *)
Record Condition : Type := {
  condition_type : string;
  op : string;
  field : string;
  value : Criteria.Value
}.

Definition tagCondition (v : Criteria.Value) : Condition :=
  {| condition_type := "Tag"; op := "is"; field := "tag"; value := v |}.

(** [segmentOpts]: the empty object, or [{match: 'all', conditions}]. *)
Inductive SegmentOpts : Type :=
| NoOptions : SegmentOpts
| MatchAll : list Condition -> SegmentOpts.

(** Lines 160-200: the conditions pushed for the four keys the conversion
    reads.  [interests.forEach] throws when [interests] is a string. *)
Definition segmentConditions (segment : Criteria.Object)
  : Error + list Condition :=
  let conditions : list Condition := [] in
  let conditions :=
    if Criteria.truthy (Criteria.get "customerStatus" segment)
    then match Criteria.get "customerStatus" segment with
         | Some v => (conditions ++ [tagCondition v])%list
         | None => conditions
         end
    else conditions in
  match
    match Criteria.get "interests" segment with
    | Some (Criteria.Items l) =>
        if (0 <? Z.of_nat (List.length l))
        then inr (conditions
                  ++ map (fun interest =>
                            tagCondition (Criteria.Text interest)) l)%list
        else inr conditions
    | Some (Criteria.Text s) =>
        if negb (String.eqb s "")
        then inl "campaign.segment.interests.forEach is not a function"
        else inr conditions
    | None => inr conditions
    end
  with
  | inl e => inl e
  | inr conditions =>
      let conditions :=
        if Criteria.truthy (Criteria.get "region" segment)
        then match Criteria.get "region" segment with
             | Some v =>
                 (conditions
                  ++ [tagCondition
                        (Criteria.Text
                           ("region:" ++ Criteria.toString v)%string)])%list
             | None => conditions
             end
        else conditions in
      let conditions :=
        if Criteria.truthy (Criteria.get "engagementLevel" segment)
        then match Criteria.get "engagementLevel" segment with
             | Some v =>
                 (conditions
                  ++ [tagCondition
                        (Criteria.Text
                           ("engagement:" ++ Criteria.toString v)%string)])%list
             | None => conditions
             end
        else conditions in
      inr conditions
  end.

(** Lines 155-206: [campaign.segment && Object.keys(campaign.segment).length
    > 0] guards the conversion. *)
Definition segmentOpts (segment : option Criteria.Object)
  : Error + SegmentOpts :=
  match segment with
  | Some ((_ :: _) as criteria) =>
      match segmentConditions criteria with
      | inl e => inl e
      | inr conditions => inr (MatchAll conditions)
      end
  | _ => inr NoOptions
  end.

(** ** The data sent for a subscriber *)

Module Subscriber.
Record t : Type := {
  email : string;
  status : option string;
  firstName : option string;
  lastName : option string;
  company : option string;
  phone : option string;
  customerStatus : option string;
  interests : option (list string);
  region : option string;
  engagementLevel : option string;
  mailchimpId : option string
}.
End Subscriber.

Record MergeFields : Type := {
  FNAME : string;
  LNAME : string;
  COMPANY : string;
  PHONE : string
}.

Record SubscriberData : Type := {
  email_address : string;
  member_status : string;
  merge_fields : MergeFields;
  tags : list string
}.

(** [s || ''] *)
Definition orEmpty (s : option string) : string :=
  match truthyString s with
  | Some x => x
  | None => ""
  end.

(** Lines 49-78 of [syncSubscriber]: the member data built from a
    subscriber. *)
Definition subscriberData (subscriber : Subscriber.t) : SubscriberData :=
  let tags : list string := [] in
  let tags :=
    match truthyString (Subscriber.customerStatus subscriber) with
    | Some s => (tags ++ [s])%list
    | None => tags
    end in
  let tags :=
    match Subscriber.interests subscriber with
    | Some l =>
        if 0 <? Z.of_nat (List.length l) then (tags ++ l)%list else tags
    | None => tags
    end in
  let tags :=
    match truthyString (Subscriber.region subscriber) with
    | Some r => (tags ++ [("region:" ++ r)%string])%list
    | None => tags
    end in
  let tags :=
    match truthyString (Subscriber.engagementLevel subscriber) with
    | Some e => (tags ++ [("engagement:" ++ e)%string])%list
    | None => tags
    end in
  {| email_address := Subscriber.email subscriber;
     member_status :=
       match Subscriber.status subscriber with
       | Some s => if String.eqb s "pending" then "pending" else "subscribed"
       | None => "subscribed"
       end;
     merge_fields :=
       {| FNAME := orEmpty (Subscriber.firstName subscriber);
          LNAME := orEmpty (Subscriber.lastName subscriber);
          COMPANY := orEmpty (Subscriber.company subscriber);
          PHONE := orEmpty (Subscriber.phone subscriber) |};
     tags := tags |}.

(** * The slug of a product (Product model, pre-save hook)

    A string is taken as its code units, all below U+0100. *)

Module Slug.

Definition code (c : ascii) : Z := Z.of_nat (nat_of_ascii c).

(** [toLowerCase] of a code unit below U+0100: the letters A-Z and the
    capital letters U+00C0-U+00DE (but the sign U+00D7) move up by 32. *)
Definition lower (c : ascii) : ascii :=
  let n := code c in
  if ((65 <=? n) && (n <=? 90))
     || ((192 <=? n) && (n <=? 222) && negb (n =? 215))
  then ascii_of_nat (nat_of_ascii c + 32)
  else c.

Fixpoint toLowerCase (s : string) : string :=
  match s with
  | EmptyString => EmptyString
  | String c s' => String (lower c) (toLowerCase s')
  end.

(** The class [[a-z0-9]]. *)
Definition isSlugChar (c : ascii) : bool :=
  let n := code c in
  ((97 <=? n) && (n <=? 122)) || ((48 <=? n) && (n <=? 57)).

Definition dash : ascii := "-"%char.

(** [.replace(/[^a-z0-9]/g, '-')] *)
Fixpoint replaceOthers (s : string) : string :=
  match s with
  | EmptyString => EmptyString
  | String c s' =>
      String (if isSlugChar c then c else dash) (replaceOthers s')
  end.

(** [.replace(/-+/g, '-')]: a dash followed by a dash is dropped. *)
Fixpoint collapseDashes (s : string) : string :=
  match s with
  | EmptyString => EmptyString
  | String c s' =>
      if Ascii.eqb c dash then
        match s' with
        | String c' _ =>
            if Ascii.eqb c' dash then collapseDashes s'
            else String c (collapseDashes s')
        | EmptyString => String c EmptyString
        end
      else String c (collapseDashes s')
  end.

Definition dropLeadingDash (s : string) : string :=
  match s with
  | String c s' => if Ascii.eqb c dash then s' else s
  | EmptyString => EmptyString
  end.

Fixpoint dropTrailingDash (s : string) : string :=
  match s with
  | EmptyString => EmptyString
  | String c EmptyString =>
      if Ascii.eqb c dash then EmptyString else s
  | String c s' => String c (dropTrailingDash s')
  end.

(** [.replace(/^-|-$/g, '')]: the matches are a dash at the start and a
    dash at the end, the second one looked for after the first. *)
Definition trimDashes (s : string) : string :=
  dropTrailingDash (dropLeadingDash s).

(** The chain of lines 129-133. *)
Definition slugify (title : string) : string :=
  trimDashes (collapseDashes (replaceOthers (toLowerCase title))).

(** The hook: [titleModified] is [this.isModified('title')]. *)
Definition preSave (titleModified : bool) (product : Product.t) : Product.t :=
  if negb titleModified then product
  else {| Product.title := Product.title product;
          Product.slug := slugify (Product.title product);
          Product.category := Product.category product |}.

End Slug.

(** * Placeholder images (ImageGenerationService.js) *)

Record Image : Type := {
  url : string;
  alt : string;
  isMain : bool
}.

Definition views : list string :=
  ["front view"; "side view"; "detail view"; "in use"; "features"].

(** [generateImageAltText(product, imageIndex)], lines 50-55; [%] is the
    remainder of the truncated division, and an index outside of [views]
    reads [undefined]. *)
Definition generateImageAltText (product : Product.t) (imageIndex : Z)
  : string :=
  let index := Z.rem imageIndex (Z.of_nat (List.length views)) in
  let view :=
    if index <? 0 then "undefined"
    else nth (Z.to_nat index) views "undefined" in
  Product.title product ++ " - " ++ view.

(** The body of the loop of lines 22-36 for index [i]. *)
Definition placeholder (product : Product.t) (i : Z) : Image :=
  {| url := "/images/products/placeholder-" ++ Str.ofZ (i + 1) ++ ".jpg";
     alt := generateImageAltText product i;
     isMain := i =? 0 |}.

(** The loop [for (let i = 0; i < count; i++)], with the turns it still
    has to make. *)
Fixpoint imageLoop (product : Product.t) (turns : nat) (i : Z)
    (images : list Image) : list Image :=
  match turns with
  | O => images
  | S turns' =>
      imageLoop product turns' (i + 1)
        (images ++ [placeholder product i])%list
  end.

(** [generateProductImages(product, count = 3)], lines 14-42: the loop
    makes [count] turns, none when [count <= 0]. *)
Definition generateProductImages (product : Product.t) (count : option Z)
  : list Image :=
  let count := match count with Some n => n | None => 3 end in
  imageLoop product (Z.to_nat count) 0 [].
(** ** Vocabulary of the further statements *)

(** Every character of [s] satisfies [p]; the characters of [s] that
    satisfy [p], in order. *)
Fixpoint allChars (p : ascii -> bool) (s : string) : bool :=
  match s with
  | EmptyString => true
  | String c s' => p c && allChars p s'
  end.

Fixpoint keepChars (p : ascii -> bool) (s : string) : string :=
  match s with
  | EmptyString => EmptyString
  | String c s' => if p c then String c (keepChars p s') else keepChars p s'
  end.

Definition startsWithDash (s : string) : bool :=
  match s with
  | String c _ => Ascii.eqb c Slug.dash
  | EmptyString => false
  end.

Fixpoint endsWithDash (s : string) : bool :=
  match s with
  | EmptyString => false
  | String c EmptyString => Ascii.eqb c Slug.dash
  | String _ s' => endsWithDash s'
  end.

Fixpoint hasDoubleDash (s : string) : bool :=
  match s with
  | EmptyString => false
  | String c s' =>
      (Ascii.eqb c Slug.dash && startsWithDash s') || hasDoubleDash s'
  end.

(** A text of lower-case letters, digits and single dashes, with no dash
    at either end. *)
Definition slugShaped (s : string) : bool :=
  allChars (fun c => Slug.isSlugChar c || Ascii.eqb c Slug.dash) s
  && negb (startsWithDash s) && negb (endsWithDash s)
  && negb (hasDoubleDash s).

(** The criteria object that names the attributes of a subscriber, each
    attribute under its own key and left out when the subscriber lacks
    it. *)
Definition criteriaOf (s : Subscriber.t) : Criteria.Object :=
  (match Subscriber.customerStatus s with
   | Some v => [("customerStatus", Criteria.Text v)]
   | None => []
   end
   ++ match Subscriber.interests s with
      | Some l => [("interests", Criteria.Items l)]
      | None => []
      end
   ++ match Subscriber.region s with
      | Some v => [("region", Criteria.Text v)]
      | None => []
      end
   ++ match Subscriber.engagementLevel s with
      | Some v => [("engagementLevel", Criteria.Text v)]
      | None => []
      end)%list.

(** The conditions of segment options, none for the empty object. *)
Definition conditionsOf (o : SegmentOpts) : list Condition :=
  match o with
  | NoOptions => []
  | MatchAll conditions => conditions
  end.

(** The keys the conversion of a segment reads. *)
Definition segmentKeys : list string :=
  ["customerStatus"; "interests"; "region"; "engagementLevel"].

(** The ids of the campaigns Mailchimp holds are the ones it has issued. *)
Definition remoteOK (w : World) : Prop :=
  Forall (fun r => (rc_id r < List.length (remote w))%nat) (remote w).

(** None of the coming calls to a collaborator throws. *)
Definition noFaults (w : World) : Prop :=
  Forall (fun f => f = None) (faults w).

(** The id Mailchimp gives the next campaign created. *)
Definition nextRemoteId (w : World) : nat := List.length (remote w).

(** The remote campaign [createCampaign] makes for [c]: as created, or with
    its content when that has been set. *)
Definition remoteFor (w : World) (c : EmailCampaign) (content : option string)
    (time : option Z) : RemoteCampaign :=
  {| rc_id := nextRemoteId w; rc_title := name c; rc_content := content;
     rc_schedule_time := time |}.

(** The template [EmailTemplate.findById] answers with. *)
Definition templateOf (c : EmailCampaign) (w : World)
  : option EmailTemplate :=
  List.find (fun t => Nat.eqb (tpl_id t) (template c)) (templates w).

(** A remote campaign with its schedule time set. *)
Definition withScheduleTime (time : Z) (r : RemoteCampaign) : RemoteCampaign :=
  {| rc_id := rc_id r; rc_title := rc_title r; rc_content := rc_content r;
     rc_schedule_time := Some time |}.

Section DefaultTemplateVocabulary.

Variable templateType : EmailTemplate -> string.
Variable templateIsDefault : EmailTemplate -> bool.

(** The template [findOneTemplate] answers with. *)
Definition defaultTemplate (ty : string) (w : World)
  : option EmailTemplate :=
  List.find (fun t => String.eqb (templateType t) ty && templateIsDefault t)
            (templates w).

End DefaultTemplateVocabulary.

(** The templates have distinct ids. *)
Definition templatesOK (w : World) : Prop :=
  NoDup (map tpl_id (templates w)).

(** The document a launch stores in world [w], as [Schema.create] returns
    it. *)
Definition draft (w : World) (nm descr ty : string) (t : EmailTemplate)
    (seg : Segment) (sched : Date) (rec : Recurring) : EmailCampaign :=
  {| _id := nextObjectId w; name := Schema.trim nm;
     description := Some (Schema.trim descr); type := ty;
     template := tpl_id t; segment := seg; scheduledFor := Some sched;
     recurring := rec; status := "draft"; mailchimpCampaignId := None |}.

(** The stored campaign once [createCampaign] has marked it. *)
Definition marked (w : World) (c : EmailCampaign) : EmailCampaign :=
  Store.setMailchimp (nextRemoteId w) "scheduled" c.

(** What a launch of a campaign of type [ty] and rule [rec] leaves behind
    when it reports [r] in world [w']: on success, the new campaign stored
    and marked, and its Mailchimp campaign filled and scheduled, while the
    campaign in the result is the document as it was stored first; on
    failure, the stored campaigns as they were, or with the new campaign
    as a draft (the create step of the dispatch failed) or marked scheduled
    (its schedule step failed). *)
Definition launchOutcome (ty : string) (rec : Recurring) (w : World)
    (r : Outcome.t) (w' : World) : Prop :=
  (Outcome.success r = true /\ Outcome.error r = None /\
   exists c t time,
     Outcome.campaign r = Some c /\
     _id c = nextObjectId w /\ type c = ty /\ recurring c = rec /\
     status c = "draft" /\ mailchimpCampaignId c = None /\
     templateOf c w = Some t /\ scheduledFor c = Some (Num time) /\
     campaigns w' = (campaigns w ++ [marked w c])%list /\
     remote w'
     = (remote w ++ [remoteFor w c (Some (htmlContent t)) (Some time)])%list)
  \/
  (Outcome.success r = false /\ Outcome.campaign r = None /\
   Outcome.error r <> None /\
   (campaigns w' = campaigns w \/
    exists c,
      _id c = nextObjectId w /\ type c = ty /\ recurring c = rec /\
      status c = "draft" /\ mailchimpCampaignId c = None /\
      (campaigns w' = (campaigns w ++ [c])%list \/
       campaigns w' = (campaigns w ++ [marked w c])%list))).

(** The stored campaigns, the templates, the id supply and Mailchimp are
    as before, and no fault has been added. *)
Definition sameStore (w w' : World) : Prop :=
  campaigns w' = campaigns w /\ templates w' = templates w /\
  nextObjectId w' = nextObjectId w /\ remote w' = remote w /\
  (noFaults w -> noFaults w').

(** A step that may read the clock and does nothing else. *)
Definition reading {A} (m : M A) : Prop :=
  forall w, exists a w',
    m w = Ret a w' /\ sameStore w w' /\ faults w' = faults w /\
    clock w <= clock w' /\
    clock w' + remainingTicks w' = clock w + remainingTicks w.

Section LaunchVocabulary.

Variable templateType : EmailTemplate -> string.
Variable templateIsDefault : EmailTemplate -> bool.

(** The shape the three launches share: the default template of type [ty]
    is looked up, the name and the date are made, the campaign is stored
    and dispatched. *)
Definition launch (ty notFound : string) (nameOf : M string)
    (dateOf : M Date) (descr : string) (seg : Segment) (rec : Recurring)
    (done failed : string) : M Outcome.t :=
  tryCatch
    (template <- findOneTemplate templateType templateIsDefault ty ;;
     match template with
     | None => throw notFound
     | Some t =>
         nm <- nameOf ;;
         sched <- dateOf ;;
         campaign <-
           Schema.create nm (Some descr) ty (tpl_id t) seg sched rec
             "draft" ;;
         dispatch campaign ;;;
         ret {| Outcome.success := true; Outcome.message := done;
                Outcome.campaign := Some campaign;
                Outcome.error := None |}
     end)
    (fun e =>
       ret {| Outcome.success := false; Outcome.message := failed;
              Outcome.campaign := None; Outcome.error := Some e |}).

End LaunchVocabulary.

(** The name, the description, the segment and the rule
    [scheduleNewsletter] takes from its options. *)
Definition newsletterName (options : Options.t) : M string :=
  match truthyString (Options.name options) with
  | Some n => ret n
  | None => d <- newDate ;; ret ("Newsletter: " ++ toLocaleDateString d)
  end.

Definition promotionName (options : Options.t) : M string :=
  match truthyString (Options.name options) with
  | Some n => ret n
  | None => d <- newDate ;; ret ("Promotion: " ++ toLocaleDateString d)
  end.

Definition dateOfOptions (options : Options.t) : M Date :=
  match Options.scheduledFor options with
  | Some d => ret d
  | None => inOneHour
  end.

Definition descriptionOr (options : Options.t) (default : string) : string :=
  match truthyString (Options.description options) with
  | Some d => d
  | None => default
  end.

Definition segmentOf (options : Options.t) : Segment :=
  match Options.segment options with
  | Some s => s
  | None => []
  end.

Definition ruleOf (options : Options.t) : Recurring :=
  match Options.recurring options with
  | Some r => r
  | None => Store.defaultRecurring
  end.

(** The segment of a product announcement. *)
Definition interestsOf (product : Product.t) : Segment :=
  [("interests",
    [match Product.category product with
     | Some c => Category.name c
     | None => "all-products"
     end])].



(** Options for the examples: every default, or a weekly rule. *)
Definition noOptions : Options.t :=
  {| Options.name := None; Options.description := None;
     Options.segment := None; Options.scheduledFor := None;
     Options.recurring := None |}.

Definition weeklyOptions : Options.t :=
  {| Options.name := Some "Weekly digest"; Options.description := None;
     Options.segment := None; Options.scheduledFor := None;
     Options.recurring := Some (rule "weekly" (Some 3) None (Some "09:00")) |}.

Definition sprayBooth : Product.t :=
  {| Product.title := "Spray booth"; Product.slug := "spray-booth";
     Product.category := Some {| Category.name := "booths" |} |}.

(** In the examples every template is a default newsletter template, or a
    default product announcement template. *)
Definition allNewsletter (t : EmailTemplate) : string := "newsletter".
Definition allAnnouncement (t : EmailTemplate) : string :=
  "product_announcement".
Definition allDefault (t : EmailTemplate) : bool := true.

(** The definition is not due at any clock reading up to [limit]: its
    [nextScheduled] is later, or is an Invalid Date, which no date
    reaches. *)
Definition notDueBefore (limit : Z) (d : EmailCampaign) : Prop :=
  match nextScheduled (recurring d) with
  | Some (Num t) => limit < t
  | Some NaN => True
  | None => False
  end.

(** [d'] is [d] but for [recurring.lastSent] and
    [recurring.nextScheduled]. *)
Definition rescheduled (d d' : EmailCampaign) : Prop :=
  d' = setSchedule (lastSent (recurring d')) (nextScheduled (recurring d')) d.

(** The stored campaigns [cs'] are those of [cs], in order and rescheduled
    at most, followed by new campaigns that are not recurring and have ids
    from [next] on. *)
Definition grownFrom (next : ObjectId) (cs cs' : list EmailCampaign)
  : Prop :=
  exists old news,
    cs' = (old ++ news)%list /\ Forall2 rescheduled cs old /\
    Forall (fun n => enabled (recurring n) = false /\ (next <= _id n)%nat)
           news.

(** A definition sent on 15 January 2024 and scheduled again for the
    22nd. *)
Definition scheduledDigest : EmailCampaign :=
  definition 1%nat "Weekly digest" "sent"
    {| enabled := true; frequency := "weekly"; dayOfWeek := None;
       dayOfMonth := None; timeOfDay := Some "09:00";
       lastSent := Some (Num (midnight 2024 1 15 + 9 * msPerHour));
       nextScheduled := Some (Num (midnight 2024 1 22 + 9 * msPerHour)) |}.

(** The rule [r] with [timeOfDay] unset. *)
Definition withoutTimeOfDay (r : Recurring) : Recurring :=
  {| enabled := enabled r; frequency := frequency r;
     dayOfWeek := dayOfWeek r; dayOfMonth := dayOfMonth r;
     timeOfDay := None; lastSent := lastSent r;
     nextScheduled := nextScheduled r |}.

(** A text without colon. *)
Definition colonless (s : string) : bool :=
  allChars (fun c => negb (Ascii.eqb c ":")) s.

(** The error of a document whose date is an Invalid Date. *)
Definition castError : Error := "Cast to date failed for value 'Invalid Date'".

(** * Calendar facts *)

Section Calendar.

Lemma msPerDay_eq : msPerDay = 86400000.
Proof. reflexivity. Qed.

Lemma Day_TimeWithinDay t :
  t = Day t * msPerDay + TimeWithinDay t /\ 0 <= TimeWithinDay t < msPerDay.
Proof.
  unfold Day, TimeWithinDay. rewrite msPerDay_eq.
  Z.div_mod_to_equations. lia.
Qed.

Lemma Day_MakeDate d tod :
  0 <= tod < msPerDay ->
  Day (MakeDate d tod) = d /\ TimeWithinDay (MakeDate d tod) = tod.
Proof.
  unfold Day, TimeWithinDay, MakeDate. rewrite msPerDay_eq. intros H.
  Z.div_mod_to_equations. lia.
Qed.

Lemma DaysInYear_cases y : DaysInYear y = 365 \/ DaysInYear y = 366.
Proof.
  unfold DaysInYear.
  destruct (y mod 4 =? 0), (y mod 100 =? 0), (y mod 400 =? 0); simpl; auto.
Qed.

Lemma DayFromYear_succ y : DayFromYear (y + 1) = DayFromYear y + DaysInYear y.
Proof.
  unfold DayFromYear, DaysInYear.
  destruct (Z.eqb_spec (y mod 4) 0), (Z.eqb_spec (y mod 100) 0),
    (Z.eqb_spec (y mod 400) 0); cbn [negb];
    Z.div_mod_to_equations; lia.
Qed.

Lemma DayFromYear_lt y y' : y < y' -> DayFromYear y < DayFromYear y'.
Proof.
  unfold DayFromYear. intros H. Z.div_mod_to_equations. lia.
Qed.

Lemma YearFromTime_days t :
  DayFromYear (YearFromTime t) <= Day t < DayFromYear (YearFromTime t + 1).
Proof.
  unfold YearFromTime.
  set (d := Day t).
  set (e := 1970 + 400 * d / 146097).
  destruct (Z.ltb_spec d (DayFromYear e)).
  - replace (e - 1 + 1) with e by lia. split; [|lia].
    subst e. unfold DayFromYear in *. Z.div_mod_to_equations. lia.
  - destruct (Z.leb_spec (DayFromYear (e + 1)) d).
    + split; [lia|]. subst e. unfold DayFromYear in *.
      Z.div_mod_to_equations. lia.
    + lia.
Qed.

Lemma YearFromTime_unique t y :
  DayFromYear y <= Day t < DayFromYear (y + 1) -> YearFromTime t = y.
Proof.
  intros H. pose proof (YearFromTime_days t) as G.
  destruct (Z.lt_trichotomy (YearFromTime t) y) as [L | [E | L]]; auto.
  - assert (YearFromTime t + 1 <= y) as L' by lia.
    apply Z.le_lteq in L'. destruct L' as [L' | L'].
    + apply DayFromYear_lt in L'. lia.
    + rewrite L' in G. lia.
  - assert (y + 1 <= YearFromTime t) as L' by lia.
    apply Z.le_lteq in L'. destruct L' as [L' | L'].
    + apply DayFromYear_lt in L'. lia.
    + rewrite <- L' in G. lia.
Qed.

(** [YearFromTime] meets its ECMA-262 specification: it is the largest
    year whose start is not after [t]. *)
Lemma YearFromTime_spec t :
  TimeFromYear (YearFromTime t) <= t /\
  forall y, TimeFromYear y <= t -> y <= YearFromTime t.
Proof.
  pose proof (YearFromTime_days t) as G.
  pose proof (Day_TimeWithinDay t) as D.
  unfold TimeFromYear. rewrite msPerDay_eq in *. split; [nia|].
  intros y Hy.
  destruct (Z.le_gt_cases y (YearFromTime t)) as [L | L]; auto.
  assert (YearFromTime t + 1 <= y) as L' by lia.
  apply Z.le_lteq in L'. destruct L' as [L' | L'].
  - apply DayFromYear_lt in L'. nia.
  - rewrite <- L' in Hy. nia.
Qed.

End Calendar.

Section Months.

Lemma leapDay_cases y : leapDay y = 0 \/ leapDay y = 1.
Proof. unfold leapDay. destruct (DaysInYear y =? 366); auto. Qed.

Lemma DaysInYear_leapDay y : DaysInYear y = 365 + leapDay y.
Proof.
  unfold leapDay. destruct (DaysInYear_cases y) as [H | H]; rewrite H; reflexivity.
Qed.

Lemma DaysInMonth_range y m : 28 <= DaysInMonth y m <= 31.
Proof.
  unfold DaysInMonth.
  destruct (m =? 1); [destruct (DaysInYear y =? 366); lia|].
  destruct ((m =? 3) || (m =? 5) || (m =? 8) || (m =? 10)); lia.
Qed.

Lemma small_cases m : 0 <= m <= 11 ->
  m = 0 \/ m = 1 \/ m = 2 \/ m = 3 \/ m = 4 \/ m = 5 \/ m = 6 \/ m = 7 \/
  m = 8 \/ m = 9 \/ m = 10 \/ m = 11.
Proof. lia. Qed.

Ltac month_cases m H :=
  let C := fresh "C" in
  pose proof (small_cases m H) as C;
  repeat (destruct C as [C | C]; [subst m | ]); [.. | subst m].

Lemma daysBeforeMonth_succ m l : 0 <= m <= 10 -> 0 <= l <= 1 ->
  daysBeforeMonth (m + 1) l =
  daysBeforeMonth m l + (if m =? 1 then 28 + l
                         else if (m =? 3) || (m =? 5) || (m =? 8) || (m =? 10)
                              then 30 else 31).
Proof.
  intros Hm Hl. assert (0 <= m <= 11) as Hm' by lia.
  assert (l = 0 \/ l = 1) as [-> | ->] by lia;
    month_cases m Hm'; solve [reflexivity | lia].
Qed.

Lemma daysBeforeMonth_11 l : daysBeforeMonth 11 l = 334 + l.
Proof. reflexivity. Qed.

Lemma monthStart_eq y m : 0 <= m <= 11 ->
  monthStart (12 * y + m) = DayFromYear y + daysBeforeMonth m (leapDay y).
Proof.
  intros Hm. unfold monthStart, MakeDay, leapDay.
  replace ((12 * y + m) / 12) with y by (Z.div_mod_to_equations; lia).
  replace ((12 * y + m) mod 12) with m by (Z.div_mod_to_equations; lia).
  replace (0 + y) with y by lia. lia.
Qed.

Lemma MakeDay_monthStart y m d : MakeDay y m d = monthStart (12 * y + m) + d - 1.
Proof.
  unfold monthStart, MakeDay.
  replace ((12 * y + m) / 12) with (y + m / 12) by (Z.div_mod_to_equations; lia).
  replace ((12 * y + m) mod 12) with (m mod 12) by (Z.div_mod_to_equations; lia).
  replace (0 + (y + m / 12)) with (y + m / 12) by lia. lia.
Qed.

Lemma monthStart_succ i :
  monthStart (i + 1) = monthStart i + DaysInMonth (i / 12) (i mod 12).
Proof.
  assert (i = 12 * (i / 12) + i mod 12 /\ 0 <= i mod 12 <= 11) as [E R]
    by (Z.div_mod_to_equations; lia).
  set (y := i / 12) in *. set (m := i mod 12) in *.
  rewrite E at 2. rewrite monthStart_eq by lia.
  pose proof (leapDay_cases y) as L.
  destruct (Z.eq_dec m 11) as [M | M].
  - replace (i + 1) with (12 * (y + 1) + 0) by lia.
    rewrite monthStart_eq by lia. rewrite M, DayFromYear_succ, DaysInYear_leapDay.
    rewrite daysBeforeMonth_11.
    change (daysBeforeMonth 0 (leapDay (y + 1))) with 0.
    change (DaysInMonth y 11) with 31. lia.
  - replace (i + 1) with (12 * y + (m + 1)) by lia.
    rewrite monthStart_eq by lia. rewrite daysBeforeMonth_succ by lia.
    unfold DaysInMonth, leapDay.
    destruct (m =? 1); [destruct (DaysInYear y =? 366); lia|]. lia.
Qed.

Lemma monthStart_le i j : i <= j -> monthStart i + 28 * (j - i) <= monthStart j.
Proof.
  intros H. replace j with (i + Z.of_nat (Z.to_nat (j - i))) by lia.
  generalize (Z.to_nat (j - i)) as n. clear H j. intros n.
  induction n as [| n IH].
  - replace (i + Z.of_nat 0) with i by lia. lia.
  - replace (i + Z.of_nat (S n)) with (i + Z.of_nat n + 1) by lia.
    rewrite monthStart_succ.
    pose proof (DaysInMonth_range ((i + Z.of_nat n) / 12) ((i + Z.of_nat n) mod 12)).
    lia.
Qed.

Lemma monthStart_upper i j : i <= j -> monthStart j <= monthStart i + 31 * (j - i).
Proof.
  intros H. replace j with (i + Z.of_nat (Z.to_nat (j - i))) by lia.
  generalize (Z.to_nat (j - i)) as n. clear H j. intros n.
  induction n as [| n IH].
  - replace (i + Z.of_nat 0) with i by lia. lia.
  - replace (i + Z.of_nat (S n)) with (i + Z.of_nat n + 1) by lia.
    rewrite monthStart_succ.
    pose proof (DaysInMonth_range ((i + Z.of_nat n) / 12) ((i + Z.of_nat n) mod 12)).
    lia.
Qed.

Lemma DayWithinYear_range t :
  0 <= DayWithinYear t < 365 + InLeapYear t.
Proof.
  pose proof (YearFromTime_days t) as G. rewrite DayFromYear_succ in G.
  rewrite DaysInYear_leapDay in G. unfold DayWithinYear, InLeapYear.
  unfold leapDay in G. lia.
Qed.

Lemma MonthFromTime_range t : 0 <= MonthFromTime t <= 11.
Proof.
  unfold MonthFromTime.
  repeat match goal with |- context [if ?b then _ else _] => destruct b end; lia.
Qed.

Lemma month_of_day d l :
  0 <= l <= 1 -> 0 <= d < 365 + l ->
  forall m,
    m = (if d <? 31 then 0 else if d <? 59 + l then 1
         else if d <? 90 + l then 2 else if d <? 120 + l then 3
         else if d <? 151 + l then 4 else if d <? 181 + l then 5
         else if d <? 212 + l then 6 else if d <? 243 + l then 7
         else if d <? 273 + l then 8 else if d <? 304 + l then 9
         else if d <? 334 + l then 10 else 11) ->
    daysBeforeMonth m l <= d <
    daysBeforeMonth m l +
      (if m =? 1 then 28 + l
       else if (m =? 3) || (m =? 5) || (m =? 8) || (m =? 10) then 30 else 31).
Proof.
  intros Hl Hd m ->.
  assert (l = 0 \/ l = 1) as [-> | ->] by lia;
    repeat match goal with
           | |- context [if ?a <? ?b then _ else _] =>
               destruct (Z.ltb_spec a b)
           end; cbn in *; lia.
Qed.

(** The month read off a time value is the one its day lies in. *)
Lemma monthStart_index t :
  monthStart (monthIndex t) <= Day t < monthStart (monthIndex t + 1).
Proof.
  pose proof (MonthFromTime_range t) as R.
  pose proof (DayWithinYear_range t) as W.
  pose proof (leapDay_cases (YearFromTime t)) as L.
  rewrite monthStart_succ. unfold monthIndex.
  replace ((12 * YearFromTime t + MonthFromTime t) / 12) with (YearFromTime t)
    by (Z.div_mod_to_equations; lia).
  replace ((12 * YearFromTime t + MonthFromTime t) mod 12) with (MonthFromTime t)
    by (Z.div_mod_to_equations; lia).
  rewrite monthStart_eq by lia.
  change (InLeapYear t) with (leapDay (YearFromTime t)) in W.
  assert (0 <= leapDay (YearFromTime t) <= 1) as L' by lia.
  pose proof (month_of_day _ _ L' W (MonthFromTime t) eq_refl) as G.
  unfold DayWithinYear in G. unfold DaysInMonth. fold (leapDay (YearFromTime t)).
  destruct (MonthFromTime t =? 1).
  - unfold leapDay in *. destruct (DaysInYear (YearFromTime t) =? 366); lia.
  - lia.
Qed.

End Months.

Section Civil.

Lemma monthIndex_unique t i :
  monthStart i <= Day t < monthStart (i + 1) -> monthIndex t = i.
Proof.
  intros H. pose proof (monthStart_index t) as G.
  destruct (Z.lt_trichotomy (monthIndex t) i) as [L | [E | L]]; auto.
  - pose proof (monthStart_le (monthIndex t + 1) i). lia.
  - pose proof (monthStart_le (i + 1) (monthIndex t)). lia.
Qed.

Lemma monthIndex_div t : monthIndex t / 12 = YearFromTime t.
Proof.
  pose proof (MonthFromTime_range t). unfold monthIndex.
  Z.div_mod_to_equations. lia.
Qed.

Lemma monthIndex_mod t : monthIndex t mod 12 = MonthFromTime t.
Proof.
  pose proof (MonthFromTime_range t). unfold monthIndex.
  Z.div_mod_to_equations. lia.
Qed.

Lemma DateFromTime_eq t :
  DateFromTime t = Day t - monthStart (monthIndex t) + 1.
Proof.
  pose proof (MonthFromTime_range t). unfold monthIndex.
  rewrite monthStart_eq by lia. unfold DateFromTime, DayWithinYear.
  change (InLeapYear t) with (leapDay (YearFromTime t)). lia.
Qed.

Lemma DateFromTime_range t :
  1 <= DateFromTime t <= DaysInMonth (YearFromTime t) (MonthFromTime t).
Proof.
  pose proof (monthStart_index t) as G. rewrite monthStart_succ in G.
  rewrite monthIndex_div, monthIndex_mod in G. rewrite DateFromTime_eq. lia.
Qed.

(** Year, month, day of the month and time of day read off a time value
    built from them are the ones it was built from. *)
Lemma civil_of_MakeDate i d tod :
  1 <= d <= DaysInMonth (i / 12) (i mod 12) -> 0 <= tod < msPerDay ->
  let t := MakeDate (monthStart i + d - 1) tod in
  monthIndex t = i /\ DateFromTime t = d /\ TimeWithinDay t = tod.
Proof.
  intros Hd Ht t. destruct (Day_MakeDate (monthStart i + d - 1) tod Ht) as [D T].
  fold t in D, T.
  assert (monthIndex t = i) as I.
  { apply monthIndex_unique. rewrite monthStart_succ, D. lia. }
  rewrite DateFromTime_eq, I, D. repeat split; auto; lia.
Qed.

Lemma WeekDay_add t k : WeekDay (t + k * msPerDay) = (WeekDay t + k) mod 7.
Proof.
  unfold WeekDay, Day. rewrite Z.div_add by (rewrite msPerDay_eq; lia).
  replace (t / msPerDay + k + 4) with (t / msPerDay + 4 + k) by lia.
  rewrite Zplus_mod_idemp_l. reflexivity.
Qed.

Lemma WeekDay_range t : 0 <= WeekDay t <= 6.
Proof. unfold WeekDay. Z.div_mod_to_equations. lia. Qed.

End Civil.

Section DateMethods.

Lemma TimeClip_inRange t : inRange t -> TimeClip t = Num t.
Proof.
  unfold inRange, TimeClip. intros H.
  destruct (Z.ltb_spec maxTimeValue (Z.abs t)); [lia | reflexivity].
Qed.

Lemma setDate_eq t n :
  DateObj.setDate (Num t) (Num n) =
  TimeClip (MakeDate (monthStart (monthIndex t) + n - 1) (TimeWithinDay t)).
Proof.
  unfold DateObj.setDate. rewrite MakeDay_monthStart. reflexivity.
Qed.

Lemma setDate_add t k :
  DateObj.setDate (Num t) (JS.add (DateObj.getDate (Num t)) (Num k)) =
  TimeClip (t + k * msPerDay).
Proof.
  cbn [DateObj.getDate DateObj.lift JS.add]. rewrite setDate_eq.
  rewrite DateFromTime_eq. f_equal. unfold MakeDate.
  pose proof (Day_TimeWithinDay t). lia.
Qed.

Lemma setMonth_add t k :
  DateObj.setMonth (Num t) (JS.add (DateObj.getMonth (Num t)) (Num k)) =
  TimeClip (t + (monthStart (monthIndex t + k) - monthStart (monthIndex t))
                * msPerDay).
Proof.
  cbn [DateObj.getMonth DateObj.lift JS.add]. unfold DateObj.setMonth.
  rewrite MakeDay_monthStart, DateFromTime_eq. f_equal. unfold MakeDate.
  replace (12 * YearFromTime t + (MonthFromTime t + k)) with (monthIndex t + k)
    by (unfold monthIndex; lia).
  pose proof (Day_TimeWithinDay t). lia.
Qed.

End DateMethods.

Section NextOccurrence.

Lemma advance_eq freq t :
  advanceByFrequency freq (Num t) = TimeClip (t + baseDays freq t * msPerDay).
Proof.
  unfold advanceByFrequency, baseDays.
  repeat match goal with
         | |- context [if String.eqb ?a ?b then _ else _] =>
             destruct (String.eqb a b)
         end;
    first [ apply setDate_add | apply setMonth_add ].
Qed.

Lemma baseDays_range freq t : 1 <= baseDays freq t <= 93.
Proof.
  unfold baseDays.
  pose proof (monthStart_le (monthIndex t) (monthIndex t + 1)).
  pose proof (monthStart_le (monthIndex t) (monthIndex t + 3)).
  pose proof (monthStart_upper (monthIndex t) (monthIndex t + 1)).
  pose proof (monthStart_upper (monthIndex t) (monthIndex t + 3)).
  repeat match goal with
         | |- context [if String.eqb ?a ?b then _ else _] =>
             destruct (String.eqb a b)
         end; lia.
Qed.

(** Steps the day-of-week loop takes from a date of time value [t]. *)
Lemma searchSteps_range dow t : 0 <= (dow - WeekDay t) mod 7 <= 6.
Proof. Z.div_mod_to_equations. lia. Qed.

Lemma searchSteps_zero dow t :
  0 <= dow <= 6 -> ((dow - WeekDay t) mod 7 = 0 <-> WeekDay t = dow).
Proof.
  intros H. pose proof (WeekDay_range t). split; intros E.
  - Z.div_mod_to_equations. lia.
  - rewrite E, Z.sub_diag. reflexivity.
Qed.

Lemma searchSteps_succ dow t :
  0 <= dow <= 6 -> WeekDay t <> dow ->
  (dow - WeekDay (t + 1 * msPerDay)) mod 7 = (dow - WeekDay t) mod 7 - 1.
Proof.
  intros H N. rewrite WeekDay_add. pose proof (WeekDay_range t).
  Z.div_mod_to_equations. lia.
Qed.

(** For a [dayOfWeek] outside 0..6 the loop condition never turns false:
    no amount of fuel lets the loop exit. *)
Lemma dayOfWeekSearch_never_exits dow fuel :
  ~ 0 <= dow <= 6 -> forall d, dayOfWeekSearch fuel dow d = None.
Proof.
  intros H. induction fuel as [| fuel IH]; intros [| t];
    cbn [dayOfWeekSearch DateObj.getDay DateObj.lift JS.strictNeq];
    try reflexivity; try apply IH;
    pose proof (WeekDay_range t);
    (destruct (Z.eqb_spec (WeekDay t) dow) as [E | _]; [lia | cbn [negb]]);
    [reflexivity | apply IH].
Qed.

(** With enough fuel the loop stops on the first day, from [t] on, whose
    weekday is [dow]. *)
Lemma dayOfWeekSearch_enough dow fuel : 0 <= dow <= 6 ->
  forall t,
    inRange t -> inRange (t + (dow - WeekDay t) mod 7 * msPerDay) ->
    (dow - WeekDay t) mod 7 <= Z.of_nat fuel ->
    dayOfWeekSearch fuel dow (Num t)
    = Some (Num (t + (dow - WeekDay t) mod 7 * msPerDay)).
Proof.
  intros Hd. induction fuel as [| fuel IH]; intros t Rt Rk Hk;
    pose proof (searchSteps_range dow t) as Hr;
    pose proof (searchSteps_zero dow t Hd) as Hz;
    cbn [dayOfWeekSearch DateObj.getDay DateObj.lift JS.strictNeq];
    destruct (Z.eqb_spec (WeekDay t) dow) as [E | N]; cbn [negb].
  - rewrite (proj2 Hz E). do 2 f_equal. lia.
  - exfalso. apply N, Hz. lia.
  - rewrite (proj2 Hz E). do 2 f_equal. lia.
  - pose proof (searchSteps_succ dow t Hd N) as Hs.
    assert (0 < (dow - WeekDay t) mod 7) as Hp by lia.
    rewrite setDate_add.
    assert (inRange (t + 1 * msPerDay)) as R1.
    { unfold inRange in *. rewrite msPerDay_eq in *. lia. }
    rewrite TimeClip_inRange by exact R1.
    rewrite IH; [ | exact R1 | | ].
    + rewrite Hs. do 2 f_equal. lia.
    + rewrite Hs. unfold inRange in *. rewrite msPerDay_eq in *. lia.
    + lia.
Qed.

Lemma monthIndex_ge t i : monthStart i <= Day t -> i <= monthIndex t.
Proof.
  intros H. pose proof (monthStart_index t) as G.
  destruct (Z.le_gt_cases i (monthIndex t)) as [L | L]; auto.
  pose proof (monthStart_le (monthIndex t + 1) i). lia.
Qed.

(** [maxDay], line 842: the length of the month of the working date, in
    the year the [Date] constructor takes. *)
Lemma maxDay_eq t :
  -100000000 <= Day t <= 100000000 - 30 ->
  DateObj.getDate
    (DateObj.fromYMD (DateObj.getFullYear (Num t))
       (JS.add (DateObj.getMonth (Num t)) (Num 1)) (Num 0))
  = Num (DaysInMonth (MakeFullYear (YearFromTime t)) (MonthFromTime t)).
Proof.
  intros R.
  cbn [DateObj.getFullYear DateObj.getMonth DateObj.lift JS.add DateObj.fromYMD].
  set (yr := MakeFullYear (YearFromTime t)). set (m := MonthFromTime t).
  pose proof (MonthFromTime_range t) as Hm. fold m in Hm.
  set (i := 12 * yr + m).
  assert (i / 12 = yr /\ i mod 12 = m) as [Iy Im]
    by (subst i; Z.div_mod_to_equations; lia).
  pose proof (DaysInMonth_range yr m) as Hl.
  rewrite MakeDay_monthStart.
  replace (12 * yr + (m + 1)) with (i + 1) by (subst i; lia).
  rewrite monthStart_succ, Iy, Im.
  change (MakeTime 0 0 0 0) with 0.
  replace (monthStart i + DaysInMonth yr m + 0 - 1)
    with (monthStart i + DaysInMonth yr m - 1) by lia.
  assert (0 <= 0 < msPerDay) as H0 by (rewrite msPerDay_eq; lia).
  assert (1 <= DaysInMonth yr m <= DaysInMonth (i / 12) (i mod 12)) as Hd
    by (rewrite Iy, Im; lia).
  destruct (civil_of_MakeDate i (DaysInMonth yr m) 0 Hd H0) as (_ & D & _).
  rewrite TimeClip_inRange; [cbn [DateObj.getDate DateObj.lift]; now rewrite D|].
  assert (-100000000 <= monthStart i + DaysInMonth yr m - 1 <= 100000000) as B.
  { assert (yr = YearFromTime t \/ 1900 <= yr <= 1999) as [E | E].
    { subst yr. unfold MakeFullYear.
      destruct (Z.leb_spec 0 (YearFromTime t)); cbn [andb]; auto.
      destruct (Z.leb_spec (YearFromTime t) 99); [right; lia | now left]. }
    - pose proof (monthStart_index t) as G. rewrite monthStart_succ in G.
      rewrite monthIndex_div, monthIndex_mod in G.
      replace i with (monthIndex t) by (subst i; unfold monthIndex; lia).
      rewrite E. fold m. fold m in G.
      pose proof (DaysInMonth_range (YearFromTime t) m). lia.
    - pose proof (monthStart_le (12 * 1900) i).
      pose proof (monthStart_le i (12 * 2000)).
      assert (monthStart (12 * 1900) = -25567) by reflexivity.
      assert (monthStart (12 * 2000) = 10957) by reflexivity.
      subst i. lia. }
  unfold inRange, MakeDate, maxTimeValue. rewrite msPerDay_eq. lia.
Qed.

Lemma applyDayOfMonth_eq r t dom :
  truthyDayOfMonth r = Some dom ->
  String.eqb (frequency r) "monthly" || String.eqb (frequency r) "quarterly"
    = true ->
  -100000000 <= Day t <= 100000000 - 30 ->
  applyDayOfMonth r (Num t) =
  TimeClip (MakeDate (monthStart (monthIndex t)
                      + Z.min dom (DaysInMonth (MakeFullYear (YearFromTime t))
                                               (MonthFromTime t)) - 1)
                     (TimeWithinDay t)).
Proof.
  intros Hd Hf R. unfold applyDayOfMonth. rewrite Hd, Hf.
  rewrite maxDay_eq by assumption. cbn [JS.min]. apply setDate_eq.
Qed.

Lemma applyDayOfMonth_skip r d :
  truthyDayOfMonth r = None \/
  String.eqb (frequency r) "monthly" || String.eqb (frequency r) "quarterly"
    = false ->
  applyDayOfMonth r d = d.
Proof.
  unfold applyDayOfMonth. intros [H | H]; rewrite H; auto.
  destruct (truthyDayOfMonth r); reflexivity.
Qed.

Lemma MakeDate_inRange d tod :
  -100000000 <= d < 100000000 -> 0 <= tod < msPerDay ->
  inRange (MakeDate d tod).
Proof.
  unfold inRange, MakeDate, maxTimeValue. rewrite msPerDay_eq. lia.
Qed.

Lemma inRange_of_Day t : -100000000 <= Day t < 100000000 -> inRange t.
Proof.
  intros H. pose proof (Day_TimeWithinDay t) as [E T]. rewrite E.
  now apply MakeDate_inRange.
Qed.

Lemma Day_add t k : Day (t + k * msPerDay) = Day t + k.
Proof. unfold Day. apply Z.div_add. rewrite msPerDay_eq; lia. Qed.

Lemma Day_lastStart t : inRange t -> t <= lastStart ->
  -100000000 <= Day t <= 100000000 - 130.
Proof.
  unfold inRange, lastStart, Day, maxTimeValue. rewrite msPerDay_eq.
  intros. Z.div_mod_to_equations. lia.
Qed.

Lemma Day_mono t t' : t <= t' -> Day t <= Day t'.
Proof. unfold Day. apply Z.div_le_mono. rewrite msPerDay_eq; lia. Qed.

Lemma lt_of_Day_lt t t' : Day t < Day t' -> t < t'.
Proof.
  intros H. destruct (Z.lt_ge_cases t t') as [L | L]; auto.
  apply Day_mono in L. lia.
Qed.

Lemma applyTimeOfDay_valid r t :
  validTimeOfDay r = true -> -100000000 <= Day t < 100000000 ->
  exists t', applyTimeOfDay r (Num t) = Num t' /\ Day t' = Day t /\
             (t' = t \/ timeOfDay r <> None).
Proof.
  unfold validTimeOfDay, applyTimeOfDay. intros V R.
  destruct (timeOfDay r) as [s |]; [| exists t; auto].
  destruct (String.eqb s ""); [exists t; auto |].
  destruct (map Str.toNumber (Str.split ":" s)) as [| [| h] [| [| m] [| ? ?]]];
    try discriminate.
  cbn [element nth DateObj.setHours].
  apply andb_prop in V. destruct V as [V Vm2]. apply andb_prop in V.
  destruct V as [V Vm1]. apply andb_prop in V. destruct V as [Vh1 Vh2].
  apply Z.leb_le in Vh1, Vh2, Vm1, Vm2.
  assert (0 <= MakeTime h m 0 0 < msPerDay) as Hm.
  { unfold MakeTime, msPerHour, msPerMinute, msPerSecond. rewrite msPerDay_eq. lia. }
  destruct (Day_MakeDate (Day t) _ Hm) as [D T].
  exists (MakeDate (Day t) (MakeTime h m 0 0)). split; [| split; [exact D |]].
  - apply TimeClip_inRange. now apply MakeDate_inRange.
  - right. discriminate.
Qed.

Lemma applyDayOfWeek_valid r fuel t :
  validDayOfWeek r = true -> (6 <= fuel)%nat ->
  -100000000 <= Day t < 100000000 - 6 ->
  exists k, 0 <= k <= 6 /\
    applyDayOfWeek fuel r (Num t) = Some (Num (t + k * msPerDay)).
Proof.
  unfold validDayOfWeek, applyDayOfWeek. intros V F R.
  assert (Num t = Num (t + 0 * msPerDay)) as E0 by (f_equal; lia).
  destruct (dayOfWeek r) as [dow |]; [| exists 0; split; [lia | now f_equal]].
  destruct (negb (String.eqb (frequency r) "daily"));
    [| exists 0; split; [lia | now f_equal]].
  apply andb_prop in V. destruct V as [V1 V2]. apply Z.leb_le in V1, V2.
  pose proof (searchSteps_range dow t) as Hk.
  exists ((dow - WeekDay t) mod 7). split; [exact Hk |].
  apply dayOfWeekSearch_enough; try lia.
  - apply inRange_of_Day. lia.
  - apply inRange_of_Day. rewrite Day_add. lia.
Qed.

(** The computation step by step, for a rule within the schema's bounds:
    [w] is the working date after the frequency switch and the day-of-week
    loop, [w'] after the day-of-month step, [next] the result. *)
Lemma computeNextOccurrence_steps r fuel start :
  validRule r = true -> (6 <= fuel)%nat ->
  inRange start -> start <= lastStart ->
  exists k w' next,
    let w := start + baseDays (frequency r) start * msPerDay + k * msPerDay in
    0 <= k <= 6 /\
    applyDayOfWeek fuel r (advanceByFrequency (frequency r) (Num start))
      = Some (Num w) /\
    applyDayOfMonth r (Num w) = Num w' /\
    applyTimeOfDay r (Num w') = Num next /\
    computeNextOccurrence fuel r (Num start) = Some (Num next) /\
    Day next = Day w' /\
    Day start < Day w' <= Day start + 129 /\
    (forall dom,
        truthyDayOfMonth r = Some dom ->
        String.eqb (frequency r) "monthly"
        || String.eqb (frequency r) "quarterly" = true ->
        w' = MakeDate (monthStart (monthIndex w)
                       + Z.min dom (DaysInMonth (MakeFullYear (YearFromTime w))
                                                (MonthFromTime w)) - 1)
                      (TimeWithinDay w)).
Proof.
  unfold validRule. intros V F R L.
  apply andb_prop in V. destruct V as [V Vt]. apply andb_prop in V.
  destruct V as [Vw Vm].
  pose proof (Day_lastStart start R L) as DS. clear R L.
  pose proof (baseDays_range (frequency r) start) as Hb.
  unfold computeNextOccurrence. rewrite advance_eq.
  assert (String.eqb (frequency r) "monthly"
          || String.eqb (frequency r) "quarterly" = true ->
          monthStart (monthIndex start + 1)
          <= Day start + baseDays (frequency r) start) as Hmq.
  { intros Hf. pose proof (monthStart_index start) as Is.
    pose proof (monthStart_le (monthIndex start + 1) (monthIndex start + 3)).
    unfold baseDays.
    apply orb_prop in Hf. destruct Hf as [Hf | Hf];
      apply String.eqb_eq in Hf; rewrite Hf;
      cbn [String.eqb Ascii.eqb Bool.eqb]; lia. }
  pose proof (monthStart_index start) as Is.
  set (b := baseDays (frequency r) start) in *. clearbody b.
  rewrite TimeClip_inRange by (apply inRange_of_Day; rewrite Day_add; lia).
  destruct (applyDayOfWeek_valid r fuel (start + b * msPerDay) Vw F)
    as (k & Hk & ->); [rewrite Day_add; lia |].
  exists k. cbv zeta.
  set (w := start + b * msPerDay + k * msPerDay).
  assert (Day w = Day start + b + k) as D2
    by (unfold w; now rewrite !Day_add).
  clearbody w.
  assert (exists w', applyDayOfMonth r (Num w) = Num w' /\
            Day start < Day w' <= Day start + 129 /\
            (forall dom,
                truthyDayOfMonth r = Some dom ->
                String.eqb (frequency r) "monthly"
                || String.eqb (frequency r) "quarterly" = true ->
                w' = MakeDate (monthStart (monthIndex w)
                       + Z.min dom (DaysInMonth (MakeFullYear (YearFromTime w))
                                                (MonthFromTime w)) - 1)
                      (TimeWithinDay w)))
    as (w' & E3 & D3 & C3).
  { destruct (truthyDayOfMonth r) as [dom |] eqn:Hd;
      [destruct (String.eqb (frequency r) "monthly"
                 || String.eqb (frequency r) "quarterly") eqn:Hf |].
    - rewrite (applyDayOfMonth_eq r w dom Hd Hf) by lia.
      pose proof (DaysInMonth_range (MakeFullYear (YearFromTime w))
                    (MonthFromTime w)) as Hlen.
      set (len := DaysInMonth _ _) in *. clearbody len.
      assert (1 <= dom) as Hdom.
      { unfold truthyDayOfMonth, validDayOfMonth in *.
        destruct (dayOfMonth r) as [d |]; [| discriminate].
        destruct (d =? 0); [discriminate |]. injection Hd as <-.
        apply andb_prop in Vm. destruct Vm as [Vm _]. now apply Z.leb_le. }
      pose proof (monthStart_index w) as I2.
      assert (monthStart (monthIndex start + 1) <= Day w) as G
        by (specialize (Hmq eq_refl); lia).
      apply monthIndex_ge in G. pose proof (monthStart_le _ _ G) as G'.
      pose proof (Day_TimeWithinDay w) as [_ T2].
      destruct (Day_MakeDate (monthStart (monthIndex w) + Z.min dom len - 1)
                  _ T2) as [D _].
      assert (Day start < monthStart (monthIndex w) + Z.min dom len - 1
              <= Day start + 129) as B by lia.
      eexists. split; [| split].
      + apply TimeClip_inRange, MakeDate_inRange; [lia | exact T2].
      + rewrite D. exact B.
      + intros dom' Hd' _. injection Hd' as <-. reflexivity.
    - rewrite applyDayOfMonth_skip by (right; exact Hf).
      exists w. split; [reflexivity | split; [lia | discriminate]].
    - rewrite applyDayOfMonth_skip by (left; exact Hd).
      exists w. split; [reflexivity | split; [lia | discriminate]]. }
  destruct (applyTimeOfDay_valid r w' Vt) as (next & E4 & D4 & _); [lia |].
  exists w', next. rewrite E3, E4. repeat split; auto; lia.
Qed.

(** The next occurrence exists and lies on a later day than [start]. *)
Lemma computeNextOccurrence_later r fuel start :
  validRule r = true -> (6 <= fuel)%nat ->
  inRange start -> start <= lastStart ->
  exists next,
    computeNextOccurrence fuel r (Num start) = Some (Num next) /\
    Day start < Day next <= Day start + 129.
Proof.
  intros V F R L.
  destruct (computeNextOccurrence_steps r fuel start V F R L)
    as (k & w' & next & _ & _ & _ & _ & E & D & B & _).
  exists next. split; [exact E | lia].
Qed.

(** The next occurrence is later than the clock reading it starts from,
    and than every instant before that reading. *)
Lemma computeNextOccurrence_after r fuel now start :
  validRule r = true -> (6 <= fuel)%nat ->
  inRange now -> now <= start -> start <= lastStart ->
  exists next,
    computeNextOccurrence fuel r (Num start) = Some (Num next) /\
    now < next /\ start < next.
Proof.
  intros V F R Hs L.
  assert (lastStart <= maxTimeValue) as Hl by (vm_compute; discriminate).
  assert (inRange start) as R' by (unfold inRange in *; lia).
  destruct (computeNextOccurrence_later r fuel start V F R' L) as (next & E & D).
  exists next. split; [exact E |].
  assert (start < next) by (apply lt_of_Day_lt; lia). lia.
Qed.

End NextOccurrence.

(** * The next-occurrence computation *)

Section Claims_NextOccurrence.

Lemma civil_of_Day t t' : Day t = Day t' ->
  YearFromTime t = YearFromTime t' /\ MonthFromTime t = MonthFromTime t' /\
  DateFromTime t = DateFromTime t' /\ WeekDay t = WeekDay t'.
Proof.
  intros H.
  assert (YearFromTime t = YearFromTime t') as Y
    by (unfold YearFromTime; now rewrite H).
  assert (MonthFromTime t = MonthFromTime t') as M
    by (unfold MonthFromTime, DayWithinYear, InLeapYear; now rewrite H, Y).
  repeat split; auto.
  - unfold DateFromTime, DayWithinYear, InLeapYear. now rewrite H, Y, M.
  - unfold WeekDay. now rewrite H.
Qed.

(** C1.  For every rule within the schema's bounds (any frequency, the five
    of the schema included; [dayOfWeek] in 0..6, [dayOfMonth] in 1..31, a
    valid [timeOfDay], each possibly unset) and every reference instant
    [now], the computation started at the clock reading [start] taken at
    or after [now] returns a timestamp strictly greater than [now] (and
    than [start]).  Six turns of the day-of-week loop are enough.  The
    instants are those a [Date] can hold, the last 130 days of year 275760
    apart, where adding a quarter leaves the range. *)
Theorem next_occurrence_after_now (r : Recurring) (fuel : nat) (now start : Z) :
  validRule r = true -> (6 <= fuel)%nat ->
  inRange now -> now <= start -> start <= lastStart ->
  exists next,
    computeNextOccurrence fuel r (Num start) = Some (Num next) /\
    now < next /\ start < next.
Proof. apply computeNextOccurrence_after. Qed.

Lemma next_occurrence_after_now_witness :
  exists next,
    computeNextOccurrence 7 (rule "monthly" (Some 3) (Some 31) (Some "09:00"))
      (Num 1706659200005) = Some (Num next) /\
    1706659200000 < next /\ 1706659200005 < next.
Proof.
  apply (next_occurrence_after_now
           (rule "monthly" (Some 3) (Some 31) (Some "09:00")) 7
           1706659200000 1706659200005).
  - reflexivity.
  - lia.
  - unfold inRange, maxTimeValue. lia.
  - lia.
  - unfold lastStart, maxTimeValue, msPerDay. lia.
Defined.

(** The base interval, where it is a fixed number of days. *)
Lemma advance_fixed_days t :
  -100000000 <= Day t < 100000000 - 14 ->
  advanceByFrequency "daily" (Num t) = Num (t + 1 * msPerDay) /\
  advanceByFrequency "weekly" (Num t) = Num (t + 7 * msPerDay) /\
  advanceByFrequency "biweekly" (Num t) = Num (t + 14 * msPerDay).
Proof.
  intros R. rewrite !advance_eq.
  change (baseDays "daily" t) with 1. change (baseDays "weekly" t) with 7.
  change (baseDays "biweekly" t) with 14.
  rewrite !TimeClip_inRange by (apply inRange_of_Day; rewrite Day_add; lia).
  auto.
Qed.

(** The base interval in months, from a day of the month that the target
    month has: same day of the month, [k] months later ([k] = 1 for
    monthly, 3 for quarterly). *)
Lemma advance_months_same_day freq k t :
  (freq = "monthly" /\ k = 1) \/ (freq = "quarterly" /\ k = 3) ->
  -100000000 <= Day t < 100000000 - 93 ->
  DateFromTime t <= DaysInMonth ((monthIndex t + k) / 12)
                                ((monthIndex t + k) mod 12) ->
  exists t', advanceByFrequency freq (Num t) = Num t' /\
             monthIndex t' = monthIndex t + k /\
             DateFromTime t' = DateFromTime t /\
             TimeWithinDay t' = TimeWithinDay t.
Proof.
  intros Hk R Hd. rewrite advance_eq.
  assert (baseDays freq t
          = monthStart (monthIndex t + k) - monthStart (monthIndex t)) as ->
    by (destruct Hk as [[-> ->] | [-> ->]]; reflexivity).
  pose proof (monthStart_le (monthIndex t) (monthIndex t + k)).
  pose proof (monthStart_upper (monthIndex t) (monthIndex t + k)).
  assert (1 <= k <= 3) by (destruct Hk as [[_ ->] | [_ ->]]; lia).
  rewrite TimeClip_inRange by (apply inRange_of_Day; rewrite Day_add; lia).
  eexists. split; [reflexivity |].
  pose proof (Day_TimeWithinDay t) as [E T].
  pose proof (DateFromTime_range t) as Dr. pose proof (DateFromTime_eq t) as De.
  assert (1 <= DateFromTime t <= DaysInMonth ((monthIndex t + k) / 12)
                                             ((monthIndex t + k) mod 12))
    as Hd' by lia.
  pose proof (civil_of_MakeDate (monthIndex t + k) (DateFromTime t) _ Hd' T) as C.
  cbv zeta in C.
  replace (MakeDate (monthStart (monthIndex t + k) + DateFromTime t - 1)
             (TimeWithinDay t))
    with (t + (monthStart (monthIndex t + k) - monthStart (monthIndex t))
              * msPerDay) in C by (unfold MakeDate; lia).
  exact C.
Qed.

(** C2.  The base interval at the end of a month.  On 31 January 2024 the
    monthly advance, [setMonth(getMonth() + 1)], forms 31 February and so
    lands on 2 March 2024: not in the immediately following month.  The
    quarterly advance from 30 November 2023 forms 30 February 2024 and lands
    on 1 March 2024. *)
Theorem monthly_advance_overflows_short_month :
  civil (midnight 2024 1 31) = (2024, 1, 31, 3) /\
  advanceByFrequency "monthly" (Num (midnight 2024 1 31))
    = Num (midnight 2024 3 2) /\
  civil (midnight 2024 3 2) = (2024, 3, 2, 6) /\
  advanceByFrequency "quarterly" (Num (midnight 2023 11 30))
    = Num (midnight 2024 3 1) /\
  computeNextOccurrence 6 (rule "monthly" None (Some 31) (Some "09:00"))
    (Num (midnight 2024 1 31))
    = Some (Num (midnight 2024 3 31 + 9 * msPerHour)).
Proof. vm_compute. repeat split; reflexivity. Qed.

Lemma year_from_1970 t : 0 <= Day t -> 1970 <= YearFromTime t.
Proof.
  intros H. pose proof (YearFromTime_days t) as G.
  destruct (Z.le_gt_cases 1970 (YearFromTime t)) as [L | L]; auto.
  assert (YearFromTime t + 1 <= 1970) as L' by lia.
  assert (DayFromYear 1970 = 0) as E by reflexivity.
  apply Z.le_lteq in L'. destruct L' as [L' | L'].
  - apply DayFromYear_lt in L'. lia.
  - rewrite L' in G. lia.
Qed.

Lemma MakeFullYear_from_1970 t : 0 <= Day t ->
  MakeFullYear (YearFromTime t) = YearFromTime t.
Proof.
  intros H. apply year_from_1970 in H. unfold MakeFullYear.
  destruct (Z.leb_spec (YearFromTime t) 99); [lia |].
  now rewrite andb_false_r.
Qed.

Lemma monthIndex_at t d i :
  Day t = d -> monthIndex (d * msPerDay) = i -> monthIndex t = i.
Proof.
  intros H <-. unfold monthIndex.
  assert (Day t = Day (d * msPerDay)) as E.
  { rewrite H. unfold Day. symmetry. apply Z.div_mul. rewrite msPerDay_eq; lia. }
  destruct (civil_of_Day _ _ E) as (-> & -> & _). reflexivity.
Qed.

Lemma applyTimeOfDay_0900 r t :
  timeOfDay r = Some "09:00" ->
  applyTimeOfDay r (Num t) = TimeClip (MakeDate (Day t) (9 * msPerHour)).
Proof. unfold applyTimeOfDay. intros ->. reflexivity. Qed.

(** The rule of the first end-to-end scenario at any instant of
    15 January 2024. *)
Lemma scenario_monthly_31 fuel start :
  Day start = Day (midnight 2024 1 15) ->
  computeNextOccurrence fuel (rule "monthly" None (Some 31) (Some "09:00"))
    (Num start) = Some (Num (midnight 2024 2 29 + 9 * msPerHour)).
Proof.
  change (Day (midnight 2024 1 15)) with 19737. intros H.
  unfold computeNextOccurrence, applyDayOfWeek.
  cbn [dayOfWeek rule frequency]. rewrite advance_eq.
  change (baseDays "monthly" start)
    with (monthStart (monthIndex start + 1) - monthStart (monthIndex start)).
  rewrite (monthIndex_at start 19737 24288 H eq_refl).
  change (monthStart (24288 + 1) - monthStart 24288) with 31.
  rewrite TimeClip_inRange by (apply inRange_of_Day; rewrite Day_add; lia).
  set (w := start + 31 * msPerDay).
  assert (Day w = 19768) as Dw by (unfold w; rewrite Day_add; lia).
  rewrite (applyDayOfMonth_eq _ w 31) by (reflexivity || lia).
  rewrite MakeFullYear_from_1970 by lia.
  pose proof (monthIndex_at w 19768 24289 Dw eq_refl) as Iw.
  rewrite Iw, <- (monthIndex_div w), <- (monthIndex_mod w), Iw.
  change (monthStart 24289 + Z.min 31 (DaysInMonth (24289 / 12) (24289 mod 12)) - 1)
    with 19782.
  pose proof (Day_TimeWithinDay w) as [_ T].
  destruct (Day_MakeDate 19782 _ T) as [D _].
  rewrite TimeClip_inRange by (apply MakeDate_inRange; [lia | exact T]).
  rewrite applyTimeOfDay_0900 by reflexivity. rewrite D.
  rewrite TimeClip_inRange by (apply MakeDate_inRange; [lia | rewrite msPerDay_eq; unfold msPerHour; lia]).
  reflexivity.
Qed.

(** C3.  For every rule with [dayOfMonth] set (1..31) and frequency monthly
    or quarterly, the result keeps the year and month of the working date
    [w] (the date after the frequency switch and the day-of-week step) and
    has day of the month min(dayOfMonth, length of that month); so 31 gives
    30 in April, June, September and November, 28 in February of a common
    year and 29 in February of a leap year.  The rule
    [{monthly, dayOfMonth 31, timeOfDay "09:00"}] at any instant of
    15 January 2024 gives 29 February 2024 at 09:00.  Clock readings are
    taken from the epoch on. *)
Theorem day_of_month_clamp (r : Recurring) (fuel : nat) (start dom : Z) :
  validRule r = true -> (6 <= fuel)%nat ->
  dayOfMonth r = Some dom ->
  frequency r = "monthly" \/ frequency r = "quarterly" ->
  0 <= start -> start <= lastStart ->
  (exists w next,
      applyDayOfWeek fuel r (advanceByFrequency (frequency r) (Num start))
        = Some (Num w) /\
      computeNextOccurrence fuel r (Num start) = Some (Num next) /\
      YearFromTime next = YearFromTime w /\
      MonthFromTime next = MonthFromTime w /\
      DateFromTime next
        = Z.min dom (DaysInMonth (YearFromTime w) (MonthFromTime w)) /\
      (dom = 31 ->
       (MonthFromTime w = 3 \/ MonthFromTime w = 5 \/ MonthFromTime w = 8
        \/ MonthFromTime w = 10 -> DateFromTime next = 30) /\
       (MonthFromTime w = 1 -> DaysInYear (YearFromTime w) = 365 ->
        DateFromTime next = 28) /\
       (MonthFromTime w = 1 -> DaysInYear (YearFromTime w) = 366 ->
        DateFromTime next = 29))) /\
  (forall now,
      Day now = Day (midnight 2024 1 15) ->
      computeNextOccurrence fuel
        (rule "monthly" None (Some 31) (Some "09:00")) (Num now)
      = Some (Num (midnight 2024 2 29 + 9 * msPerHour))) /\
  civil (midnight 2024 2 29 + 9 * msPerHour) = (2024, 2, 29, 4).
Proof.
  intros V F Hdom Hf H0 L.
  split; [| split; [intros now; apply scenario_monthly_31 | reflexivity]].
  assert (inRange start) as R
    by (unfold inRange, lastStart, maxTimeValue in *; rewrite msPerDay_eq in *; lia).
  destruct (computeNextOccurrence_steps r fuel start V F R L)
    as (k & w' & next & Hk & Ew & _ & _ & E & Dn & B & C).
  cbv zeta in *.
  set (w := start + baseDays (frequency r) start * msPerDay + k * msPerDay) in *.
  exists w, next. split; [exact Ew |]. split; [exact E |].
  assert (1 <= dom <= 31) as Hd.
  { unfold validRule, validDayOfMonth in V. rewrite Hdom in V.
    apply andb_prop in V. destruct V as [V _]. apply andb_prop in V.
    destruct V as [_ V]. apply andb_prop in V. destruct V as [V1 V2].
    apply Z.leb_le in V1, V2. lia. }
  assert (truthyDayOfMonth r = Some dom) as Ht.
  { unfold truthyDayOfMonth. rewrite Hdom.
    destruct (Z.eqb_spec dom 0); [lia | reflexivity]. }
  assert (String.eqb (frequency r) "monthly"
          || String.eqb (frequency r) "quarterly" = true) as Hf'
    by (destruct Hf as [-> | ->]; reflexivity).
  specialize (C dom Ht Hf').
  assert (0 <= Day w) as Dw.
  { pose proof (baseDays_range (frequency r) start).
    unfold w. rewrite !Day_add.
    assert (0 <= Day start) by (apply (Day_mono 0 start) in H0; exact H0). lia. }
  rewrite MakeFullYear_from_1970 in C by exact Dw.
  set (len := DaysInMonth (YearFromTime w) (MonthFromTime w)) in *.
  pose proof (DaysInMonth_range (YearFromTime w) (MonthFromTime w)) as Hl.
  fold len in Hl.
  pose proof (Day_TimeWithinDay w) as [_ T].
  assert (1 <= Z.min dom len
          <= DaysInMonth (monthIndex w / 12) (monthIndex w mod 12)) as Hm
    by (rewrite monthIndex_div, monthIndex_mod; fold len; lia).
  destruct (civil_of_MakeDate (monthIndex w) (Z.min dom len) _ Hm T)
    as (I & D & _).
  rewrite <- C in I, D.
  destruct (civil_of_Day next w' Dn) as (Y1 & M1 & D1 & _).
  assert (YearFromTime w' = YearFromTime w) as Y2
    by (rewrite <- (monthIndex_div w'), I; apply monthIndex_div).
  assert (MonthFromTime w' = MonthFromTime w) as M2
    by (rewrite <- (monthIndex_mod w'), I; apply monthIndex_mod).
  assert (DateFromTime next = Z.min dom len) as Dd by congruence.
  split; [congruence |]. split; [congruence |]. split; [exact Dd |].
  intros E31. rewrite Dd, E31. subst len. unfold DaysInMonth.
  split; [| split].
  - intros [Hm' | [Hm' | [Hm' | Hm']]]; rewrite Hm'; reflexivity.
  - intros Hm' Hy. rewrite Hm', Hy. reflexivity.
  - intros Hm' Hy. rewrite Hm', Hy. reflexivity.
Qed.

Lemma day_of_month_clamp_witness :
  exists w next,
    applyDayOfWeek 6 (rule "quarterly" None (Some 31) (Some "09:00"))
      (advanceByFrequency "quarterly" (Num (midnight 2024 1 15)))
      = Some (Num w) /\
    computeNextOccurrence 6 (rule "quarterly" None (Some 31) (Some "09:00"))
      (Num (midnight 2024 1 15)) = Some (Num next) /\
    YearFromTime next = YearFromTime w /\
    MonthFromTime next = MonthFromTime w /\
    DateFromTime next
      = Z.min 31 (DaysInMonth (YearFromTime w) (MonthFromTime w)).
Proof.
  destruct (day_of_month_clamp
              (rule "quarterly" None (Some 31) (Some "09:00")) 6
              (midnight 2024 1 15) 31)
    as [(w & next & H1 & H2 & H3 & H4 & H5 & _) _].
  - reflexivity.
  - lia.
  - reflexivity.
  - right. reflexivity.
  - vm_compute. discriminate.
  - vm_compute. discriminate.
  - exists w, next. repeat split; assumption.
Defined.

(** C4.  For every rule with [dayOfWeek] set to a value in 0..6 and a
    frequency other than daily, the day-of-week step moves the working date
    [base] forward by [k] whole days, [k] at most 6 (so within 7 day-steps;
    six turns of the loop are enough fuel), to the first day from [base] on
    whose weekday is [dayOfWeek]; the result is later than [base] minus one
    day, so the step never moves backward.  Weekly with [dayOfWeek] = 3 at
    any instant [now] of Monday 3 June 2024 has base date 10 June 2024 and
    final date Wednesday 12 June 2024. *)
Theorem day_of_week_search (r : Recurring) (fuel : nat) (base dow : Z) :
  dayOfWeek r = Some dow -> 0 <= dow <= 6 -> frequency r <> "daily" ->
  (6 <= fuel)%nat -> inRange base -> base <= lastStart ->
  (exists k,
      0 <= k <= 6 /\
      applyDayOfWeek fuel r (Num base) = Some (Num (base + k * msPerDay)) /\
      WeekDay (base + k * msPerDay) = dow /\
      (forall j, 0 <= j < k -> WeekDay (base + j * msPerDay) <> dow) /\
      base - msPerDay < base + k * msPerDay) /\
  (forall now,
      Day now = Day (midnight 2024 6 3) ->
      WeekDay now = 1 /\
      advanceByFrequency "weekly" (Num now) = Num (now + 7 * msPerDay) /\
      Day (now + 7 * msPerDay) = Day (midnight 2024 6 10) /\
      computeNextOccurrence fuel (rule "weekly" (Some 3) None None) (Num now)
        = Some (Num (now + 9 * msPerDay)) /\
      Day (now + 9 * msPerDay) = Day (midnight 2024 6 12) /\
      WeekDay (now + 9 * msPerDay) = 3).
Proof.
  intros Hdow Hr Hf F R L.
  pose proof (Day_lastStart base R L) as DS.
  pose proof (searchSteps_range dow base) as Hk.
  split.
  - exists ((dow - WeekDay base) mod 7).
    set (k := (dow - WeekDay base) mod 7) in *.
    split; [exact Hk |]. split; [| split; [| split]].
    + unfold applyDayOfWeek. rewrite Hdow.
      destruct (String.eqb_spec (frequency r) "daily") as [E | _];
        [contradiction | cbn [negb]].
      apply dayOfWeekSearch_enough; auto; [| lia].
      apply inRange_of_Day. rewrite Day_add. lia.
    + rewrite WeekDay_add. pose proof (WeekDay_range base). subst k.
      Z.div_mod_to_equations. lia.
    + intros j Hj. rewrite WeekDay_add. pose proof (WeekDay_range base).
      subst k. Z.div_mod_to_equations. lia.
    + rewrite msPerDay_eq. lia.
  - change (Day (midnight 2024 6 3)) with 19877.
    change (Day (midnight 2024 6 10)) with 19884.
    change (Day (midnight 2024 6 12)) with 19886.
    intros now Hn.
    assert (WeekDay now = 1) as W by (unfold WeekDay; rewrite Hn; reflexivity).
    assert (advanceByFrequency "weekly" (Num now) = Num (now + 7 * msPerDay))
      as A by (apply advance_fixed_days; lia).
    split; [exact W |]. split; [exact A |].
    split; [rewrite Day_add; lia |]. split; [| split].
    + unfold computeNextOccurrence, applyDayOfWeek.
      cbn [dayOfWeek rule frequency String.eqb Ascii.eqb Bool.eqb negb].
      rewrite A.
      rewrite (dayOfWeekSearch_enough 3 fuel);
        [ | lia | apply inRange_of_Day; rewrite Day_add; lia | | ];
        rewrite WeekDay_add, W; change ((3 - (1 + 7) mod 7) mod 7) with 2.
      * rewrite applyDayOfMonth_skip by (left; reflexivity).
        unfold applyTimeOfDay. cbn [timeOfDay rule]. do 2 f_equal. lia.
      * apply inRange_of_Day. rewrite !Day_add. lia.
      * lia.
    + rewrite Day_add. lia.
    + rewrite WeekDay_add, W. reflexivity.
Qed.

Lemma day_of_week_search_witness :
  exists k,
    0 <= k <= 6 /\
    applyDayOfWeek 6 (rule "weekly" (Some 3) None None)
      (Num (midnight 2024 6 10)) = Some (Num (midnight 2024 6 10 + k * msPerDay))
    /\ WeekDay (midnight 2024 6 10 + k * msPerDay) = 3.
Proof.
  destruct (day_of_week_search (rule "weekly" (Some 3) None None) 6
              (midnight 2024 6 10) 3)
    as [(k & H1 & H2 & H3 & _) _].
  - reflexivity.
  - lia.
  - discriminate.
  - lia.
  - unfold inRange. vm_compute. split; discriminate.
  - vm_compute. discriminate.
  - exists k. repeat split; assumption || apply H1.
Defined.

(** C5, as the code has it.  For a frequency that is none of the five, the
    computation returns what it returns for the same rule with frequency
    monthly and [dayOfMonth] unset: the base interval falls back to one
    month and the day-of-week step applies, but the day-of-month step, which
    is guarded by frequency monthly or quarterly, does not.  So the rule
    behaves as monthly exactly when the monthly rule's day-of-month step
    changes nothing, in particular when [dayOfMonth] is unset. *)
Theorem unrecognized_frequency_as_monthly
    (r : Recurring) (fuel : nat) (now : Date) :
  recognized (frequency r) = false ->
  computeNextOccurrence fuel r now
  = computeNextOccurrence fuel (withoutDayOfMonth (withFrequency r "monthly"))
      now /\
  (dayOfMonth r = None ->
   computeNextOccurrence fuel r now
   = computeNextOccurrence fuel (withFrequency r "monthly") now).
Proof.
  unfold recognized. intros H.
  repeat (apply orb_false_elim in H; destruct H as [H ?]).
  assert (advanceByFrequency (frequency r) now = advanceByFrequency "monthly" now)
    as A.
  { unfold advanceByFrequency.
    repeat match goal with E : String.eqb _ _ = false |- _ => rewrite E; clear E end.
    reflexivity. }
  assert (forall d r', dayOfWeek r' = dayOfWeek r -> frequency r' = "monthly" ->
                       applyDayOfWeek fuel r d = applyDayOfWeek fuel r' d) as W.
  { intros d r' E1 E2. unfold applyDayOfWeek. rewrite E1, E2.
    replace (String.eqb (frequency r) "daily") with false by (symmetry; assumption).
    reflexivity. }
  assert (forall d, applyDayOfMonth r d = d) as Mo.
  { intros d. apply applyDayOfMonth_skip. right.
    apply orb_false_intro; assumption. }
  split.
  - unfold computeNextOccurrence.
    cbn [frequency withoutDayOfMonth withFrequency].
    rewrite A, (W _ (withoutDayOfMonth (withFrequency r "monthly")))
      by reflexivity.
    destruct (applyDayOfWeek _ _ _); [| reflexivity].
    rewrite Mo, applyDayOfMonth_skip by (left; reflexivity). reflexivity.
  - intros Hd. unfold computeNextOccurrence. cbn [frequency withFrequency].
    rewrite A, (W _ (withFrequency r "monthly")) by reflexivity.
    destruct (applyDayOfWeek _ _ _); [| reflexivity].
    rewrite Mo, applyDayOfMonth_skip; [reflexivity |].
    left. unfold truthyDayOfMonth. cbn [dayOfMonth withFrequency].
    now rewrite Hd.
Qed.

Lemma unrecognized_frequency_as_monthly_witness :
  computeNextOccurrence 6 (rule "yearly" None (Some 1) None)
    (Num (midnight 2024 1 15))
  = computeNextOccurrence 6
      (withoutDayOfMonth (withFrequency (rule "yearly" None (Some 1) None)
                                        "monthly"))
      (Num (midnight 2024 1 15)).
Proof.
  apply (unrecognized_frequency_as_monthly
           (rule "yearly" None (Some 1) None) 6 (Num (midnight 2024 1 15))).
  reflexivity.
Defined.

(** C5 as stated fails: with [dayOfMonth] set, the unrecognized frequency
    skips the day-of-month step that monthly applies.  On 15 January 2024,
    [{frequency "yearly", dayOfMonth 1}] gives 15 February 2024 and the same
    rule with frequency monthly gives 1 February 2024. *)
Lemma unrecognized_frequency_differs_from_monthly :
  recognized "yearly" = false /\
  computeNextOccurrence 6 (rule "yearly" None (Some 1) None)
    (Num (midnight 2024 1 15)) = Some (Num (midnight 2024 2 15)) /\
  computeNextOccurrence 6
    (withFrequency (rule "yearly" None (Some 1) None) "monthly")
    (Num (midnight 2024 1 15)) = Some (Num (midnight 2024 2 1)) /\
  ~ (forall r fuel now,
        recognized (frequency r) = false ->
        computeNextOccurrence fuel r now
        = computeNextOccurrence fuel (withFrequency r "monthly") now).
Proof.
  split; [reflexivity |]. split; [vm_compute; reflexivity |].
  split; [vm_compute; reflexivity |].
  intros H.
  specialize (H (rule "yearly" None (Some 1) None) 6%nat
                (Num (midnight 2024 1 15)) eq_refl).
  vm_compute in H. discriminate H.
Qed.

End Claims_NextOccurrence.

(** * The collaborators *)

Section Collaborators.

Lemma sameButFaults_quiet w w' : sameButFaults w w' -> quiet w w'.
Proof. unfold sameButFaults, quiet. tauto. Qed.

Lemma quiet_refl w : quiet w w.
Proof. unfold quiet. tauto. Qed.

Lemma quiet_trans w1 w2 w3 : quiet w1 w2 -> quiet w2 w3 -> quiet w1 w3.
Proof. unfold quiet. intuition congruence. Qed.

Lemma collaborator_frame w :
  match collaborator w with
  | Ret _ w' => sameButFaults w w'
  | Throw _ w' => sameButFaults w w'
  | Hang => False
  end.
Proof.
  unfold collaborator, sameButFaults.
  destruct (faults w) as [| [e |] f]; cbn; tauto.
Qed.

Lemma createCampaign_effect c w :
  exists r w',
    createCampaign c w = Ret r w' /\ quiet w w' /\
    ((success r = false /\
      message r = "Error creating campaign in Mailchimp" /\
      campaigns w' = campaigns w) \/
     (exists id,
         success r = true /\ data r = Some id /\
         campaigns w'
         = Store.updateWhere (_id c) (Store.setMailchimp id "scheduled")
             (campaigns w))).
Proof.
  unfold createCampaign, tryCatch, bind, Store.findTemplate.
  unfold bind.
  pose proof (collaborator_frame w) as F1.
  destruct (collaborator w) as [[] w1 | e w1 |]; [| | contradiction].
  2:{ eexists _, _. split; [reflexivity |]. split; [now apply sameButFaults_quiet |].
      left. repeat split. apply F1. }
  destruct (List.find _ (templates w1)) as [t |].
  2:{ eexists _, _. split; [reflexivity |]. split; [now apply sameButFaults_quiet |].
      left. repeat split. apply F1. }
  unfold Mailchimp.campaignsCreate, bind.
  pose proof (collaborator_frame w1) as F2.
  destruct (collaborator w1) as [[] w2 | e w2 |]; [| | contradiction].
  2:{ eexists _, _. split; [reflexivity |].
      unfold sameButFaults, quiet in *. cbn. intuition congruence. }
  unfold Mailchimp.campaignsSetContent, bind.
  match goal with
  | |- context [collaborator ?x] =>
      pose proof (collaborator_frame x) as F3;
      destruct (collaborator x) as [[] w3 | e w3 |]; [| | contradiction]
  end.
  2:{ eexists _, _. split; [reflexivity |].
      unfold sameButFaults, quiet in *. cbn in *. intuition congruence. }
  unfold Store.findByIdAndUpdate, bind.
  match goal with
  | |- context [collaborator ?x] =>
      pose proof (collaborator_frame x) as F4;
      destruct (collaborator x) as [[] w4 | e w4 |]; [| | contradiction]
  end.
  2:{ eexists _, _. split; [reflexivity |].
      unfold sameButFaults, quiet in *. cbn in *. intuition congruence. }
  eexists _, _. split; [reflexivity |].
  unfold sameButFaults, quiet in *. cbn in *. split; [intuition congruence |].
  right. eexists. split; [reflexivity |]. split; [reflexivity |].
  intuition congruence.
Qed.

Lemma scheduleCampaign_effect id t w :
  exists r w',
    scheduleCampaign id t w = Ret r w' /\ quiet w w' /\
    campaigns w' = campaigns w /\
    (success r = false ->
     message r = "Error scheduling campaign in Mailchimp").
Proof.
  unfold scheduleCampaign, tryCatch.
  destruct t as [[| t] |];
    try (eexists _, _; split; [reflexivity |];
         split; [apply quiet_refl | split; [reflexivity | reflexivity]]).
  unfold Mailchimp.campaignsSchedule, bind.
  pose proof (collaborator_frame w) as F.
  destruct (collaborator w) as [[] w1 | e w1 |]; [| | contradiction];
    eexists _, _; (split; [reflexivity |]);
    unfold sameButFaults, quiet in *; cbn; intuition congruence.
Qed.

(** The dispatch ends in one of three ways: the error of line 866 with the
    stored campaigns as they were, the error of line 876 or a normal end,
    both with the new campaign marked scheduled. *)
Lemma dispatch_effect c w :
  (exists w', dispatch c w = Throw createError w' /\ quiet w w' /\
              campaigns w' = campaigns w) \/
  (exists id w', dispatch c w = Throw scheduleError w' /\ quiet w w' /\
                 campaigns w'
                 = Store.updateWhere (_id c)
                     (Store.setMailchimp id "scheduled") (campaigns w)) \/
  (exists id w', dispatch c w = Ret tt w' /\ quiet w w' /\
                 campaigns w'
                 = Store.updateWhere (_id c)
                     (Store.setMailchimp id "scheduled") (campaigns w)).
Proof.
  unfold dispatch, bind.
  destruct (createCampaign_effect c w) as (r & w1 & -> & Q1 & [C | C]).
  - destruct C as (S & Mg & C). rewrite S. cbn [negb]. left.
    exists w1. unfold createFailed, throw. rewrite Mg. auto.
  - destruct C as (id & S & D & C). rewrite S, D. cbn [negb]. right.
    destruct (scheduleCampaign_effect id (scheduledFor c) w1)
      as (r2 & w2 & -> & Q2 & C2 & Mg).
    destruct (success r2) eqn:S2; cbn [negb]; [right | left];
      exists id, w2; (split; [| split; [eapply quiet_trans; eauto | congruence]]).
    + reflexivity.
    + unfold scheduleFailed, throw. now rewrite Mg.
Qed.

Lemma materialize_effect c d w :
  (exists e w', materialize c d w = Throw e w' /\ quiet w w' /\
                campaigns w' = campaigns w) \/
  (exists newCampaign w',
      materialize c d w = Ret newCampaign w' /\
      clock w' = clock w /\ ticks w' = ticks w /\
      nextObjectId w' = S (nextObjectId w) /\
      campaigns w' = (campaigns w ++ [newCampaign])%list /\
      _id newCampaign = nextObjectId w /\
      name newCampaign = name c ++ " - " ++ toLocaleDateString d /\
      description newCampaign = description c /\
      type newCampaign = type c /\ template newCampaign = template c /\
      segment newCampaign = segment c /\
      scheduledFor newCampaign = Some d /\
      status newCampaign = "draft" /\
      mailchimpCampaignId newCampaign = None /\
      recurring newCampaign = Store.defaultRecurring).
Proof.
  unfold materialize.
  destruct d as [| t].
  - left. eexists _, _. split; [reflexivity |]. split; [apply quiet_refl | reflexivity].
  - unfold Store.create, bind. pose proof (collaborator_frame w) as F.
    destruct (collaborator w) as [[] w1 | e w1 |]; [right | left | contradiction].
    + eexists _, _. split; [reflexivity |].
      unfold sameButFaults in F. cbn. intuition congruence.
    + eexists _, _. split; [reflexivity |].
      split; [now apply sameButFaults_quiet | apply F].
Qed.

Lemma save_effect c w :
  (exists e w', Store.save c w = Throw e w' /\ quiet w w' /\
                campaigns w' = campaigns w) \/
  (exists w', Store.save c w = Ret tt w' /\ quiet w w' /\
              campaigns w'
              = Store.updateWhere (_id c)
                  (setSchedule (lastSent (recurring c))
                               (nextScheduled (recurring c)))
                  (campaigns w)).
Proof.
  unfold Store.save, bind. pose proof (collaborator_frame w) as F.
  destruct (collaborator w) as [[] w1 | e w1 |]; [| left | contradiction].
  - destruct (existsb _ (campaigns w1)); [right | left].
    + eexists. split; [reflexivity |].
      unfold sameButFaults, quiet, withCampaigns in *. cbn. intuition congruence.
    + eexists _, _. split; [reflexivity |].
      split; [now apply sameButFaults_quiet | apply F].
  - eexists _, _. split; [reflexivity |].
    split; [now apply sameButFaults_quiet | apply F].
Qed.

Lemma newDate_effect w :
  exists t w',
    newDate w = Ret (Num t) w' /\
    clock w' = t /\ clock w <= t /\
    t + remainingTicks w' = clock w + remainingTicks w /\
    campaigns w' = campaigns w /\ nextObjectId w' = nextObjectId w /\
    templates w' = templates w /\ faults w' = faults w.
Proof.
  unfold newDate, remainingTicks. destruct (ticks w) as [| n ns] eqn:T.
  - exists (clock w), w. rewrite T. repeat split; lia.
  - eexists _, _. split; [reflexivity |]. cbn. repeat split; lia.
Qed.

End Collaborators.

(** * The stored campaigns through a turn of the loop *)

Section StoreEvolution.

Lemma lookup_app id cs l d :
  lookup id cs = Some d -> lookup id (cs ++ l) = Some d.
Proof.
  unfold lookup. induction cs as [| x cs IH]; cbn; [discriminate |].
  destruct (Nat.eqb (_id x) id); auto.
Qed.

Lemma lookup_updateWhere id id' f cs :
  (forall d, _id (f d) = _id d) ->
  lookup id (Store.updateWhere id' f cs)
  = option_map (fun d => if Nat.eqb (_id d) id' then f d else d)
               (lookup id cs).
Proof.
  intros Hf. unfold lookup, Store.updateWhere.
  induction cs as [| x cs IH]; cbn; [reflexivity |].
  assert (_id (if Nat.eqb (_id x) id' then f x else x) = _id x) as ->
    by (destruct (Nat.eqb (_id x) id'); auto).
  destruct (Nat.eqb (_id x) id); auto.
Qed.

Lemma lookup_In id cs d : lookup id cs = Some d -> In d cs /\ _id d = id.
Proof.
  unfold lookup. intros H. apply find_some in H.
  destruct H as [H1 H2]. apply Nat.eqb_eq in H2. auto.
Qed.

Lemma Forall_updateWhere (P : EmailCampaign -> Prop) id f cs :
  (forall d, P d -> _id d = id -> P (f d)) ->
  Forall P cs -> Forall P (Store.updateWhere id f cs).
Proof.
  intros Hf H. unfold Store.updateWhere. induction H as [| x cs Hx H IH]; cbn.
  - constructor.
  - constructor; [| exact IH].
    destruct (Nat.eqb_spec (_id x) id); auto.
Qed.

(** The invariant goes through every change. *)
Lemma evolves_ordered i cs cs' :
  evolves i cs cs' -> Forall ordered cs -> Forall ordered cs'.
Proof.
  induction 1 as [cs | cs n Hn | cs id mc st | cs id now next _ Hlt | ? ? ? _ IH1 _ IH2];
    intros H; auto.
  - apply Forall_app. split; [exact H |]. constructor; [| constructor].
    unfold ordered. now rewrite Hn.
  - apply Forall_updateWhere; auto.
  - apply Forall_updateWhere; auto.
Qed.

(** A change leaves the schedule of every campaign but [i] as it was, and
    every campaign's name and status-independent fields. *)
Lemma evolves_lookup i cs cs' :
  evolves i cs cs' ->
  forall id d,
    i <> Some id -> lookup id cs = Some d ->
    exists d', lookup id cs' = Some d' /\ recurring d' = recurring d /\
               name d' = name d.
Proof.
  induction 1 as [cs | cs n Hn | cs id0 mc st | cs id0 now next Hi Hlt | ? ? ? _ IH1 _ IH2];
    intros id d Ni Hd.
  - exists d. auto.
  - exists d. split; [now apply lookup_app | auto].
  - rewrite lookup_updateWhere, Hd by reflexivity. cbn.
    destruct (Nat.eqb (_id d) id0); eexists; split; reflexivity || auto.
  - rewrite lookup_updateWhere, Hd by reflexivity. cbn.
    apply lookup_In in Hd. destruct Hd as [_ Hd].
    destruct (Nat.eqb_spec (_id d) id0) as [E | _]; [congruence |].
    exists d. auto.
  - destruct (IH1 id d Ni Hd) as (d1 & H1 & R1 & N1).
    destruct (IH2 id d1 Ni H1) as (d2 & H2 & R2 & N2).
    exists d2. split; [exact H2 | split; congruence].
Qed.

End StoreEvolution.

(** * One turn of the loop *)

Section Iteration.

Lemma isDue_later next t t' :
  isDue next (Num t) = true -> t <= t' -> isDue next (Num t') = true.
Proof.
  unfold isDue. destruct next as [[| n] |]; cbn; auto.
  intros H L. apply Z.leb_le in H. apply Z.leb_le. lia.
Qed.

Lemma clockOK_reading w t w' :
  clockOK w -> clock w' = t -> clock w <= t ->
  t + remainingTicks w' = clock w + remainingTicks w ->
  inRange t /\ t <= lastStart /\ clockOK w'.
Proof.
  unfold clockOK, inRange, remainingTicks. intros [[L U] B] E M R.
  rewrite E. pose proof (N2Z.is_nonneg (fold_right N.add 0%N (ticks w'))).
  assert (lastStart <= maxTimeValue) by (vm_compute; discriminate).
  lia.
Qed.

Lemma clockOK_quiet w w' : quiet w w' -> clockOK w -> clockOK w'.
Proof.
  unfold quiet, clockOK, remainingTicks. intros (C & T & _) H.
  now rewrite C, T.
Qed.

(** From the dispatch on, a turn of the loop is the dispatch, the save and
    the success entry. *)
Lemma tryBody_at_dispatch fuel c res w now next newC w1 :
  reachesDispatch fuel c w now next newC w1 ->
  tryBody fuel c res w
  = bind (dispatch newC)
         (fun _ => bind (Store.save (advance c now next))
                        (fun _ => ret (res ++ [successEntry c next])%list))
         w1.
Proof.
  intros (wa & start & wb & H1 & H2 & H3 & H4 & H5).
  unfold tryBody. unfold bind at 1. rewrite H1, H2.
  unfold bind at 1. rewrite H3, H4. unfold bind at 1. rewrite H5.
  reflexivity.
Qed.

(** A turn of the loop for a campaign that is not due at the reading of the
    clock leaves the results as they are. *)
Lemma iteration_not_due fuel c res w now wa :
  newDate w = Ret now wa ->
  isDue (nextScheduled (recurring c)) now = false ->
  iteration fuel c res w = Ret res wa.
Proof.
  intros N Due. unfold iteration, tryCatch, tryBody, bind.
  now rewrite N, Due.
Qed.

(** A turn of the loop for a campaign that is due, with a rule within the
    schema's bounds, comes back with one more entry, for this campaign. *)
Lemma iteration_due fuel c res w now wa :
  (6 <= fuel)%nat -> validRule (recurring c) = true -> clockOK w ->
  newDate w = Ret (Num now) wa ->
  isDue (nextScheduled (recurring c)) (Num now) = true ->
  exists e w',
    iteration fuel c res w = Ret (res ++ [e])%list w' /\
    entry_campaign e = name c /\
    clockOK w' /\ clock w <= clock w' /\
    evolves (Some (_id c)) (campaigns w) (campaigns w').
Proof.
  intros F V K N Due.
  destruct (newDate_effect w) as (now' & wa' & N1 & Ca & Ma & Ra & Sa & _).
  rewrite N1 in N. injection N as -> ->.
  destruct (clockOK_reading w now wa K Ca Ma Ra) as (Rn & Ln & Ka).
  unfold iteration, tryCatch, tryBody. unfold bind at 1. rewrite N1, Due.
  destruct (newDate_effect wa) as (start & wb & N2 & Cb & Mb & Rb & Sb & _).
  destruct (clockOK_reading wa start wb Ka Cb Mb Rb) as (Rs & Ls & Kb).
  unfold bind at 1. rewrite N2.
  destruct (computeNextOccurrence_after (recurring c) fuel now start V F Rn)
    as (next & E & Lt & _); [lia | exact Ls |].
  rewrite E.
  assert (forall e w', clockOK w' -> clock w <= clock w' ->
            evolves (Some (_id c)) (campaigns w) (campaigns w') ->
            exists e' w'',
              Ret (res ++ [failureEntry c e])%list w'
              = Ret (res ++ [e'])%list w'' /\
              entry_campaign e' = name c /\
              clockOK w'' /\ clock w <= clock w'' /\
              evolves (Some (_id c)) (campaigns w) (campaigns w'')) as Fail.
  { intros e w' K' M' Ev. exists (failureEntry c e), w'. auto. }
  unfold bind at 1.
  destruct (materialize_effect c (Num next) wb)
    as [(e & w1 & -> & Q1 & S1)
       | (newC & w1 & -> & C1 & T1 & _ & S1 & _ & _ & _ & _ & _ & _ & _ & _ & _ & R1)].
  { unfold ret. apply Fail.
    - eapply clockOK_quiet; eauto.
    - destruct Q1 as (Q1 & _). lia.
    - rewrite S1, Sb, Sa. constructor. }
  assert (clockOK w1) as K1
    by (unfold clockOK, remainingTicks in *; now rewrite C1, T1).
  assert (evolves (Some (_id c)) (campaigns w) (campaigns w1)) as Ev1
    by (rewrite S1, Sb, Sa; now constructor).
  unfold bind at 1.
  destruct (dispatch_effect newC w1)
    as [(w2 & -> & Q2 & S2) | [(id & w2 & -> & Q2 & S2) | (id & w2 & -> & Q2 & S2)]].
  { unfold ret. apply Fail.
    - eapply clockOK_quiet; eauto.
    - destruct Q2 as (Q2 & _). lia.
    - now rewrite S2. }
  { unfold ret. apply Fail.
    - eapply clockOK_quiet; eauto.
    - destruct Q2 as (Q2 & _). lia.
    - rewrite S2. eapply evolves_trans; [exact Ev1 | constructor]. }
  assert (clockOK w2) as K2 by (eapply clockOK_quiet; eauto).
  assert (evolves (Some (_id c)) (campaigns w) (campaigns w2)) as Ev2
    by (rewrite S2; eapply evolves_trans; [exact Ev1 | constructor]).
  assert (clock w <= clock w2) as M2 by (destruct Q2 as (Q2 & _); lia).
  unfold bind at 1.
  destruct (save_effect (advance c (Num now) (Num next)) w2)
    as [(e & w3 & -> & Q3 & S3) | (w3 & -> & Q3 & S3)].
  { unfold ret. apply Fail.
    - eapply clockOK_quiet; eauto.
    - destruct Q3 as (Q3 & _). lia.
    - now rewrite S3. }
  unfold ret. exists (successEntry c (Num next)), w3.
  split; [reflexivity |]. split; [reflexivity |].
  split; [eapply clockOK_quiet; eauto |].
  split; [destruct Q3 as (Q3 & _); lia |].
  rewrite S3. eapply evolves_trans; [exact Ev2 |].
  cbn [advance setSchedule recurring lastSent nextScheduled _id].
  now apply evolves_save.
Qed.

(** A turn of the loop for a rule within the schema's bounds always comes
    back, with the results as they were or with one more entry. *)
Lemma iteration_sound fuel c res w :
  (6 <= fuel)%nat -> validRule (recurring c) = true -> clockOK w ->
  exists res' w',
    iteration fuel c res w = Ret res' w' /\
    clockOK w' /\ clock w <= clock w' /\
    evolves (Some (_id c)) (campaigns w) (campaigns w') /\
    (res' = res \/
     exists e, res' = (res ++ [e])%list /\ entry_campaign e = name c).
Proof.
  intros F V K.
  destruct (newDate_effect w) as (now & wa & N & Ca & Ma & Ra & Sa & _).
  destruct (isDue (nextScheduled (recurring c)) (Num now)) eqn:Due.
  - destruct (iteration_due fuel c res w now wa F V K N Due)
      as (e & w' & It & Ne & K' & M' & Ev).
    exists (res ++ [e])%list, w'. repeat split; auto; try apply K'.
    right. now exists e.
  - exists res, wa. rewrite (iteration_not_due fuel c res w _ wa N Due).
    destruct (clockOK_reading w now wa K Ca Ma Ra) as (_ & _ & Ka).
    repeat split; auto; try apply Ka; try lia.
    rewrite Sa. constructor.
Qed.

End Iteration.

(** * The loop and the whole pass *)

Section Pass.

Lemma forEachCampaign_app fuel cs1 cs2 :
  forall res w,
    forEachCampaign fuel (cs1 ++ cs2) res w
    = bind (forEachCampaign fuel cs1 res)
           (fun r => forEachCampaign fuel cs2 r) w.
Proof.
  induction cs1 as [| c cs1 IH]; intros res w; [reflexivity |].
  cbn [forEachCampaign app]. unfold bind.
  destruct (iteration fuel c res w) as [r w1 | e w1 |];
    [apply IH | reflexivity | reflexivity].
Qed.

(** The loop over rules within the schema's bounds always comes back; it
    only appends to [results], keeps the invariant of every stored
    campaign and leaves alone the schedule of the campaigns that are not in
    the batch. *)
Lemma forEachCampaign_sound fuel cs :
  (6 <= fuel)%nat -> schemaOK cs ->
  forall res w,
    clockOK w ->
    exists res' w',
      forEachCampaign fuel cs res w = Ret res' w' /\
      clockOK w' /\ clock w <= clock w' /\
      (exists tail, res' = (res ++ tail)%list) /\
      (Forall ordered (campaigns w) -> Forall ordered (campaigns w')) /\
      (forall id d,
          ~ In id (map _id cs) -> lookup id (campaigns w) = Some d ->
          exists d', lookup id (campaigns w') = Some d' /\
                     recurring d' = recurring d /\ name d' = name d).
Proof.
  intros F V. induction V as [| c cs Vc V IH]; intros res w K.
  - exists res, w. split; [reflexivity |]. split; [exact K |].
    split; [lia |]. split; [exists []; now rewrite app_nil_r |].
    split; [auto |]. intros id d _ H. exists d. auto.
  - destruct (iteration_sound fuel c res w F Vc K)
      as (r1 & w1 & E1 & K1 & M1 & Ev & App).
    destruct (IH r1 w1 K1) as (r2 & w2 & E2 & K2 & M2 & (t2 & T2) & O2 & L2).
    exists r2, w2. cbn [forEachCampaign]. unfold bind. rewrite E1.
    split; [exact E2 |]. split; [exact K2 |]. split; [lia |].
    split; [| split].
    + destruct App as [-> | (e & -> & _)]; [now exists t2 |].
      exists (e :: t2). rewrite T2, <- app_assoc. reflexivity.
    + intros O. apply O2. eapply evolves_ordered; eauto.
    + intros id d Ni Hd. cbn [map In] in Ni.
      destruct (evolves_lookup _ _ _ Ev id d) as (d1 & H1 & R1 & N1);
        [intros [= E]; apply Ni; now left | exact Hd |].
      destruct (L2 id d1) as (d2 & H2 & R2 & N2);
        [intros I; apply Ni; now right | exact H1 |].
      exists d2. split; [exact H2 | split; congruence].
Qed.

Lemma find_effect w :
  (exists w0, Store.find Store.recurringQuery w
              = Ret (filter Store.recurringQuery (campaigns w)) w0
              /\ sameButFaults w w0) \/
  (exists e w0, Store.find Store.recurringQuery w = Throw e w0
                /\ sameButFaults w w0).
Proof.
  unfold Store.find, bind. pose proof (collaborator_frame w) as Fr.
  destruct (collaborator w) as [[] w0 | e w0 |]; [left | right | contradiction].
  - exists w0. split; [| exact Fr]. destruct Fr as (-> & _). reflexivity.
  - exists e, w0. auto.
Qed.

Lemma schemaOK_filter f cs : schemaOK cs -> schemaOK (filter f cs).
Proof.
  unfold schemaOK. rewrite !Forall_forall. intros H d Hd.
  apply filter_In in Hd. apply H, Hd.
Qed.

Lemma clockOK_sameButFaults w w' : sameButFaults w w' -> clockOK w -> clockOK w'.
Proof. intros H. apply clockOK_quiet. now apply sameButFaults_quiet. Qed.

(** The pass, once the query has answered: the loop runs to its end and
    its results are reported under [success: true]. *)
Lemma pass_after_query fuel w cs w0 :
  (6 <= fuel)%nat -> clockOK w -> schemaOK (campaigns w) ->
  Store.find Store.recurringQuery w = Ret cs w0 ->
  cs = filter Store.recurringQuery (campaigns w) /\ sameButFaults w w0 /\
  exists results w',
    forEachCampaign fuel cs [] w0 = Ret results w' /\
    processRecurringCampaigns fuel w
    = Ret {| report_success := true;
             report_message := "Recurring campaigns processed";
             report_results := Some results; report_error := None |} w'.
Proof.
  intros F K V Q.
  destruct (find_effect w) as [(w0' & Q' & Fr) | (e & w0' & Q' & _)];
    rewrite Q' in Q; [| discriminate].
  injection Q as <- <-. split; [reflexivity |]. split; [exact Fr |].
  destruct (forEachCampaign_sound fuel _ F
              (schemaOK_filter Store.recurringQuery _ V) [] w0')
    as (results & w' & E & _); [eapply clockOK_sameButFaults; eauto |].
  exists results, w'. split; [exact E |].
  unfold processRecurringCampaigns, tryCatch, bind. now rewrite Q', E.
Qed.

End Pass.

(** * Failure and success of a dispatch *)

Section Dispatch.

Lemma updateWhere_fresh id f cs :
  Forall (fun d => _id d <> id) cs -> Store.updateWhere id f cs = cs.
Proof.
  unfold Store.updateWhere. induction 1 as [| x cs Hx H IH]; cbn; [reflexivity |].
  rewrite IH. destruct (Nat.eqb_spec (_id x) id); [contradiction | reflexivity].
Qed.

Lemma updateWhere_new f cs n :
  Forall (fun d => _id d <> _id n) cs ->
  Store.updateWhere (_id n) f (cs ++ [n]) = (cs ++ [f n])%list.
Proof.
  intros H. unfold Store.updateWhere. rewrite map_app. cbn.
  rewrite Nat.eqb_refl. f_equal. now apply updateWhere_fresh.
Qed.

(** What reaching the dispatch has done: two readings of the clock and the
    new campaign appended to the store. *)
Lemma reachesDispatch_effect fuel c w now nextDate newC w1 :
  reachesDispatch fuel c w now nextDate newC w1 ->
  exists t,
    now = Num t /\ clock w <= t <= clock w1 /\
    isDue (nextScheduled (recurring c)) (Num t) = true /\
    (clockOK w -> clockOK w1) /\
    (clockOK w -> validRule (recurring c) = true -> (6 <= fuel)%nat ->
     exists n, nextDate = Num n /\ t < n) /\
    campaigns w1 = (campaigns w ++ [newC])%list /\
    _id newC = nextObjectId w /\ status newC = "draft" /\
    mailchimpCampaignId newC = None /\ instanceOf c nextDate newC.
Proof.
  intros (wa & start & wb & H1 & Due & H3 & H4 & H5).
  destruct (newDate_effect w) as (t & wa' & N1 & Ca & Ma & Ra & Sa & Ia & _).
  rewrite N1 in H1. injection H1 as <- <-.
  destruct (newDate_effect wa') as (s & wb' & N2 & Cb & Mb & Rb & Sb & Ib & _).
  rewrite N2 in H3. injection H3 as <- <-.
  destruct (materialize_effect c nextDate wb')
    as [(e & w1' & M & _) | (newC' & w1' & M & C1 & T1 & _ & S1 & I1 & Nm & Ds
                             & Ty & Tp & Sg & Sf & St & Mc & Rc)];
    rewrite M in H5; [discriminate |]. injection H5 as <- <-.
  exists t. split; [reflexivity |]. split; [lia |]. split; [exact Due |].
  split; [| split; [| split; [congruence |]]].
  - intros K. destruct (clockOK_reading w t wa' K Ca Ma Ra) as (_ & _ & Ka).
    destruct (clockOK_reading wa' s wb' Ka Cb Mb Rb) as (_ & _ & Kb).
    unfold clockOK, remainingTicks in *. now rewrite C1, T1.
  - intros K V F. destruct (clockOK_reading w t wa' K Ca Ma Ra) as (Rt & _ & Ka).
    destruct (clockOK_reading wa' s wb' Ka Cb Mb Rb) as (_ & Ls & _).
    destruct (computeNextOccurrence_after (recurring c) fuel t s V F Rt)
      as (n & E & Lt & _); [lia | exact Ls |].
    rewrite E in H4. injection H4 as <-. exists n. auto.
  - split; [congruence |]. split; [exact St |]. split; [exact Mc |].
    unfold instanceOf. auto 10.
Qed.

(** A failed dispatch: the error is one of the two of lines 866 and 876,
    the new campaign stays in the store, as a draft after a create failure
    and marked scheduled after a schedule failure. *)
Lemma dispatchFails_effect fuel c w now nextDate e w2 :
  dispatchFails fuel c w now nextDate e w2 ->
  exists t newC,
    now = Num t /\ clock w <= t <= clock w2 /\
    isDue (nextScheduled (recurring c)) (Num t) = true /\
    (clockOK w -> clockOK w2) /\
    _id newC = nextObjectId w /\ status newC = "draft" /\
    mailchimpCampaignId newC = None /\ instanceOf c nextDate newC /\
    ((e = createError /\ campaigns w2 = (campaigns w ++ [newC])%list) \/
     (exists id,
         e = scheduleError /\
         campaigns w2
         = Store.updateWhere (_id newC) (Store.setMailchimp id "scheduled")
             (campaigns w ++ [newC]))).
Proof.
  intros (newC & w1 & Hr & Hd).
  destruct (reachesDispatch_effect _ _ _ _ _ _ _ Hr)
    as (t & -> & Mt & Due & K & _ & S1 & I1 & St & Mc & Inst).
  exists t, newC.
  destruct (dispatch_effect newC w1)
    as [(w2' & D & Q2 & S2) | [(id & w2' & D & Q2 & S2) | (id & w2' & D & _)]];
    rewrite D in Hd; [| | discriminate]; injection Hd as <- <-;
    (split; [reflexivity |]);
    (split; [destruct Q2 as (Q2 & _); lia |]);
    (split; [exact Due |]);
    (split; [intros K0; eapply clockOK_quiet; eauto |]);
    (split; [exact I1 |]); (split; [exact St |]); (split; [exact Mc |]);
    (split; [exact Inst |]).
  - left. split; [reflexivity | congruence].
  - right. exists id. split; [reflexivity | congruence].
Qed.

End Dispatch.

(** * The poll pass *)

Section Claims_Pass.

Lemma iteration_of_failed_dispatch fuel c res w now nextDate e w2 :
  dispatchFails fuel c w now nextDate e w2 ->
  iteration fuel c res w = Ret (res ++ [failureEntry c e])%list w2.
Proof.
  intros (newC & w1 & Hr & Hd). unfold iteration, tryCatch.
  rewrite (tryBody_at_dispatch _ _ _ _ _ _ _ _ Hr). unfold bind.
  now rewrite Hd.
Qed.

Lemma lookup_after_failed_dispatch fuel c w now nextDate e w2 id d :
  dispatchFails fuel c w now nextDate e w2 ->
  lookup id (campaigns w) = Some d ->
  exists d', lookup id (campaigns w2) = Some d' /\
             recurring d' = recurring d /\ name d' = name d.
Proof.
  intros H Hd.
  destruct (dispatchFails_effect _ _ _ _ _ _ _ H)
    as (t & newC & _ & _ & _ & _ & _ & _ & _ & (_ & _ & _ & _ & _ & _ & Rc)
        & [(_ & S) | (mc & _ & S)]);
    apply (evolves_lookup None (campaigns w) (campaigns w2)); try discriminate;
    auto; rewrite S.
  - now constructor.
  - eapply evolves_trans; [apply evolves_new; exact Rc | constructor].
Qed.

(** C6.  When the dispatch of a due definition [c] of the batch fails, at
    its create step or at its schedule step: the turn of the loop ends with
    the failure entry of [c], carrying its name and the error, appended to
    the results; the stored schedule of [c] is as it was; the loop goes on
    with the remaining definitions and runs to its end, keeping that entry
    and that schedule, so that [c] is due at every later reading of the
    clock.  In the batch of three of the third scenario the failed
    definition keeps its schedule, the two others advance, and the next
    poll processes the failed one alone. *)
Theorem dispatch_failure_is_isolated
    (fuel : nat) (c : EmailCampaign) (rest : list EmailCampaign)
    (res : list ResultEntry) (w : World) (now nextDate : Date)
    (e : Error) (w2 : World) :
  dispatchFails fuel c w now nextDate e w2 ->
  lookup (_id c) (campaigns w) = Some c ->
  NoDup (map _id (c :: rest)) ->
  (6 <= fuel)%nat -> schemaOK rest -> clockOK w ->
  ((e = createError \/ e = scheduleError) /\
   iteration fuel c res w = Ret (res ++ [failureEntry c e])%list w2 /\
   (exists c', lookup (_id c) (campaigns w2) = Some c' /\
               recurring c' = recurring c) /\
   exists tail wF,
     forEachCampaign fuel (c :: rest) res w
     = Ret (res ++ failureEntry c e :: tail)%list wF /\
     forEachCampaign fuel rest (res ++ [failureEntry c e])%list w2
     = Ret (res ++ failureEntry c e :: tail)%list wF /\
     exists c',
       lookup (_id c) (campaigns wF) = Some c' /\
       lastSent (recurring c') = lastSent (recurring c) /\
       nextScheduled (recurring c') = nextScheduled (recurring c) /\
       forall t, clock wF <= t ->
                 isDue (nextScheduled (recurring c')) (Num t) = true) /\
  (outcomes (processRecurringCampaigns 6 threeDefinitions)
   = Some (true, [("Weekly digest", true, None);
                  ("Monthly offers", false, Some createError);
                  ("Daily tips", true, None)]) /\
   firstn 3 (schedules (worldAfter (processRecurringCampaigns 6 threeDefinitions)
                                   threeDefinitions))
   = [("Weekly digest", "sent",
       Some (Num (midnight 2024 1 15 + 10 * msPerHour)),
       Some (Num (midnight 2024 1 24 + 9 * msPerHour)));
      ("Monthly offers", "draft", None, None);
      ("Daily tips", "draft",
       Some (Num (midnight 2024 1 15 + 10 * msPerHour + 250)),
       Some (Num (midnight 2024 1 16 + 10 * msPerHour + 250)))] /\
   outcomes (processRecurringCampaigns 6
               (worldAfter (processRecurringCampaigns 6 threeDefinitions)
                           threeDefinitions))
   = Some (true, [("Monthly offers", true, None)])).
Proof.
  intros H Hc Nd F V K.
  split; [| vm_compute; repeat split; reflexivity].
  pose proof (iteration_of_failed_dispatch fuel c res w now nextDate e w2 H) as It.
  destruct (dispatchFails_effect _ _ _ _ _ _ _ H)
    as (t & newC & -> & Mt & Due & K2 & _ & _ & _ & _ & Eff).
  split; [destruct Eff as [(-> & _) | (? & -> & _)]; auto |].
  split; [exact It |].
  destruct (lookup_after_failed_dispatch _ _ _ _ _ _ _ _ _ H Hc)
    as (c2 & L2 & R2 & _).
  split; [exists c2; auto |].
  destruct (forEachCampaign_sound fuel rest F V
              (res ++ [failureEntry c e])%list w2 (K2 K))
    as (resF & wF & E & _ & MF & (tail & ->) & _ & LF).
  rewrite <- app_assoc in E. cbn [app] in E.
  exists tail, wF. split; [| split; [exact E |]].
  - cbn [forEachCampaign]. unfold bind. now rewrite It.
  - apply NoDup_cons_iff in Nd. destruct Nd as [Ni _].
    destruct (LF (_id c) c2 Ni L2) as (c3 & L3 & R3 & _).
    exists c3. split; [exact L3 |]. rewrite R3, R2.
    split; [reflexivity |]. split; [reflexivity |].
    intros t' Ht. apply (isDue_later _ t); [exact Due | lia].
Qed.

Lemma dispatch_failure_is_isolated_witness :
  iteration 6 monthlyOffers []
    (world [monthlyOffers; dailyTips] [None; None; Some "Mailchimp is down"])
  = Ret ([] ++ [failureEntry monthlyOffers createError])%list
      (worldAfter
         (iteration 6 monthlyOffers []
            (world [monthlyOffers; dailyTips]
                   [None; None; Some "Mailchimp is down"]))
         (world [] [])).
Proof.
  pose (w := world [monthlyOffers; dailyTips]
                   [None; None; Some "Mailchimp is down"]).
  pose (w2 := worldAfter (iteration 6 monthlyOffers [] w) (world [] [])).
  refine (proj1 (proj2 (proj1
            (dispatch_failure_is_isolated 6 monthlyOffers [dailyTips] [] w
               (Num (midnight 2024 1 15 + 10 * msPerHour))
               (Num (midnight 2024 2 29 + 9 * msPerHour))
               createError w2 _ _ _ _ _ _)))).
  - eexists _, _. split.
    + eexists _, _, _. repeat split; vm_compute; reflexivity.
    + vm_compute. reflexivity.
  - reflexivity.
  - repeat constructor; cbn; intuition discriminate.
  - lia.
  - repeat constructor.
  - split; [split |]; vm_compute; discriminate.
Defined.

(** C7, as the code has it.  When the dispatch of the new campaign fails,
    at either sub-step, the store holds every campaign it held, unchanged
    (no definition is advanced), and one more: the new campaign, stored
    before the dispatch and not removed after it.  It is a draft without
    Mailchimp id after a failure of the create sub-step, and is marked
    scheduled, with the Mailchimp id, after a failure of the schedule
    sub-step. *)
Theorem failed_dispatch_leaves_new_campaign
    (fuel : nat) (c : EmailCampaign) (w : World) (now nextDate : Date)
    (e : Error) (w2 : World) :
  dispatchFails fuel c w now nextDate e w2 -> freshIds w ->
  exists inst,
    campaigns w2 = (campaigns w ++ [inst])%list /\
    _id inst = nextObjectId w /\ instanceOf c nextDate inst /\
    ((e = createError /\ status inst = "draft" /\
      mailchimpCampaignId inst = None) \/
     (e = scheduleError /\ status inst = "scheduled" /\
      exists id, mailchimpCampaignId inst = Some id)).
Proof.
  intros H Fr.
  destruct (dispatchFails_effect _ _ _ _ _ _ _ H)
    as (t & newC & _ & _ & _ & _ & I & St & Mc & Inst & [(-> & S) | (id & -> & S)]).
  - exists newC. split; [exact S |]. split; [exact I |]. split; [exact Inst |].
    left. auto.
  - exists (Store.setMailchimp id "scheduled" newC).
    split; [| split; [exact I | split; [exact Inst |]]].
    + rewrite S. apply updateWhere_new. rewrite I.
      unfold freshIds in Fr. rewrite Forall_forall in *. intros d Hd.
      specialize (Fr d Hd). lia.
    + right. split; [reflexivity |]. split; [reflexivity |]. now exists id.
Qed.

Lemma failed_dispatch_leaves_new_campaign_witness :
  exists inst,
    campaigns
      (worldAfter
         (iteration 6 monthlyOffers []
            (world [monthlyOffers] [None; None; Some "Mailchimp is down"]))
         (world [] []))
    = ([monthlyOffers] ++ [inst])%list /\
    status inst = "draft".
Proof.
  pose (w := world [monthlyOffers] [None; None; Some "Mailchimp is down"]).
  destruct (failed_dispatch_leaves_new_campaign 6 monthlyOffers w
              (Num (midnight 2024 1 15 + 10 * msPerHour))
              (Num (midnight 2024 2 29 + 9 * msPerHour)) createError
              (worldAfter (iteration 6 monthlyOffers [] w) (world [] [])))
    as (inst & S & _ & _ & [(_ & St & _) | (E & _)]).
  - eexists _, _. split.
    + eexists _, _, _. repeat split; vm_compute; reflexivity.
    + vm_compute. reflexivity.
  - repeat constructor.
  - exists inst. split; [exact S | exact St].
  - discriminate E.
Defined.

(** C7 as stated fails: a failed dispatch leaves new state in the store.
    With one due definition and the Mailchimp create call failing, the pass
    reports the failure and the store holds a new draft campaign; with the
    Mailchimp schedule call failing, it holds a new campaign whose status is
    scheduled. *)
Lemma failed_dispatch_persists_state :
  outcomes (processRecurringCampaigns 6 mailchimpCreateFails)
  = Some (true, [("Monthly offers", false, Some createError)]) /\
  schedules mailchimpCreateFails = [("Monthly offers", "draft", None, None)] /\
  schedules (worldAfter (processRecurringCampaigns 6 mailchimpCreateFails)
                        mailchimpCreateFails)
  = [("Monthly offers", "draft", None, None);
     ("Monthly offers - 2/29/2024", "draft", None, None)] /\
  outcomes (processRecurringCampaigns 6 mailchimpScheduleFails)
  = Some (true, [("Monthly offers", false, Some scheduleError)]) /\
  schedules (worldAfter (processRecurringCampaigns 6 mailchimpScheduleFails)
                        mailchimpScheduleFails)
  = [("Monthly offers", "draft", None, None);
     ("Monthly offers - 2/29/2024", "scheduled", None, None)] /\
  ~ (forall fuel c w now nextDate e w2,
        dispatchFails fuel c w now nextDate e w2 ->
        campaigns w2 = campaigns w).
Proof.
  do 5 (split; [vm_compute; reflexivity |]).
  intros H.
  pose (w := world [monthlyOffers] [None; None; Some "Mailchimp is down"]).
  specialize (H 6%nat monthlyOffers w
                (Num (midnight 2024 1 15 + 10 * msPerHour))
                (Num (midnight 2024 2 29 + 9 * msPerHour)) createError
                (worldAfter (iteration 6 monthlyOffers [] w) (world [] []))).
  assert (dispatchFails 6 monthlyOffers w
            (Num (midnight 2024 1 15 + 10 * msPerHour))
            (Num (midnight 2024 2 29 + 9 * msPerHour)) createError
            (worldAfter (iteration 6 monthlyOffers [] w) (world [] []))) as D.
  { eexists _, _. split.
    - eexists _, _, _. repeat split; vm_compute; reflexivity.
    - vm_compute. reflexivity. }
  specialize (H D). vm_compute in H. discriminate H.
Qed.

(** C8, as the code has it.  The query selects the stored campaigns whose
    recurrence is enabled and whose status is draft or sent, whatever their
    other fields.  Every selected definition [d] has its turn of the loop,
    after the turns of the definitions selected before it; the turn reads
    the clock and, when [nextScheduled] is absent or not later than that
    reading [now], processes [d]: it appends to the results one entry for
    [d], which is in the results the pass reports.  A definition that is
    due when the pass starts is due at its turn.  A selected definition
    that is not due at its turn is left alone. *)
Theorem due_definitions_are_processed
    (fuel : nat) (w : World) (cs : list EmailCampaign) (w0 : World)
    (d : EmailCampaign) :
  (6 <= fuel)%nat -> clockOK w -> schemaOK (campaigns w) ->
  Store.find Store.recurringQuery w = Ret cs w0 ->
  In d (campaigns w) -> enabled (recurring d) = true ->
  status d = "draft" \/ status d = "sent" ->
  (forall x, In x cs <->
             In x (campaigns w) /\ enabled (recurring x) = true /\
             (status x = "draft" \/ status x = "sent")) /\
  exists cs1 cs2 res1 w1 now wa,
    cs = (cs1 ++ d :: cs2)%list /\
    forEachCampaign fuel cs1 [] w0 = Ret res1 w1 /\
    newDate w1 = Ret (Num now) wa /\ clock w <= now /\
    (isDue (nextScheduled (recurring d)) (Num (clock w)) = true ->
     isDue (nextScheduled (recurring d)) (Num now) = true) /\
    (isDue (nextScheduled (recurring d)) (Num now) = true ->
     exists e w2 res2 w',
       iteration fuel d res1 w1 = Ret (res1 ++ [e])%list w2 /\
       entry_campaign e = name d /\
       processRecurringCampaigns fuel w
       = Ret {| report_success := true;
                report_message := "Recurring campaigns processed";
                report_results := Some (res1 ++ e :: res2)%list;
                report_error := None |} w') /\
    (isDue (nextScheduled (recurring d)) (Num now) = false ->
     iteration fuel d res1 w1 = Ret res1 wa).
Proof.
  intros F K V Q Hd He Hs.
  destruct (pass_after_query fuel w cs w0 F K V Q)
    as (-> & Fr & results & w' & E & P).
  assert (forall x, In x (filter Store.recurringQuery (campaigns w)) <->
                    In x (campaigns w) /\ enabled (recurring x) = true /\
                    (status x = "draft" \/ status x = "sent")) as Sel.
  { intros x. rewrite filter_In. unfold Store.recurringQuery.
    rewrite andb_true_iff, orb_true_iff, !String.eqb_eq. tauto. }
  split; [exact Sel |].
  assert (In d (filter Store.recurringQuery (campaigns w))) as Hin
    by (apply Sel; auto).
  destruct (in_split _ _ Hin) as (cs1 & cs2 & Ecs).
  assert (schemaOK (cs1 ++ d :: cs2)) as V'
    by (rewrite <- Ecs; now apply schemaOK_filter).
  unfold schemaOK in V'. apply Forall_app in V'. destruct V' as [V1 V2].
  inversion V2 as [| ? ? Vd V3]; subst.
  assert (clockOK w0) as K0 by (eapply clockOK_sameButFaults; eauto).
  destruct (forEachCampaign_sound fuel cs1 F V1 [] w0 K0)
    as (res1 & w1 & E1 & K1 & M1 & _).
  destruct (newDate_effect w1) as (now & wa & N & _ & Ma & _).
  assert (clock w <= now) as Mw
    by (destruct Fr as (_ & _ & _ & _ & C & _); lia).
  exists cs1, cs2, res1, w1, now, wa.
  split; [exact Ecs |]. split; [exact E1 |]. split; [exact N |].
  split; [exact Mw |].
  split; [intros Due; now apply (isDue_later _ (clock w)) |].
  split; [| now apply iteration_not_due].
  intros Due.
  destruct (iteration_due fuel d res1 w1 now wa F Vd K1 N Due)
    as (e & w2 & E2 & Ne & K2 & _).
  destruct (forEachCampaign_sound fuel cs2 F V3 (res1 ++ [e])%list w2 K2)
    as (r3 & w3 & E3 & _ & _ & (res2 & ->) & _).
  rewrite Ecs in E. rewrite forEachCampaign_app in E. unfold bind in E.
  rewrite E1 in E. cbn [forEachCampaign] in E. unfold bind in E.
  rewrite E2, E3 in E. injection E as <- <-.
  rewrite <- app_assoc in P. cbn [app] in P.
  exists e, w2, res2, w3. auto.
Qed.

Lemma due_definitions_are_processed_witness :
  exists res1 e res2 w',
    entry_campaign e = name monthlyOffers /\
    processRecurringCampaigns 6 threeDefinitions
    = Ret {| report_success := true;
             report_message := "Recurring campaigns processed";
             report_results := Some (res1 ++ e :: res2)%list;
             report_error := None |} w'.
Proof.
  destruct (due_definitions_are_processed 6 threeDefinitions
              (filter Store.recurringQuery (campaigns threeDefinitions))
              (worldAfter (Store.find Store.recurringQuery threeDefinitions)
                          threeDefinitions)
              monthlyOffers)
    as (_ & cs1 & cs2 & res1 & w1 & now & wa & _ & _ & _ & _ & Due & Run & _).
  - lia.
  - split; [split |]; vm_compute; discriminate.
  - repeat constructor.
  - reflexivity.
  - right. left. reflexivity.
  - reflexivity.
  - left. reflexivity.
  - destruct (Run (Due eq_refl)) as (e & w2 & res2 & w' & _ & N & P).
    exists res1, e, res2, w'. split; [exact N | exact P].
Defined.

(** C8 as stated fails: the criterion also reads the status.  A definition
    whose recurrence is enabled and whose [nextScheduled] is absent, but
    whose status is scheduled, is not selected: the pass reports no entry
    and leaves the store as it was. *)
Lemma enabled_due_definition_can_be_skipped :
  enabled (recurring paused) = true /\
  status paused = "scheduled" /\
  isDue (nextScheduled (recurring paused)) (Num (clock (world [paused] [])))
  = true /\
  outcomes (processRecurringCampaigns 6 (world [paused] []))
  = Some (true, []) /\
  campaigns (worldAfter (processRecurringCampaigns 6 (world [paused] []))
                        (world [paused] []))
  = [paused] /\
  ~ (forall fuel w d,
        In d (campaigns w) -> enabled (recurring d) = true ->
        isDue (nextScheduled (recurring d)) (Num (clock w)) = true ->
        exists report w' results e,
          processRecurringCampaigns fuel w = Ret report w' /\
          report_results report = Some results /\
          In e results /\ entry_campaign e = name d).
Proof.
  do 5 (split; [vm_compute; reflexivity |]).
  intros H.
  destruct (H 6%nat (world [paused] []) paused)
    as (report & w' & results & e & P & R & I & _);
    [left; reflexivity | reflexivity | reflexivity |].
  vm_compute in P. injection P as <- _. injection R as <-. destruct I.
Qed.

Lemma dispatchSucceeds_effect fuel c w now nextDate w2 :
  dispatchSucceeds fuel c w now nextDate w2 ->
  exists t newC w1,
    reachesDispatch fuel c w now nextDate newC w1 /\
    dispatch newC w1 = Ret tt w2 /\
    now = Num t /\ clock w <= t <= clock w2 /\
    (clockOK w -> clockOK w2) /\
    (clockOK w -> validRule (recurring c) = true -> (6 <= fuel)%nat ->
     exists n, nextDate = Num n /\ t < n) /\
    evolves None (campaigns w) (campaigns w2).
Proof.
  intros (newC & w1 & Hr & Hd).
  destruct (reachesDispatch_effect _ _ _ _ _ _ _ Hr)
    as (t & -> & Mt & _ & K & Lt & S1 & _ & _ & _ & (_ & _ & _ & _ & _ & _ & Rc)).
  exists t, newC, w1.
  split; [exact Hr |]. split; [exact Hd |]. split; [reflexivity |].
  destruct (dispatch_effect newC w1)
    as [(w2' & D & _) | [(id & w2' & D & _) | (id & w2' & D & Q2 & S2)]];
    rewrite D in Hd; try discriminate. injection Hd as <-.
  split; [destruct Q2 as (Q2 & _); lia |].
  split; [intros K0; eapply clockOK_quiet; eauto |].
  split; [exact Lt |].
  rewrite S2, S1. eapply evolves_trans; [apply evolves_new; exact Rc | constructor].
Qed.

(** The invariant through a whole pass, which always comes back. *)
Lemma pass_keeps_order fuel w :
  (6 <= fuel)%nat -> clockOK w -> schemaOK (campaigns w) ->
  exists report w',
    processRecurringCampaigns fuel w = Ret report w' /\
    (Forall ordered (campaigns w) -> Forall ordered (campaigns w')).
Proof.
  intros F K V.
  destruct (find_effect w) as [(w0 & Q & Fr) | (e & w0 & Q & Fr)].
  - destruct (pass_after_query fuel w _ w0 F K V Q)
      as (_ & _ & results & w' & E & P).
    eexists _, w'. split; [exact P |].
    destruct (forEachCampaign_sound fuel _ F
                (schemaOK_filter Store.recurringQuery _ V) [] w0)
      as (r & w'' & E' & _ & _ & _ & O & _);
      [eapply clockOK_sameButFaults; eauto |].
    rewrite E' in E. injection E as <- <-.
    destruct Fr as (<- & _). exact O.
  - eexists _, w0. unfold processRecurringCampaigns, tryCatch, bind.
    rewrite Q. split; [reflexivity |]. destruct Fr as (-> & _). auto.
Qed.

(** C9, as the code has it.  On dispatcher success for a due definition [c]
    the reading [now] and the computed [nextDate] are assigned to
    [recurring.lastSent] and [recurring.nextScheduled], with [now] strictly
    before [nextDate], and the definition is saved.  When the save goes
    through, the stored definition carries the two values, satisfies the
    invariant, and the success entry is appended.  When the save throws, the
    store is as the dispatch left it and the failure entry is appended
    instead.  Every pass of the scheduler comes back and keeps the
    invariant of every stored campaign. *)
Theorem successful_dispatch_advances_schedule
    (fuel : nat) (c : EmailCampaign) (res : list ResultEntry) (w : World)
    (now nextDate : Date) (w2 : World) :
  dispatchSucceeds fuel c w now nextDate w2 ->
  lookup (_id c) (campaigns w) = Some c ->
  validRule (recurring c) = true -> (6 <= fuel)%nat -> clockOK w ->
  (exists t n, now = Num t /\ nextDate = Num n /\ t < n) /\
  (forall w3,
      Store.save (advance c now nextDate) w2 = Ret tt w3 ->
      iteration fuel c res w
      = Ret (res ++ [successEntry c nextDate])%list w3 /\
      (exists c',
          lookup (_id c) (campaigns w3) = Some c' /\
          lastSent (recurring c') = Some now /\
          nextScheduled (recurring c') = Some nextDate /\
          ordered c') /\
      (Forall ordered (campaigns w) -> Forall ordered (campaigns w3))) /\
  (forall e w3,
      Store.save (advance c now nextDate) w2 = Throw e w3 ->
      iteration fuel c res w = Ret (res ++ [failureEntry c e])%list w3 /\
      campaigns w3 = campaigns w2) /\
  (forall w0,
      clockOK w0 -> schemaOK (campaigns w0) ->
      exists report w',
        processRecurringCampaigns fuel w0 = Ret report w' /\
        (Forall ordered (campaigns w0) -> Forall ordered (campaigns w'))).
Proof.
  intros H Hc V F K.
  destruct (dispatchSucceeds_effect _ _ _ _ _ _ H)
    as (t & newC & w1 & Hr & Hd & -> & Mt & K2 & Lt & Ev).
  destruct (Lt K V F) as (n & -> & Ltn).
  split; [exists t, n; auto |].
  assert (iteration fuel c res w
          = match Store.save (advance c (Num t) (Num n)) w2 with
            | Ret _ w3 => Ret (res ++ [successEntry c (Num n)])%list w3
            | Throw e w3 => Ret (res ++ [failureEntry c e])%list w3
            | Hang => Hang
            end) as It.
  { unfold iteration, tryCatch.
    rewrite (tryBody_at_dispatch _ _ _ _ _ _ _ _ Hr). unfold bind.
    rewrite Hd. destruct (Store.save _ w2); reflexivity. }
  split; [| split].
  - intros w3 Sv. rewrite It, Sv. split; [reflexivity |].
    destruct (save_effect (advance c (Num t) (Num n)) w2)
      as [(e & w3' & Sv' & _) | (w3' & Sv' & _ & S3)];
      rewrite Sv' in Sv; [discriminate |]. injection Sv as <-.
    destruct (evolves_lookup None _ _ Ev (_id c) c) as (c2 & L2 & _);
      [discriminate | exact Hc |].
    rewrite S3.
    cbn [advance setSchedule recurring lastSent nextScheduled _id].
    split.
    + rewrite lookup_updateWhere, L2 by reflexivity. cbn [option_map].
      apply lookup_In in L2. destruct L2 as [_ ->]. rewrite Nat.eqb_refl.
      eexists. split; [reflexivity |]. cbn. auto.
    + intros O. apply Forall_updateWhere; [intros; exact Ltn |].
      eapply evolves_ordered; eauto.
  - intros e w3 Sv. rewrite It, Sv. split; [reflexivity |].
    destruct (save_effect (advance c (Num t) (Num n)) w2)
      as [(e' & w3' & Sv' & _ & S3) | (w3' & Sv' & _)];
      rewrite Sv' in Sv; [| discriminate]. now injection Sv as _ <-.
  - intros w0 K0 V0. now apply pass_keeps_order.
Qed.

Lemma successful_dispatch_advances_schedule_witness :
  exists t n,
    Num (midnight 2024 1 15 + 10 * msPerHour) = Num t /\
    Num (midnight 2024 1 16 + 10 * msPerHour + 250) = Num n /\ t < n.
Proof.
  pose (w := world [dailyTips] []).
  refine (proj1 (successful_dispatch_advances_schedule 6 dailyTips [] w
                   (Num (midnight 2024 1 15 + 10 * msPerHour))
                   (Num (midnight 2024 1 16 + 10 * msPerHour + 250))
                   (worldAfter
                      (bind (materialize dailyTips
                               (Num (midnight 2024 1 16 + 10 * msPerHour + 250)))
                            dispatch
                            (worldAfter (newDate (worldAfter (newDate w) w)) w))
                      w)
                   _ _ _ _ _)).
  - eexists _, _. split.
    + eexists _, _, _. repeat split; vm_compute; reflexivity.
    + vm_compute. reflexivity.
  - reflexivity.
  - reflexivity.
  - lia.
  - split; [split |]; vm_compute; discriminate.
Defined.

(** C9 as stated fails when the save throws: the dispatcher has succeeded
    (the new campaign is marked scheduled and Mailchimp holds its schedule
    time), yet the entry appended is a failure and the stored definition has
    no [lastSent] and no [nextScheduled]. *)
Lemma dispatch_success_without_success_entry :
  outcomes (processRecurringCampaigns 6 saveFails)
  = Some (true, [("Daily tips", false, Some "write failed")]) /\
  schedules (worldAfter (processRecurringCampaigns 6 saveFails) saveFails)
  = [("Daily tips", "draft", None, None);
     ("Daily tips - 1/16/2024", "scheduled", None, None)] /\
  map rc_schedule_time
      (remote (worldAfter (processRecurringCampaigns 6 saveFails) saveFails))
  = [Some (midnight 2024 1 16 + 10 * msPerHour + 250)] /\
  ~ (forall fuel c res w now nextDate w2,
        dispatchSucceeds fuel c w now nextDate w2 ->
        exists w3,
          iteration fuel c res w
          = Ret (res ++ [successEntry c nextDate])%list w3).
Proof.
  do 3 (split; [vm_compute; reflexivity |]).
  intros H.
  pose (w := world [dailyTips]
               [None; None; None; None; None; None; Some "write failed"]).
  destruct (H 6%nat dailyTips [] w
              (Num (midnight 2024 1 15 + 10 * msPerHour))
              (Num (midnight 2024 1 16 + 10 * msPerHour + 250))
              (worldAfter
                 (bind (materialize dailyTips
                          (Num (midnight 2024 1 16 + 10 * msPerHour + 250)))
                       dispatch
                       (worldAfter (newDate (worldAfter (newDate w) w)) w))
                 w)) as (w3 & E).
  - eexists _, _. split.
    + eexists _, _, _. repeat split; vm_compute; reflexivity.
    + vm_compute. reflexivity.
  - vm_compute in E. discriminate E.
Qed.

(** C10.  Whenever the initial query answers, the pass returns the report
    [{success: true, message, results}], whose results are those of the
    loop, whatever happens to the dispatches.  With two due definitions and
    a failing template lookup in each dispatch, both entries are failures
    and the flag is still true. *)
Theorem report_succeeds_when_query_answers
    (fuel : nat) (w : World) (cs : list EmailCampaign) (w0 : World) :
  (6 <= fuel)%nat -> clockOK w -> schemaOK (campaigns w) ->
  Store.find Store.recurringQuery w = Ret cs w0 ->
  (exists results w',
      forEachCampaign fuel cs [] w0 = Ret results w' /\
      processRecurringCampaigns fuel w
      = Ret {| report_success := true;
               report_message := "Recurring campaigns processed";
               report_results := Some results; report_error := None |} w') /\
  outcomes (processRecurringCampaigns 6
              (world [monthlyOffers; dailyTips]
                     [None; None; Some "no answer"; None; Some "no answer"]))
  = Some (true, [("Monthly offers", false, Some createError);
                 ("Daily tips", false, Some createError)]).
Proof.
  intros F K V Q. split; [| vm_compute; reflexivity].
  destruct (pass_after_query fuel w cs w0 F K V Q) as (_ & _ & H). exact H.
Qed.

Lemma report_succeeds_when_query_answers_witness :
  exists results w',
    processRecurringCampaigns 6 threeDefinitions
    = Ret {| report_success := true;
             report_message := "Recurring campaigns processed";
             report_results := Some results; report_error := None |} w'.
Proof.
  destruct (report_succeeds_when_query_answers 6 threeDefinitions
              (filter Store.recurringQuery (campaigns threeDefinitions))
              (worldAfter (Store.find Store.recurringQuery threeDefinitions)
                          threeDefinitions))
    as ((results & w' & _ & P) & _).
  - lia.
  - split; [split |]; vm_compute; discriminate.
  - repeat constructor.
  - reflexivity.
  - exists results, w'. exact P.
Defined.

(** The flag is false only when the query itself throws. *)
Lemma report_fails_when_query_throws fuel w e w0 :
  Store.find Store.recurringQuery w = Throw e w0 ->
  processRecurringCampaigns fuel w
  = Ret {| report_success := false;
           report_message := "Error processing recurring campaigns";
           report_results := None; report_error := Some e |} w0.
Proof.
  intros Q. unfold processRecurringCampaigns, tryCatch, bind. now rewrite Q.
Qed.

End Claims_Pass.
(** * Creating and scheduling a campaign in Mailchimp *)

Section CreateAndSchedule.

Lemma updateRemote_fresh id f rs :
  Forall (fun r => rc_id r <> id) rs -> Mailchimp.updateRemote id f rs = rs.
Proof.
  unfold Mailchimp.updateRemote. induction 1 as [| r rs Hr _ IH]; cbn.
  - reflexivity.
  - rewrite IH. destruct (Nat.eqb_spec (rc_id r) id); [contradiction | reflexivity].
Qed.

Lemma updateRemote_new f rs n :
  Forall (fun r => rc_id r <> rc_id n) rs ->
  Mailchimp.updateRemote (rc_id n) f (rs ++ [n]) = (rs ++ [f n])%list.
Proof.
  intros H. unfold Mailchimp.updateRemote. rewrite map_app.
  fold (Mailchimp.updateRemote (rc_id n) f rs).
  rewrite (updateRemote_fresh _ _ _ H). cbn. now rewrite Nat.eqb_refl.
Qed.

Lemma remoteOK_fresh w :
  remoteOK w -> Forall (fun r => rc_id r <> nextRemoteId w) (remote w).
Proof.
  unfold remoteOK, nextRemoteId. apply Forall_impl. intros r. lia.
Qed.

Lemma collaborator_faults w :
  match collaborator w with
  | Ret _ w' => noFaults w -> noFaults w'
  | Throw _ _ => ~ noFaults w
  | Hang => True
  end.
Proof.
  unfold collaborator, noFaults.
  destruct (faults w) as [| [e |] f] eqn:E; cbn.
  - rewrite E. auto.
  - intros H. inversion H as [| ? ? H1 _]. discriminate H1.
  - intros H. now inversion H.
Qed.

(** Every way [createCampaign] can end. *)
Lemma createCampaign_cases c w :
  remoteOK w ->
  exists r w',
    createCampaign c w = Ret r w' /\ quiet w w' /\
    (noFaults w ->
     noFaults w' /\ (templateOf c w <> None -> success r = true)) /\
    ((success r = true /\ data r = Some (nextRemoteId w) /\
      (exists t, templateOf c w = Some t /\
                 remote w'
                 = (remote w
                    ++ [remoteFor w c (Some (htmlContent t)) None])%list) /\
      campaigns w'
      = Store.updateWhere (_id c)
          (Store.setMailchimp (nextRemoteId w) "scheduled") (campaigns w))
     \/
     (success r = false /\ data r = None /\
      message r = "Error creating campaign in Mailchimp" /\
      campaigns w' = campaigns w /\
      (remote w' = remote w \/
       exists content,
         templateOf c w <> None /\
         remote w' = (remote w ++ [remoteFor w c content None])%list))).
Proof.
  intros RK. apply remoteOK_fresh in RK.
  unfold createCampaign, tryCatch, bind, Store.findTemplate.
  unfold bind.
  pose proof (collaborator_frame w) as F1.
  pose proof (collaborator_faults w) as N1.
  destruct (collaborator w) as [[] w1 | e w1 |]; [| | contradiction].
  2:{ eexists _, _. split; [reflexivity |].
      split; [now apply sameButFaults_quiet |].
      split; [intros NF; contradiction |].
      right. unfold sameButFaults in F1. cbn. intuition. }
  assert (T1 : templates w1 = templates w) by apply F1.
  unfold templateOf. rewrite <- T1.
  destruct (List.find _ (templates w1)) as [t |].
  2:{ eexists _, _. split; [reflexivity |].
      split; [now apply sameButFaults_quiet |].
      split; [intros NF; split; [auto | intros H; now contradiction H] |].
      right. unfold sameButFaults in F1. cbn. intuition. }
  unfold Mailchimp.campaignsCreate, bind.
  pose proof (collaborator_frame w1) as F2.
  pose proof (collaborator_faults w1) as N2.
  destruct (collaborator w1) as [[] w2 | e w2 |]; [| | contradiction].
  2:{ eexists _, _. split; [reflexivity |].
      unfold sameButFaults, quiet in *. cbn.
      split; [intuition congruence |].
      split; [intros NF; exfalso; auto |]. right.
      repeat (split; [reflexivity || intuition congruence |]).
      left. intuition congruence. }
  assert (R2 : remote w2 = remote w)
    by (unfold sameButFaults in *; intuition congruence).
  unfold Mailchimp.campaignsSetContent, bind.
  match goal with
  | |- context [collaborator ?x] =>
      pose proof (collaborator_frame x) as F3;
      pose proof (collaborator_faults x) as N3;
      destruct (collaborator x) as [[] w3 | e w3 |]; [| | contradiction]
  end.
  2:{ eexists _, _. split; [reflexivity |].
      unfold sameButFaults, quiet in *. cbn in *.
      split; [intuition congruence |].
      split; [intros NF; exfalso; auto |]. right.
      repeat (split; [reflexivity || intuition congruence |]).
      right. exists None. split; [discriminate |].
      destruct F3 as (_ & _ & _ & -> & _).
      unfold remoteFor, nextRemoteId. now rewrite R2. }
  assert (R3 : remote w3
               = (remote w ++ [remoteFor w c None None])%list).
  { destruct F3 as (_ & _ & _ & -> & _). cbn.
    unfold remoteFor, nextRemoteId. now rewrite R2. }
  assert (R4 : Mailchimp.updateRemote (Datatypes.length (remote w2))
                 (fun r => {| rc_id := rc_id r; rc_title := rc_title r;
                              rc_content := Some (htmlContent t);
                              rc_schedule_time := rc_schedule_time r |})
                 (remote w3)
               = (remote w ++ [remoteFor w c (Some (htmlContent t)) None])%list).
  { rewrite R3, R2.
    change (Datatypes.length (remote w))
      with (rc_id (remoteFor w c None None)).
    now rewrite updateRemote_new. }
  unfold Store.findByIdAndUpdate, bind.
  match goal with
  | |- context [collaborator ?x] =>
      pose proof (collaborator_frame x) as F4;
      pose proof (collaborator_faults x) as N4;
      destruct (collaborator x) as [[] w4 | e w4 |]; [| | contradiction]
  end.
  2:{ eexists _, _. split; [reflexivity |].
      unfold sameButFaults, quiet in *. cbn in *.
      split; [intuition congruence |].
      split; [intros NF; exfalso; auto |]. right.
      repeat (split; [reflexivity || intuition congruence |]).
      right. exists (Some (htmlContent t)). split; [discriminate |].
      destruct F4 as (_ & _ & _ & -> & _). exact R4. }
  eexists _, _. split; [reflexivity |].
  unfold sameButFaults, quiet in *. cbn in *.
  split; [intuition congruence |].
  split; [intros NF; split; [auto | reflexivity] |]. left.
  split; [reflexivity |].
  split; [unfold nextRemoteId; now rewrite R2 |].
  split.
  - exists t. split; [reflexivity |].
    destruct F4 as (_ & _ & _ & -> & _). exact R4.
  - unfold nextRemoteId. rewrite R2.
    destruct F4 as (-> & _). cbn.
    destruct F3 as (-> & _). cbn. destruct F2 as (-> & _).
    destruct F1 as (-> & _). reflexivity.
Qed.

(** Every way [scheduleCampaign] can end. *)
Lemma scheduleCampaign_cases id date w :
  exists r w',
    scheduleCampaign id date w = Ret r w' /\ quiet w w' /\
    campaigns w' = campaigns w /\ (noFaults w -> noFaults w') /\
    match date with
    | Some (Num time) =>
        (noFaults w -> success r = true) /\
        ((success r = true /\ data r = Some id /\
          remote w'
          = Mailchimp.updateRemote id (withScheduleTime time) (remote w)) \/
         (success r = false /\
          message r = "Error scheduling campaign in Mailchimp" /\
          remote w' = remote w))
    | _ =>
        success r = false /\
        message r = "Error scheduling campaign in Mailchimp" /\ w' = w
    end.
Proof.
  unfold scheduleCampaign, tryCatch.
  destruct date as [[| time] |];
    try (eexists _, _; split; [reflexivity |];
         split; [apply quiet_refl |]; cbn; auto).
  unfold Mailchimp.campaignsSchedule, bind.
  pose proof (collaborator_frame w) as F.
  pose proof (collaborator_faults w) as N.
  destruct (collaborator w) as [[] w1 | e w1 |]; [| | contradiction];
    eexists _, _; (split; [reflexivity |]);
    unfold sameButFaults, quiet in *; cbn.
  - split; [intuition congruence |]. split; [apply F |].
    split; [exact N |]. split; [reflexivity |]. left.
    split; [reflexivity |]. split; [reflexivity |].
    destruct F as (_ & _ & _ & -> & _). reflexivity.
  - split; [intuition congruence |]. split; [apply F |].
    split; [intros NF; contradiction |].
    split; [intros NF; contradiction |]. right.
    split; [reflexivity |]. split; [reflexivity |]. apply F.
Qed.

(** Every way the dispatch of a campaign can end: the error of line 866,
    the error of line 876, or a normal end with the remote campaign made,
    filled and scheduled. *)
Lemma dispatch_cases c w :
  remoteOK w ->
  (exists w',
      dispatch c w = Throw createError w' /\ quiet w w' /\
      campaigns w' = campaigns w /\
      (noFaults w -> templateOf c w = None)) \/
  (exists w',
      dispatch c w = Throw scheduleError w' /\ quiet w w' /\
      campaigns w'
      = Store.updateWhere (_id c)
          (Store.setMailchimp (nextRemoteId w) "scheduled") (campaigns w) /\
      (noFaults w -> forall time, scheduledFor c <> Some (Num time))) \/
  (exists t time w',
      dispatch c w = Ret tt w' /\ quiet w w' /\
      templateOf c w = Some t /\ scheduledFor c = Some (Num time) /\
      campaigns w'
      = Store.updateWhere (_id c)
          (Store.setMailchimp (nextRemoteId w) "scheduled") (campaigns w) /\
      remote w'
      = (remote w
         ++ [remoteFor w c (Some (htmlContent t)) (Some time)])%list /\
      (noFaults w -> noFaults w')).
Proof.
  intros RK. unfold dispatch, bind.
  destruct (createCampaign_cases c w RK)
    as (r & w1 & -> & Q1 & NF1 & [C | C]).
  2:{ destruct C as (S & _ & Mg & C & _). rewrite S. cbn [negb]. left.
      exists w1. unfold createFailed, throw. rewrite Mg.
      split; [reflexivity |]. split; [exact Q1 |]. split; [exact C |].
      intros NF. destruct (NF1 NF) as [_ H].
      destruct (templateOf c w); [| reflexivity].
      rewrite H in S; [discriminate S | discriminate]. }
  destruct C as (S & D & (t & T & R1) & C1). rewrite S, D. cbn [negb]. right.
  destruct (scheduleCampaign_cases (nextRemoteId w) (scheduledFor c) w1)
    as (r2 & w2 & -> & Q2 & C2 & NF2 & H).
  assert (Q : quiet w w2) by (eapply quiet_trans; eauto).
  destruct (scheduledFor c) as [[| time] |] eqn:Sch.
  - destruct H as (S2 & Mg & _). rewrite S2. cbn [negb]. left.
    exists w2. unfold scheduleFailed, throw. rewrite Mg.
    split; [reflexivity |]. split; [exact Q |].
    split; [congruence | discriminate].
  - destruct H as (Thr & [(S2 & _ & R2) | (S2 & Mg & _)]);
      rewrite S2; cbn [negb].
    + right. exists t, time, w2. unfold ret.
      split; [reflexivity |]. split; [exact Q |]. split; [exact T |].
      split; [reflexivity |]. split; [congruence |].
      split; [| intros NF; apply NF2, NF1, NF].
      rewrite R2, R1.
      change (nextRemoteId w)
        with (rc_id (remoteFor w c (Some (htmlContent t)) None)).
      rewrite updateRemote_new; [reflexivity |].
      now apply remoteOK_fresh.
    + left. exists w2. unfold scheduleFailed, throw. rewrite Mg.
      split; [reflexivity |]. split; [exact Q |]. split; [congruence |].
      intros NF. destruct (NF1 NF) as [NFa _].
      rewrite (Thr NFa) in S2. discriminate S2.
  - destruct H as (S2 & Mg & _). rewrite S2. cbn [negb]. left.
    exists w2. unfold scheduleFailed, throw. rewrite Mg.
    split; [reflexivity |]. split; [exact Q |].
    split; [congruence | discriminate].
Qed.



(** X2.  [scheduleCampaign] never throws.  Without a date, or with an
    Invalid Date, it reports failure without calling Mailchimp: the world is
    as before.  With a valid date it succeeds when the call goes through,
    and the remote campaign of that id then carries the time; when the call
    throws, it reports failure and Mailchimp holds what it held.  It never
    changes a stored campaign. *)
Theorem scheduleCampaign_outcome id date w :
  exists r w',
    scheduleCampaign id date w = Ret r w' /\ quiet w w' /\
    campaigns w' = campaigns w /\ (noFaults w -> noFaults w') /\
    match date with
    | Some (Num time) =>
        (noFaults w -> success r = true) /\
        ((success r = true /\ data r = Some id /\
          remote w'
          = Mailchimp.updateRemote id (withScheduleTime time) (remote w)) \/
         (success r = false /\
          message r = "Error scheduling campaign in Mailchimp" /\
          remote w' = remote w))
    | _ =>
        success r = false /\
        message r = "Error scheduling campaign in Mailchimp" /\ w' = w
    end.
Proof. apply scheduleCampaign_cases. Qed.

End CreateAndSchedule.
(** * The campaigns the service launches itself *)

Section Launches.

Variable templateType : EmailTemplate -> string.
Variable templateIsDefault : EmailTemplate -> bool.

Lemma newDate_frame w :
  exists t w',
    newDate w = Ret (Num t) w' /\ clock w' = t /\ clock w <= t /\
    t + remainingTicks w' = clock w + remainingTicks w /\
    faults w' = faults w /\ sameStore w w'.
Proof.
  unfold newDate, remainingTicks, sameStore, noFaults.
  destruct (ticks w) as [| n ns] eqn:T.
  - exists (clock w), w. rewrite T. repeat split; auto; lia.
  - eexists _, _. split; [reflexivity |]. cbn. repeat split; auto; lia.
Qed.

Lemma findOneTemplate_effect ty w :
  (exists w0,
      findOneTemplate templateType templateIsDefault ty w
      = Ret (defaultTemplate templateType templateIsDefault ty w) w0 /\
      sameButFaults w w0 /\ (noFaults w -> noFaults w0)) \/
  (exists e w0,
      findOneTemplate templateType templateIsDefault ty w = Throw e w0 /\
      sameButFaults w w0 /\ ~ noFaults w).
Proof.
  unfold findOneTemplate, bind, defaultTemplate.
  pose proof (collaborator_frame w) as F.
  pose proof (collaborator_faults w) as N.
  destruct (collaborator w) as [[] w0 | e w0 |]; [left | right | contradiction].
  - exists w0. assert (T : templates w0 = templates w) by apply F.
    rewrite T. auto.
  - exists e, w0. auto.
Qed.

Lemma Schema_create_cases nm descr ty tpl seg sched rec st w :
  (exists e w',
      Schema.create nm descr ty tpl seg sched rec st w = Throw e w' /\
      sameButFaults w w' /\
      (noFaults w ->
       Schema.validate (Schema.trim nm) ty sched rec st <> None)) \/
  (exists w',
      Schema.create nm descr ty tpl seg sched rec st w
      = Ret {| _id := nextObjectId w; name := Schema.trim nm;
               description := option_map Schema.trim descr; type := ty;
               template := tpl; segment := seg; scheduledFor := Some sched;
               recurring := rec; status := st;
               mailchimpCampaignId := None |} w' /\
      Schema.validate (Schema.trim nm) ty sched rec st = None /\
      campaigns w'
      = (campaigns w
         ++ [{| _id := nextObjectId w; name := Schema.trim nm;
                description := option_map Schema.trim descr; type := ty;
                template := tpl; segment := seg; scheduledFor := Some sched;
                recurring := rec; status := st;
                mailchimpCampaignId := None |}])%list /\
      nextObjectId w' = S (nextObjectId w) /\
      templates w' = templates w /\ remote w' = remote w /\
      clock w' = clock w /\ ticks w' = ticks w /\
      (noFaults w -> noFaults w')).
Proof.
  unfold Schema.create.
  destruct (Schema.validate (Schema.trim nm) ty sched rec st) as [e |].
  - left. exists e, w. split; [reflexivity |].
    split; [unfold sameButFaults; tauto | discriminate].
  - unfold bind.
    pose proof (collaborator_frame w) as F.
    pose proof (collaborator_faults w) as N.
    destruct (collaborator w) as [[] w1 | e w1 |]; [right | left | contradiction].
    + unfold sameButFaults in F.
      destruct F as (F1 & F2 & F3 & F4 & F5 & F6).
      eexists. rewrite F1, F3. split; [reflexivity |]. cbn. auto 10.
    + exists e, w1. auto.
Qed.

Lemma templateOf_default ty c t w :
  templatesOK w ->
  defaultTemplate templateType templateIsDefault ty w = Some t ->
  template c = tpl_id t -> templateOf c w = Some t.
Proof.
  unfold templatesOK, defaultTemplate, templateOf. intros N D ->.
  apply find_some in D. destruct D as [I _].
  induction (templates w) as [| x l IH]; [contradiction |].
  cbn in N. inversion N as [| ? ? Nx Nl]; subst.
  cbn. destruct (Nat.eqb_spec (tpl_id x) (tpl_id t)) as [E | E].
  - destruct I as [-> | I]; [reflexivity |]. exfalso. apply Nx.
    rewrite E. now apply in_map.
  - destruct I as [-> | I]; [contradiction | now apply IH].
Qed.

(** For a document that passes the validators as it is, the creation is
    the one of the scheduler. *)
Lemma Schema_create_Store_create nm descr ty tpl seg t st w :
  Schema.validate (Schema.trim nm) ty (Num t) Store.defaultRecurring st
  = None ->
  Schema.trim nm = nm -> option_map Schema.trim descr = descr ->
  Schema.create nm descr ty tpl seg (Num t) Store.defaultRecurring st w
  = Store.create nm descr ty tpl seg (Num t) st w.
Proof.
  intros V Tn Td. unfold Schema.create, Store.create.
  rewrite V, Tn, Td. reflexivity.
Qed.

(** The part of a launch from the creation of the document on. *)
Lemma launch_tail nm descr ty t seg sched rec done w :
  freshIds w -> remoteOK w ->
  (exists e w',
      bind (Schema.create nm (Some descr) ty (tpl_id t) seg sched rec "draft")
           (fun campaign =>
              bind (dispatch campaign)
                   (fun _ => ret {| Outcome.success := true;
                                    Outcome.message := done;
                                    Outcome.campaign := Some campaign;
                                    Outcome.error := None |})) w
      = Throw e w' /\
      clock w' = clock w /\ ticks w' = ticks w /\
      ((campaigns w' = campaigns w /\
        (noFaults w ->
         Schema.validate (Schema.trim nm) ty sched rec "draft" <> None)) \/
       (campaigns w'
        = (campaigns w ++ [draft w nm descr ty t seg sched rec])%list /\
        (noFaults w ->
         templateOf (draft w nm descr ty t seg sched rec) w = None)) \/
       (campaigns w'
        = (campaigns w
           ++ [marked w (draft w nm descr ty t seg sched rec)])%list /\
        ~ noFaults w))) \/
  (exists tpl time w',
      bind (Schema.create nm (Some descr) ty (tpl_id t) seg sched rec "draft")
           (fun campaign =>
              bind (dispatch campaign)
                   (fun _ => ret {| Outcome.success := true;
                                    Outcome.message := done;
                                    Outcome.campaign := Some campaign;
                                    Outcome.error := None |})) w
      = Ret {| Outcome.success := true; Outcome.message := done;
               Outcome.campaign
               := Some (draft w nm descr ty t seg sched rec);
               Outcome.error := None |} w' /\
      clock w' = clock w /\ ticks w' = ticks w /\
      sched = Num time /\
      templateOf (draft w nm descr ty t seg sched rec) w = Some tpl /\
      campaigns w'
      = (campaigns w
         ++ [marked w (draft w nm descr ty t seg sched rec)])%list /\
      remote w'
      = (remote w
         ++ [remoteFor w (draft w nm descr ty t seg sched rec)
               (Some (htmlContent tpl)) (Some time)])%list /\
      (noFaults w -> noFaults w')).
Proof.
  intros FI RK. set (c := draft w nm descr ty t seg sched rec).
  unfold bind at 1 3.
  destruct (Schema_create_cases nm (Some descr) ty (tpl_id t) seg sched rec
              "draft" w)
    as [(e & w1 & -> & F & V) | (w1 & -> & V & S1 & I1 & T1 & R1 & C1 & K1 & N1)].
  { left. exists e, w1. unfold sameButFaults in F.
    split; [reflexivity |]. split; [apply F |]. split; [apply F |].
    left. split; [apply F | exact V]. }
  cbn [option_map] in *. fold (draft w nm descr ty t seg sched rec) in *.
  fold c in S1 |- *.
  assert (RK1 : remoteOK w1) by (unfold remoteOK in *; now rewrite R1).
  assert (U : forall f, Store.updateWhere (_id c) f (campaigns w1)
                        = (campaigns w ++ [f c])%list).
  { intros f. rewrite S1. apply updateWhere_new.
    unfold freshIds in FI. revert FI. apply Forall_impl.
    intros d Hd. cbn. lia. }
  assert (NR : nextRemoteId w1 = nextRemoteId w)
    by (unfold nextRemoteId; now rewrite R1).
  assert (TO : templateOf c w1 = templateOf c w)
    by (unfold templateOf; now rewrite T1).
  unfold bind.
  destruct (dispatch_cases c w1 RK1)
    as [(w2 & -> & Q & S2 & H) | [(w2 & -> & Q & S2 & H)
       | (tpl & time & w2 & -> & Q & T & Sc & S2 & R2 & N2)]].
  - left. exists createError, w2. unfold quiet in Q.
    split; [reflexivity |].
    split; [destruct Q as (-> & _); exact C1 |].
    split; [destruct Q as (_ & -> & _); exact K1 |].
    right. left. split; [congruence |].
    intros NF. rewrite <- TO. auto.
  - left. exists scheduleError, w2. unfold quiet in Q.
    split; [reflexivity |].
    split; [destruct Q as (-> & _); exact C1 |].
    split; [destruct Q as (_ & -> & _); exact K1 |].
    right. right. split; [unfold marked; rewrite S2, NR; apply U |].
    intros NF. specialize (H (N1 NF)).
    unfold Schema.validate in V.
    destruct (String.eqb (Schema.trim nm) ""); [discriminate V |].
    destruct (negb (Schema.oneOf ty Schema.campaignTypes)); [discriminate V |].
    destruct sched as [| time]; [discriminate V |].
    now apply (H time).
  - right. exists tpl, time, w2. unfold ret, quiet in *.
    split; [reflexivity |].
    split; [destruct Q as (-> & _); exact C1 |].
    split; [destruct Q as (_ & -> & _); exact K1 |].
    split; [cbn in Sc; congruence |].
    split; [congruence |].
    split; [unfold marked; rewrite S2, NR; apply U |].
    split; [| auto].
    rewrite R2, R1. unfold remoteFor. now rewrite NR.
Qed.

Lemma sameStore_of_faults w w' : sameButFaults w w' ->
  (noFaults w -> noFaults w') -> sameStore w w'.
Proof. unfold sameButFaults, sameStore. tauto. Qed.

Lemma sameStore_trans w1 w2 w3 :
  sameStore w1 w2 -> sameStore w2 w3 -> sameStore w1 w3.
Proof. unfold sameStore. intuition congruence. Qed.

Lemma reading_ret {A} (a : A) : reading (ret a).
Proof.
  intros w. exists a, w. unfold ret, sameStore.
  split; [reflexivity |]. repeat split; auto; lia.
Qed.

Lemma reading_newDate {A} (f : Date -> A) :
  reading (d <- newDate ;; ret (f d)).
Proof.
  intros w. unfold bind, ret.
  destruct (newDate_frame w) as (t & w' & -> & C & L & R & F & S).
  exists (f (Num t)), w'. split; [reflexivity |].
  repeat split; try apply S; auto; lia.
Qed.

Lemma reading_newsletterName options : reading (newsletterName options).
Proof.
  unfold newsletterName. destruct (truthyString _).
  - apply reading_ret.
  - apply (reading_newDate (fun d => "Newsletter: " ++ toLocaleDateString d)).
Qed.

Lemma reading_promotionName options : reading (promotionName options).
Proof.
  unfold promotionName. destruct (truthyString _).
  - apply reading_ret.
  - apply (reading_newDate (fun d => "Promotion: " ++ toLocaleDateString d)).
Qed.

Lemma reading_inOneHour : reading inOneHour.
Proof.
  apply (reading_newDate
           (fun now => dateOfValue (JS.add now (Num 3600000)))).
Qed.

Lemma reading_dateOfOptions options : reading (dateOfOptions options).
Proof.
  unfold dateOfOptions. destruct (Options.scheduledFor options).
  - apply reading_ret.
  - apply reading_inOneHour.
Qed.

(** Every way a launch can end. *)
Lemma launch_effect ty notFound nameOf dateOf descr seg rec done failed w :
  reading nameOf -> reading dateOf -> freshIds w -> remoteOK w ->
  exists r w',
    launch templateType templateIsDefault ty notFound nameOf dateOf descr
      seg rec done failed w = Ret r w' /\
    launchOutcome ty rec w r w' /\
    clock w <= clock w' /\
    clock w' + remainingTicks w' = clock w + remainingTicks w /\
    (defaultTemplate templateType templateIsDefault ty w = None ->
     sameButFaults w w' /\ Outcome.success r = false /\
     (noFaults w -> Outcome.error r = Some notFound)) /\
    (forall t,
        defaultTemplate templateType templateIsDefault ty w = Some t ->
        noFaults w -> templatesOK w ->
        exists wq nm wa sched wb,
          sameButFaults w wq /\ nameOf wq = Ret nm wa /\
          dateOf wa = Ret sched wb /\ clock w' = clock wb /\
          (Schema.validate (Schema.trim nm) ty sched rec "draft" = None ->
           noFaults w' /\
           r = {| Outcome.success := true; Outcome.message := done;
                  Outcome.campaign
                  := Some (draft w nm descr ty t seg sched rec);
                  Outcome.error := None |})).
Proof.
  intros Hn Hd FI RK. unfold launch, tryCatch. unfold bind at 1.
  destruct (findOneTemplate_effect ty w)
    as [(w0 & -> & F0 & N0) | (e & w0 & -> & F0 & N0)].
  2:{ (* the lookup throws *)
      eexists _, _. split; [reflexivity |]. unfold sameButFaults in F0.
      split; [right; cbn; repeat split; [discriminate | left; apply F0] |].
      split; [destruct F0 as (_ & _ & _ & _ & -> & _); lia |].
      split; [unfold remainingTicks;
              destruct F0 as (_ & _ & _ & _ & -> & ->); lia |].
      split; [intros _; cbn; repeat split; try apply F0; intros NF;
              contradiction |].
      intros t _ NF. contradiction. }
  destruct (defaultTemplate templateType templateIsDefault ty w) as [t |] eqn:D.
  2:{ (* no default template *)
      eexists _, _. split; [reflexivity |]. unfold sameButFaults in F0.
      split; [right; cbn; repeat split; [discriminate | left; apply F0] |].
      split; [destruct F0 as (_ & _ & _ & _ & -> & _); lia |].
      split; [unfold remainingTicks;
              destruct F0 as (_ & _ & _ & _ & -> & ->); lia |].
      split; [intros _; cbn; repeat split; try apply F0; auto |].
      intros t E. discriminate E. }
  destruct (Hn w0) as (nm & wa & En & Sa & Fa & Ca & Ra).
  destruct (Hd wa) as (sched & wb & Ed & Sb & Fb & Cb & Rb).
  unfold bind at 1. rewrite En. unfold bind at 1. rewrite Ed.
  assert (S : sameStore w wb).
  { eapply sameStore_trans; [| exact Sb].
    eapply sameStore_trans; [| exact Sa].
    now apply sameStore_of_faults. }
  destruct S as (S1 & S2 & S3 & S4 & S5).
  assert (FIb : freshIds wb) by (unfold freshIds in *; now rewrite S1, S3).
  assert (RKb : remoteOK wb) by (unfold remoteOK in *; now rewrite S4).
  assert (C0 : clock w0 = clock w /\ ticks w0 = ticks w)
    by (unfold sameButFaults in F0; tauto).
  assert (R0 : remainingTicks w0 = remainingTicks w)
    by (unfold remainingTicks; destruct C0 as [_ ->]; reflexivity).
  destruct C0 as [C0 _].
  assert (Dr : draft wb nm descr ty t seg sched rec
               = draft w nm descr ty t seg sched rec)
    by (unfold draft; now rewrite S3).
  assert (Mk : forall c, marked wb c = marked w c)
    by (intros c; unfold marked, nextRemoteId; now rewrite S4).
  assert (Rf : forall c x y, remoteFor wb c x y = remoteFor w c x y)
    by (intros c x y; unfold remoteFor, nextRemoteId; now rewrite S4).
  assert (To : forall c, templateOf c wb = templateOf c w)
    by (intros c; unfold templateOf; now rewrite S2).
  destruct (launch_tail nm descr ty t seg sched rec done wb FIb RKb)
    as [(e & w' & E & Cw & Kw & H)
       | (tpl & time & w' & E & Cw & Kw & Sc & T & Sw & Rw & Nw)].
  - (* the creation or the dispatch throws *)
    rewrite E. eexists _, _. split; [reflexivity |].
    rewrite Dr, Mk, To, S1 in H.
    split.
    { right. cbn. repeat split; [discriminate |].
      destruct H as [(H & _) | [(H & _) | (H & _)]].
      - left. exact H.
      - right. eexists. repeat split; [.. | left; exact H]; reflexivity.
      - right. eexists. repeat split; [.. | right; exact H]; reflexivity. }
    split; [lia |].
    split; [unfold remainingTicks in *; rewrite Cw, Kw; lia |].
    split; [intros E'; discriminate E' |].
    intros t' E' NF TK. injection E' as <-.
    exists w0, nm, wa, sched, wb.
    split; [exact F0 |]. split; [exact En |]. split; [exact Ed |].
    split; [exact Cw |]. intros V. exfalso.
    destruct H as [(_ & H) | [(_ & H) | (_ & H)]].
    + now apply (H (S5 NF)).
    + rewrite (templateOf_default ty (draft w nm descr ty t seg sched rec)
                 t w TK D eq_refl) in H.
      specialize (H (S5 NF)). discriminate H.
    + apply H, S5, NF.
  - rewrite E. eexists _, _. split; [reflexivity |].
    rewrite Dr, Mk, To, S1 in *. rewrite Rf, S4 in Rw.
    split.
    { left. cbn. repeat split.
      exists (draft w nm descr ty t seg sched rec), tpl, time.
      repeat split; auto. cbn. now rewrite Sc. }
    split; [lia |].
    split; [unfold remainingTicks in *; rewrite Cw, Kw; lia |].
    split; [intros E'; discriminate E' |].
    intros t' E' NF TK. injection E' as <-.
    exists w0, nm, wa, sched, wb.
    split; [exact F0 |]. split; [exact En |]. split; [exact Ed |].
    split; [exact Cw |]. intros _. split; [apply Nw, S5, NF | reflexivity].
Qed.

End Launches.



(** The three launches are instances of the shape [launch]. *)
Lemma scheduleNewsletter_launch templateType templateIsDefault options :
  scheduleNewsletter templateType templateIsDefault options
  = launch templateType templateIsDefault "newsletter"
      "Default newsletter template not found"
      (newsletterName options) (dateOfOptions options)
      (descriptionOr options "Regular newsletter campaign")
      (segmentOf options) (ruleOf options)
      "Newsletter campaign scheduled successfully"
      "Error scheduling newsletter campaign".
Proof. reflexivity. Qed.

Lemma schedulePromotionalCampaign_launch templateType templateIsDefault
    options :
  schedulePromotionalCampaign templateType templateIsDefault options
  = launch templateType templateIsDefault "promotional"
      "Default promotional template not found"
      (promotionName options) (dateOfOptions options)
      (descriptionOr options "Promotional campaign")
      (segmentOf options) Store.defaultRecurring
      "Promotional campaign scheduled successfully"
      "Error scheduling promotional campaign".
Proof. reflexivity. Qed.

Lemma processNewProductAnnouncement_launch templateType templateIsDefault
    product :
  processNewProductAnnouncement templateType templateIsDefault product
  = launch templateType templateIsDefault "product_announcement"
      "Default product announcement template not found"
      (ret ("New Product: " ++ Product.title product)) inOneHour
      ("Announcement for new product: " ++ Product.title product)
      (interestsOf product) Store.defaultRecurring
      "New product announcement processed successfully"
      "Error processing new product announcement".
Proof. reflexivity. Qed.

Lemma trim_nonblank c s :
  Schema.isWhiteSpace c = false -> Schema.trim (String c s) <> EmptyString.
Proof.
  intros H. unfold Schema.trim. cbn [Schema.trimStart]. rewrite H.
  cbn [Schema.trimEnd]. rewrite H.
  destruct (Schema.trimEnd s); discriminate.
Qed.

Lemma launchOutcome_success ty rec w w' done c :
  launchOutcome ty rec w
    {| Outcome.success := true; Outcome.message := done;
       Outcome.campaign := Some c; Outcome.error := None |} w' ->
  exists t time,
    templateOf c w = Some t /\ scheduledFor c = Some (Num time) /\
    campaigns w' = (campaigns w ++ [marked w c])%list /\
    remote w'
    = (remote w ++ [remoteFor w c (Some (htmlContent t)) (Some time)])%list.
Proof.
  intros [(_ & _ & c' & t & time & E & H) | (E & _)]; [| discriminate E].
  cbn in E. injection E as <-. exists t, time. tauto.
Qed.

(** X3.  Without a default template of its type, each of the three
    launches reports a failure and does nothing else: no campaign is
    stored, Mailchimp is not called and the clock is not read.  The error
    is the one naming the missing template, unless the lookup itself
    threw. *)
Theorem launch_without_default_template templateType templateIsDefault
    options product w :
  (defaultTemplate templateType templateIsDefault "newsletter" w = None ->
   exists r w',
     scheduleNewsletter templateType templateIsDefault options w = Ret r w' /\
     sameButFaults w w' /\ Outcome.success r = false /\
     Outcome.error r
     = match faults w with
       | Some e :: _ => Some e
       | _ => Some "Default newsletter template not found"
       end) /\
  (defaultTemplate templateType templateIsDefault "promotional" w = None ->
   exists r w',
     schedulePromotionalCampaign templateType templateIsDefault options w
     = Ret r w' /\
     sameButFaults w w' /\ Outcome.success r = false /\
     Outcome.error r
     = match faults w with
       | Some e :: _ => Some e
       | _ => Some "Default promotional template not found"
       end) /\
  (defaultTemplate templateType templateIsDefault "product_announcement" w
   = None ->
   exists r w',
     processNewProductAnnouncement templateType templateIsDefault product w
     = Ret r w' /\
     sameButFaults w w' /\ Outcome.success r = false /\
     Outcome.error r
     = match faults w with
       | Some e :: _ => Some e
       | _ => Some "Default product announcement template not found"
       end).
Proof.
  assert (G : forall ty notFound nameOf dateOf descr seg rec done failed,
             defaultTemplate templateType templateIsDefault ty w = None ->
             exists r w',
               launch templateType templateIsDefault ty notFound nameOf
                 dateOf descr seg rec done failed w = Ret r w' /\
               sameButFaults w w' /\ Outcome.success r = false /\
               Outcome.error r
               = match faults w with
                 | Some e :: _ => Some e
                 | _ => Some notFound
                 end).
  { intros ty notFound nameOf dateOf descr seg rec done failed D.
    unfold defaultTemplate in D.
    unfold launch, tryCatch. unfold bind at 1.
    unfold findOneTemplate, bind, collaborator.
    destruct (faults w) as [| [e |] f]; cbn; try rewrite D;
      eexists _, _; (split; [reflexivity |]);
      unfold sameButFaults; cbn; tauto. }
  split; [| split].
  - exact (G "newsletter" "Default newsletter template not found"
             (newsletterName options) (dateOfOptions options)
             (descriptionOr options "Regular newsletter campaign")
             (segmentOf options) (ruleOf options)
             "Newsletter campaign scheduled successfully"
             "Error scheduling newsletter campaign").
  - exact (G "promotional" "Default promotional template not found"
             (promotionName options) (dateOfOptions options)
             (descriptionOr options "Promotional campaign")
             (segmentOf options) Store.defaultRecurring
             "Promotional campaign scheduled successfully"
             "Error scheduling promotional campaign").
  - exact (G "product_announcement"
             "Default product announcement template not found"
             (ret ("New Product: " ++ Product.title product)) inOneHour
             ("Announcement for new product: " ++ Product.title product)
             (interestsOf product) Store.defaultRecurring
             "New product announcement processed successfully"
             "Error processing new product announcement").
Qed.

Lemma launch_without_default_template_witness :
  exists r w',
    schedulePromotionalCampaign allNewsletter allDefault noOptions
      (world [] []) = Ret r w' /\
    sameButFaults (world [] []) w' /\ Outcome.success r = false /\
    Outcome.error r = Some "Default promotional template not found".
Proof.
  apply (launch_without_default_template allNewsletter allDefault noOptions
           sprayBooth (world [] [])).
  reflexivity.
Defined.

(** X4.  Each of the three launches always returns a result, never an
    exception.  A success means: the new campaign is stored, marked
    scheduled with the id Mailchimp gave, and Mailchimp holds one more
    campaign with the template's content and the campaign's date; the
    campaign in the result is the document as first stored, still a draft
    without Mailchimp id.  A failure leaves the stored campaigns as they
    were, or with the new campaign added, as a draft or already marked
    scheduled; no campaign stored before is touched. *)
Theorem launch_outcome templateType templateIsDefault options product w :
  freshIds w -> remoteOK w ->
  (exists r w',
      scheduleNewsletter templateType templateIsDefault options w
      = Ret r w' /\
      launchOutcome "newsletter" (ruleOf options) w r w') /\
  (exists r w',
      schedulePromotionalCampaign templateType templateIsDefault options w
      = Ret r w' /\
      launchOutcome "promotional" Store.defaultRecurring w r w') /\
  (exists r w',
      processNewProductAnnouncement templateType templateIsDefault product w
      = Ret r w' /\
      launchOutcome "product_announcement" Store.defaultRecurring w r w').
Proof.
  intros FI RK. split; [| split].
  - destruct (launch_effect templateType templateIsDefault "newsletter"
                "Default newsletter template not found"
                (newsletterName options) (dateOfOptions options)
                (descriptionOr options "Regular newsletter campaign")
                (segmentOf options) (ruleOf options)
                "Newsletter campaign scheduled successfully"
                "Error scheduling newsletter campaign" w
                (reading_newsletterName options)
                (reading_dateOfOptions options) FI RK)
      as (r & w' & E & L & _).
    exists r, w'. split; [exact E | exact L].
  - destruct (launch_effect templateType templateIsDefault "promotional"
                "Default promotional template not found"
                (promotionName options) (dateOfOptions options)
                (descriptionOr options "Promotional campaign")
                (segmentOf options) Store.defaultRecurring
                "Promotional campaign scheduled successfully"
                "Error scheduling promotional campaign" w
                (reading_promotionName options)
                (reading_dateOfOptions options) FI RK)
      as (r & w' & E & L & _).
    exists r, w'. split; [exact E | exact L].
  - destruct (launch_effect templateType templateIsDefault
                "product_announcement"
                "Default product announcement template not found"
                (ret ("New Product: " ++ Product.title product)) inOneHour
                ("Announcement for new product: " ++ Product.title product)
                (interestsOf product) Store.defaultRecurring
                "New product announcement processed successfully"
                "Error processing new product announcement" w
                (reading_ret _) reading_inOneHour FI RK)
      as (r & w' & E & L & _).
    exists r, w'. split; [exact E | exact L].
Qed.

Lemma launch_outcome_witness :
  exists r w',
    scheduleNewsletter allNewsletter allDefault weeklyOptions (world [] [])
    = Ret r w' /\
    launchOutcome "newsletter" (ruleOf weeklyOptions) (world [] []) r w'.
Proof.
  apply (launch_outcome allNewsletter allDefault weeklyOptions sprayBooth
           (world [] [])); constructor.
Defined.


(** A launch with no call failing, a default template and a document the
    schema accepts. *)
Lemma launch_through templateType templateIsDefault ty notFound nameOf dateOf
    descr seg rec done failed t w :
  reading nameOf -> reading dateOf ->
  noFaults w -> freshIds w -> remoteOK w -> templatesOK w ->
  defaultTemplate templateType templateIsDefault ty w = Some t ->
  exists wq nm wa sched wb r w',
    sameButFaults w wq /\ nameOf wq = Ret nm wa /\
    dateOf wa = Ret sched wb /\
    clock w <= clock wa <= clock wb /\
    clock wb + remainingTicks wb = clock w + remainingTicks w /\
    launch templateType templateIsDefault ty notFound nameOf dateOf descr
      seg rec done failed w = Ret r w' /\
    clock w' = clock wb /\
    (forall time,
        sched = Num time ->
        Schema.validate (Schema.trim nm) ty sched rec "draft" = None ->
        r = {| Outcome.success := true; Outcome.message := done;
               Outcome.campaign
               := Some (draft w nm descr ty t seg (Num time) rec);
               Outcome.error := None |} /\
        campaigns w'
        = (campaigns w
           ++ [marked w (draft w nm descr ty t seg (Num time) rec)])%list /\
        remote w'
        = (remote w
           ++ [remoteFor w (draft w nm descr ty t seg (Num time) rec)
                 (Some (htmlContent t)) (Some time)])%list /\
        noFaults w').
Proof.
  intros Hn Hd NF FI RK TK D.
  destruct (launch_effect templateType templateIsDefault ty notFound nameOf
              dateOf descr seg rec done failed w Hn Hd FI RK)
    as (r & w' & E & L & _ & _ & _ & P).
  destruct (P t D NF TK) as (wq & nm & wa & sched & wb & Fq & En & Ed & Cw & V).
  exists wq, nm, wa, sched, wb, r, w'.
  destruct (Hn wq) as (nm' & wa' & En' & _ & _ & Ca & Ra).
  rewrite En in En'. injection En' as <- <-.
  destruct (Hd wa) as (sched' & wb' & Ed' & _ & _ & Cb & Rb).
  rewrite Ed in Ed'. injection Ed' as <- <-.
  assert (Cq : clock wq = clock w /\ remainingTicks wq = remainingTicks w).
  { unfold sameButFaults, remainingTicks in *.
    destruct Fq as (_ & _ & _ & _ & -> & ->). auto. }
  destruct Cq as [Cq Rq].
  split; [exact Fq |]. split; [exact En |]. split; [exact Ed |].
  split; [lia |]. split; [lia |]. split; [exact E |]. split; [exact Cw |].
  intros time -> V0. destruct (V V0) as [NF' ->].
  apply launchOutcome_success in L.
  destruct L as (t' & time' & T & Sc & Sw & Rw).
  rewrite (templateOf_default templateType templateIsDefault ty
             (draft w nm descr ty t seg (Num time) rec) t w TK D eq_refl) in T.
  injection T as <-. cbn in Sc. injection Sc as <-. auto.
Qed.

Lemma inOneHour_value w sched wb :
  inOneHour w = Ret sched wb -> clockOK w ->
  clock w <= clock wb ->
  clock wb + remainingTicks wb = clock w + remainingTicks w ->
  sched = Num (clock wb + 3600000).
Proof.
  unfold inOneHour, dateNow, bind, ret. intros E K L R.
  destruct (newDate_effect w) as (t & w1 & N & C & _).
  rewrite N in E. injection E as <- <-.
  destruct (clockOK_reading w (clock w1) w1 K eq_refl L R) as (I & U & _).
  rewrite C. cbn [JS.add dateOfValue]. apply TimeClip_inRange.
  unfold inRange in *.
  assert (lastStart + 3600000 <= maxTimeValue) by (vm_compute; discriminate).
  assert (- maxTimeValue <= 0) by (vm_compute; discriminate).
  lia.
Qed.



(** X6.  With a default product announcement template and no call
    failing, [processNewProductAnnouncement] succeeds for every product:
    the campaign it stores is named "New Product: " and the title, targets
    the interest named after the product's category, or all-products
    without category, is not recurring and is dated one hour after the
    clock was read; it is stored marked scheduled, and Mailchimp holds it
    with the template's content, scheduled for that date. *)
Theorem product_announcement_goes_through templateType templateIsDefault
    product t w :
  noFaults w -> freshIds w -> remoteOK w -> templatesOK w -> clockOK w ->
  defaultTemplate templateType templateIsDefault "product_announcement" w
  = Some t ->
  exists w',
    processNewProductAnnouncement templateType templateIsDefault product w
    = Ret {| Outcome.success := true;
             Outcome.message
             := "New product announcement processed successfully";
             Outcome.campaign
             := Some (draft w ("New Product: " ++ Product.title product)
                        ("Announcement for new product: "
                         ++ Product.title product)
                        "product_announcement" t (interestsOf product)
                        (Num (clock w' + 3600000)) Store.defaultRecurring);
             Outcome.error := None |} w' /\
    campaigns w'
    = (campaigns w
       ++ [marked w
             (draft w ("New Product: " ++ Product.title product)
                ("Announcement for new product: " ++ Product.title product)
                "product_announcement" t (interestsOf product)
                (Num (clock w' + 3600000)) Store.defaultRecurring)])%list /\
    remote w'
    = (remote w
       ++ [remoteFor w
             (draft w ("New Product: " ++ Product.title product)
                ("Announcement for new product: " ++ Product.title product)
                "product_announcement" t (interestsOf product)
                (Num (clock w' + 3600000)) Store.defaultRecurring)
             (Some (htmlContent t)) (Some (clock w' + 3600000))])%list /\
    noFaults w'.
Proof.
  intros NF FI RK TK K D.
  destruct (launch_through templateType templateIsDefault
              "product_announcement"
              "Default product announcement template not found"
              (ret ("New Product: " ++ Product.title product)) inOneHour
              ("Announcement for new product: " ++ Product.title product)
              (interestsOf product) Store.defaultRecurring
              "New product announcement processed successfully"
              "Error processing new product announcement" t w
              (reading_ret _) reading_inOneHour NF FI RK TK D)
    as (wq & nm & wa & sched & wb & r & w' & Fq & En & Ed & Cl & Rm & E & Cw
        & H).
  unfold ret in En. injection En as <- <-.
  assert (Kq : clockOK wq /\ clock wq = clock w
               /\ clock wb + remainingTicks wb
                  = clock wq + remainingTicks wq).
  { unfold sameButFaults, clockOK, remainingTicks in *.
    destruct Fq as (_ & _ & _ & _ & -> & ->). auto. }
  destruct Kq as (Kq & Cq & Rq).
  assert (S : sched = Num (clock wb + 3600000))
    by (apply (inOneHour_value wq); auto; lia).
  rewrite <- Cw in S.
  assert (V : Schema.validate
                (Schema.trim ("New Product: " ++ Product.title product))
                "product_announcement" sched Store.defaultRecurring "draft"
              = None).
  { unfold Schema.validate.
    assert (N : Schema.trim ("New Product: " ++ Product.title product)
                <> EmptyString) by now apply trim_nonblank.
    apply String.eqb_neq in N. rewrite N, S. reflexivity. }
  destruct (H (clock w' + 3600000) S V) as (-> & Sw & Rw & NF').
  exists w'. change (processNewProductAnnouncement templateType
                       templateIsDefault product w)
    with (launch templateType templateIsDefault "product_announcement"
            "Default product announcement template not found"
            (ret ("New Product: " ++ Product.title product)) inOneHour
            ("Announcement for new product: " ++ Product.title product)
            (interestsOf product) Store.defaultRecurring
            "New product announcement processed successfully"
            "Error processing new product announcement" w).
  auto.
Qed.

Lemma product_announcement_goes_through_witness :
  exists w',
    processNewProductAnnouncement allAnnouncement allDefault sprayBooth
      (world [] []) = Ret
      {| Outcome.success := true;
         Outcome.message := "New product announcement processed successfully";
         Outcome.campaign
         := Some (draft (world [] []) "New Product: Spray booth"
                    "Announcement for new product: Spray booth"
                    "product_announcement"
                    {| tpl_id := 0%nat; subject := "News";
                       htmlContent := "<p>News</p>";
                       mailchimpTemplateId := Some 7%nat |}
                    [("interests", ["booths"])]
                    (Num (clock w' + 3600000)) Store.defaultRecurring);
         Outcome.error := None |} w'.
Proof.
  destruct (product_announcement_goes_through allAnnouncement allDefault
              sprayBooth
              {| tpl_id := 0%nat; subject := "News";
                 htmlContent := "<p>News</p>";
                 mailchimpTemplateId := Some 7%nat |} (world [] []))
    as (w' & E & _).
  - constructor.
  - constructor.
  - constructor.
  - repeat constructor. cbn. tauto.
  - split; [split |]; vm_compute; discriminate.
  - reflexivity.
  - exists w'. exact E.
Defined.

Lemma lookup_new id cs n :
  Forall (fun d => _id d <> id) cs -> _id n = id ->
  lookup id (cs ++ [n]) = Some n.
Proof.
  intros H E. unfold lookup. induction H as [| d cs Hd _ IH]; cbn.
  - now rewrite E, Nat.eqb_refl.
  - destruct (Nat.eqb_spec (_id d) id); [contradiction | exact IH].
Qed.

(** X7.  A newsletter that [scheduleNewsletter] has scheduled is stored
    with the rule of the options and the status scheduled, so the query of
    the recurring pass (enabled, status draft or sent) selects after the
    launch exactly the campaigns it selected before: not the newsletter,
    even when its rule is enabled. *)
Theorem scheduled_newsletter_not_selected templateType templateIsDefault
    options w :
  freshIds w -> remoteOK w ->
  exists r w',
    scheduleNewsletter templateType templateIsDefault options w = Ret r w' /\
    (Outcome.success r = true ->
     (exists c,
         Outcome.campaign r = Some c /\
         lookup (nextObjectId w) (campaigns w') = Some (marked w c) /\
         recurring (marked w c) = ruleOf options /\
         status (marked w c) = "scheduled") /\
     filter Store.recurringQuery (campaigns w')
     = filter Store.recurringQuery (campaigns w)).
Proof.
  intros FI RK.
  destruct (launch_effect templateType templateIsDefault "newsletter"
              "Default newsletter template not found"
              (newsletterName options) (dateOfOptions options)
              (descriptionOr options "Regular newsletter campaign")
              (segmentOf options) (ruleOf options)
              "Newsletter campaign scheduled successfully"
              "Error scheduling newsletter campaign" w
              (reading_newsletterName options)
              (reading_dateOfOptions options) FI RK)
    as (r & w' & E & L & _).
  exists r, w'. split; [exact E |]. intros S.
  destruct L
    as [(_ & _ & c & t & time & Ec & Ic & _ & Rc & _ & _ & _ & _ & Sw & _)
       | (F & _)]; [| congruence].
  split.
  - exists c. split; [exact Ec |]. split; [| split; [exact Rc | reflexivity]].
    rewrite Sw. apply lookup_new; [| exact Ic].
    unfold freshIds in FI. revert FI. apply Forall_impl. intros d. lia.
  - rewrite Sw, filter_app. cbn.
    unfold Store.recurringQuery at 2. cbn. rewrite andb_false_r.
    now rewrite app_nil_r.
Qed.

Lemma scheduled_newsletter_not_selected_witness :
  exists r w',
    scheduleNewsletter allNewsletter allDefault weeklyOptions
      (world [dailyTips] []) = Ret r w' /\
    (Outcome.success r = true ->
     filter Store.recurringQuery (campaigns w') = [dailyTips]).
Proof.
  destruct (scheduled_newsletter_not_selected allNewsletter allDefault
              weeklyOptions (world [dailyTips] []))
    as (r & w' & E & H).
  - repeat constructor.
  - constructor.
  - exists r, w'. split; [exact E |]. intros S. now destruct (H S).
Defined.
(** * What a pass of the scheduler leaves alone *)

Section PassFrame.

Lemma forEachCampaign_nothing_due fuel cs :
  forall res w,
    Forall (notDueBefore (clock w + remainingTicks w)) cs ->
    exists w',
      forEachCampaign fuel cs res w = Ret res w' /\
      campaigns w' = campaigns w /\ remote w' = remote w /\
      templates w' = templates w /\ nextObjectId w' = nextObjectId w /\
      faults w' = faults w.
Proof.
  induction cs as [| c cs IH]; intros res w H.
  - exists w. cbn. unfold ret. repeat split; reflexivity.
  - inversion H as [| ? ? Hc Hcs]; subst.
    destruct (newDate_frame w) as (t & w1 & N & C & L & R & F & S).
    assert (P : 0 <= remainingTicks w1)
      by (unfold remainingTicks; apply N2Z.is_nonneg).
    assert (D : isDue (nextScheduled (recurring c)) (Num t) = false).
    { unfold notDueBefore in Hc. unfold isDue.
      destruct (nextScheduled (recurring c)) as [[| n] |];
        [reflexivity | | contradiction].
      cbn. apply Z.leb_gt. lia. }
    cbn [forEachCampaign]. unfold bind at 1.
    rewrite (iteration_not_due fuel c res w (Num t) w1 N D).
    destruct (IH res w1) as (w' & E & H1 & H2 & H3 & H4 & H5).
    { rewrite C, R. exact Hcs. }
    destruct S as (S1 & S2 & S3 & S4 & _).
    exists w'. split; [exact E |]. repeat split; congruence.
Qed.

Lemma find_by_faults q w :
  Store.find q w
  = match faults w with
    | [] => Ret (filter q (campaigns w)) w
    | None :: f =>
        Ret (filter q (campaigns w))
            {| campaigns := campaigns w; templates := templates w;
               nextObjectId := nextObjectId w; remote := remote w;
               clock := clock w; ticks := ticks w; faults := f |}
    | Some e :: f =>
        Throw e
              {| campaigns := campaigns w; templates := templates w;
                 nextObjectId := nextObjectId w; remote := remote w;
                 clock := clock w; ticks := ticks w; faults := f |}
    end.
Proof.
  unfold Store.find, bind, collaborator.
  destruct (faults w) as [| [e |] f]; reflexivity.
Qed.

(** X8.  A pass in which no selected definition is due (each has a
    [nextScheduled] that no reading of the clock reaches) stores nothing
    and creates nothing in Mailchimp; it reports success with no result,
    unless the query itself throws; this for every bound on the
    day-of-week loop and whatever the rules are. *)
Theorem pass_with_nothing_due fuel w :
  Forall (notDueBefore (clock w + remainingTicks w))
         (filter Store.recurringQuery (campaigns w)) ->
  exists report w',
    processRecurringCampaigns fuel w = Ret report w' /\
    campaigns w' = campaigns w /\ remote w' = remote w /\
    templates w' = templates w /\ nextObjectId w' = nextObjectId w /\
    match faults w with
    | Some e :: _ =>
        report_success report = false /\ report_error report = Some e
    | _ => report_success report = true /\ report_results report = Some []
    end.
Proof.
  intros H. unfold processRecurringCampaigns, tryCatch. unfold bind at 1.
  rewrite find_by_faults.
  destruct (faults w) as [| [e |] f].
  - destruct (forEachCampaign_nothing_due fuel
                (filter Store.recurringQuery (campaigns w)) [] w H)
      as (w' & E' & H1 & H2 & H3 & H4 & _).
    unfold bind. rewrite E'. eexists _, _. split; [reflexivity |].
    cbn. auto 10.
  - eexists _, _. split; [reflexivity |]. cbn. auto 10.
  - unfold bind.
    match goal with
    | |- context [forEachCampaign fuel ?cs [] ?x] =>
        destruct (forEachCampaign_nothing_due fuel cs [] x H)
          as (w' & E' & H1 & H2 & H3 & H4 & _)
    end.
    rewrite E'. eexists _, _. split; [reflexivity |].
    cbn in *. auto 10.
Qed.

Lemma pass_with_nothing_due_witness :
  exists report w',
    processRecurringCampaigns 0 (world [scheduledDigest] []) = Ret report w' /\
    campaigns w' = [scheduledDigest] /\ report_results report = Some [].
Proof.
  destruct (pass_with_nothing_due 0 (world [scheduledDigest] []))
    as (report & w' & E & C & _ & _ & _ & _ & R).
  - constructor; [vm_compute; reflexivity | constructor].
  - exists report, w'. split; [exact E |]. split; [exact C | exact R].
Defined.

Lemma rescheduled_refl d : rescheduled d d.
Proof. unfold rescheduled. destruct d as [? ? ? ? ? ? ? [] ? ?]. reflexivity. Qed.

Lemma rescheduled_setSchedule a b d : rescheduled d (setSchedule a b d).
Proof. reflexivity. Qed.

Lemma rescheduled_trans d1 d2 d3 :
  rescheduled d1 d2 -> rescheduled d2 d3 -> rescheduled d1 d3.
Proof. unfold rescheduled. intros H1 ->. rewrite H1. reflexivity. Qed.

Lemma rescheduled_keeps d d' :
  rescheduled d d' ->
  _id d' = _id d /\ enabled (recurring d') = enabled (recurring d) /\
  status d' = status d.
Proof. unfold rescheduled. intros ->. cbn. auto. Qed.

Lemma Forall2_rescheduled_updateWhere id a b cs :
  Forall2 rescheduled cs (Store.updateWhere id (setSchedule a b) cs).
Proof.
  unfold Store.updateWhere. induction cs as [| d cs IH]; cbn; constructor.
  - destruct (Nat.eqb (_id d) id);
      [apply rescheduled_setSchedule | apply rescheduled_refl].
  - exact IH.
Qed.

Lemma Forall2_rescheduled_refl cs : Forall2 rescheduled cs cs.
Proof. induction cs; constructor; [apply rescheduled_refl | assumption]. Qed.

Lemma Forall2_rescheduled_trans cs1 :
  forall cs2 cs3,
    Forall2 rescheduled cs1 cs2 -> Forall2 rescheduled cs2 cs3 ->
    Forall2 rescheduled cs1 cs3.
Proof.
  induction cs1 as [| d cs1 IH]; intros cs2 cs3 H1 H2.
  - inversion H1; subst. inversion H2; subst. constructor.
  - inversion H1 as [| ? d2 ? l2 Hd Hl]; subst.
    inversion H2 as [| ? d3 ? l3 Hd' Hl']; subst.
    constructor; [eapply rescheduled_trans; eauto | eapply IH; eauto].
Qed.

Lemma grownFrom_refl next cs : grownFrom next cs cs.
Proof.
  exists cs, []. rewrite app_nil_r.
  split; [reflexivity |]. split; [apply Forall2_rescheduled_refl | constructor].
Qed.

Lemma grownFrom_trans n1 n2 cs1 cs2 cs3 :
  (n1 <= n2)%nat ->
  grownFrom n1 cs1 cs2 -> grownFrom n2 cs2 cs3 -> grownFrom n1 cs1 cs3.
Proof.
  intros L (old2 & news2 & -> & O2 & N2) (old3 & news3 & -> & O3 & N3).
  apply Forall2_app_inv_l in O3.
  destruct O3 as (o3a & o3b & Oa & Ob & ->).
  exists o3a, (o3b ++ news3)%list.
  split; [now rewrite app_assoc |].
  split; [eapply Forall2_rescheduled_trans; eauto |].
  apply Forall_app. split.
  - clear - N2 Ob. induction Ob as [| n n' l l' Hn _ IH]; [constructor |].
    inversion N2 as [| ? ? [E I] N2']; subst.
    apply rescheduled_keeps in Hn. destruct Hn as (Hi & He & _).
    constructor; [split; [congruence | lia] | now apply IH].
  - revert N3. apply Forall_impl. intros n [E I]. split; [exact E | lia].
Qed.

(** The new campaign of a turn added, as it was created or marked, and the
    definition of the turn rescheduled or not. *)
Lemma grownFrom_step (w : World) (n : EmailCampaign) f cs' :
  (forall d, rescheduled d (f d)) ->
  enabled (recurring n) = false -> _id n = nextObjectId w ->
  cs' = map f (campaigns w ++ [n])%list ->
  grownFrom (nextObjectId w) (campaigns w) cs'.
Proof.
  intros Hf En In ->. rewrite map_app.
  exists (map f (campaigns w)), (map f [n]).
  split; [reflexivity |]. split.
  - induction (campaigns w); cbn; constructor; auto.
  - cbn. constructor; [| constructor].
    destruct (rescheduled_keeps n (f n) (Hf n)) as (Hi & He & _).
    split; [congruence | lia].
Qed.

Lemma freshIds_map (w w' : World) f n :
  (forall d, _id (f d) = _id d) ->
  freshIds w -> _id n = nextObjectId w ->
  nextObjectId w' = S (nextObjectId w) ->
  campaigns w' = map f (campaigns w ++ [n])%list ->
  freshIds w'.
Proof.
  unfold freshIds. intros Hf FI In Nx ->. rewrite Nx.
  apply Forall_map. apply Forall_app. split.
  - revert FI. apply Forall_impl. intros d. rewrite Hf. lia.
  - constructor; [| constructor]. rewrite Hf. lia.
Qed.

(** A turn of the loop that comes back has rescheduled stored campaigns at
    most, and may have added one campaign, not recurring. *)
Lemma iteration_grows fuel c res w res' w' :
  freshIds w -> iteration fuel c res w = Ret res' w' ->
  grownFrom (nextObjectId w) (campaigns w) (campaigns w') /\
  freshIds w' /\ (nextObjectId w <= nextObjectId w')%nat.
Proof.
  intros FI. unfold iteration, tryCatch, tryBody. unfold bind at 1.
  destruct (newDate_effect w) as (now & wa & N1 & _ & _ & _ & Sa & Ia & _).
  rewrite N1.
  assert (Same : forall w0 r0,
             campaigns w0 = campaigns w -> nextObjectId w0 = nextObjectId w ->
             Ret r0 w0 = Ret res' w' ->
             grownFrom (nextObjectId w) (campaigns w) (campaigns w') /\
             freshIds w' /\ (nextObjectId w <= nextObjectId w')%nat).
  { intros w0 r0 Hc Hi E. injection E as <- <-. rewrite Hc, Hi.
    split; [apply grownFrom_refl |].
    split; [unfold freshIds; now rewrite Hc, Hi | lia]. }
  assert (Grown : forall w0 r0 n f,
             (forall d, rescheduled d (f d)) ->
             enabled (recurring n) = false -> _id n = nextObjectId w ->
             campaigns w0 = map f (campaigns w ++ [n])%list ->
             nextObjectId w0 = S (nextObjectId w) ->
             Ret r0 w0 = Ret res' w' ->
             grownFrom (nextObjectId w) (campaigns w) (campaigns w') /\
             freshIds w' /\ (nextObjectId w <= nextObjectId w')%nat).
  { intros w0 r0 n f Hf En In Hc Hi E. injection E as <- <-.
    split; [eapply grownFrom_step; eauto |].
    split; [| lia].
    apply (freshIds_map w w0 f n); auto.
    intros d. now destruct (rescheduled_keeps d (f d) (Hf d)). }
  destruct (isDue (nextScheduled (recurring c)) (Num now)).
  2:{ unfold ret. now apply Same. }
  unfold bind at 1.
  destruct (newDate_effect wa) as (start & wb & N2 & _ & _ & _ & Sb & Ib & _).
  rewrite N2.
  destruct (computeNextOccurrence fuel (recurring c) (Num start))
    as [nextDate |]; [| discriminate].
  unfold bind at 1.
  destruct (materialize_effect c nextDate wb)
    as [(e & w1 & -> & Q1 & S1)
       | (newC & w1 & -> & _ & _ & I1 & S1 & Id & _ & _ & _ & _ & _ & _ & _ & _ & R1)].
  { unfold ret. apply Same; [congruence |].
    destruct Q1 as (_ & _ & _ & Q1). congruence. }
  rewrite Sb, Sa in S1. rewrite Ib, Ia in I1, Id.
  assert (En : enabled (recurring newC) = false) by now rewrite R1.
  assert (Fr : Forall (fun d => _id d <> _id newC) (campaigns w)).
  { unfold freshIds in FI. revert FI. apply Forall_impl. intros d. lia. }
  unfold bind at 1.
  destruct (dispatch_effect newC w1)
    as [(w2 & -> & Q2 & S2) | [(id & w2 & -> & Q2 & S2)
       | (id & w2 & -> & Q2 & S2)]].
  - unfold ret. apply (Grown _ _ newC (fun d => d)); auto.
    + intros d. apply rescheduled_refl.
    + rewrite map_id. congruence.
    + destruct Q2 as (_ & _ & _ & Q2). congruence.
  - rewrite S1, updateWhere_new in S2 by exact Fr.
    unfold ret.
    apply (Grown _ _ (Store.setMailchimp id "scheduled" newC) (fun d => d));
      auto.
    + intros d. apply rescheduled_refl.
    + now rewrite map_id.
    + destruct Q2 as (_ & _ & _ & Q2). congruence.
  - rewrite S1, updateWhere_new in S2 by exact Fr.
    assert (I2 : nextObjectId w2 = S (nextObjectId w))
      by (destruct Q2 as (_ & _ & _ & Q2); congruence).
    unfold bind at 1.
    destruct (save_effect (advance c (Num now) nextDate) w2)
      as [(e & w3 & -> & Q3 & S3) | (w3 & -> & Q3 & S3)].
    + unfold ret.
      apply (Grown _ _ (Store.setMailchimp id "scheduled" newC)
               (fun d => d)); auto.
      * intros d. apply rescheduled_refl.
      * rewrite map_id. congruence.
      * destruct Q3 as (_ & _ & _ & Q3). congruence.
    + unfold ret.
      apply (Grown _ _ (Store.setMailchimp id "scheduled" newC)
               (fun d =>
                  if Nat.eqb (_id d) (_id (advance c (Num now) nextDate))
                  then setSchedule
                         (lastSent (recurring (advance c (Num now) nextDate)))
                         (nextScheduled
                            (recurring (advance c (Num now) nextDate))) d
                  else d)); auto.
      * intros d. destruct (Nat.eqb _ _);
          [apply rescheduled_setSchedule | apply rescheduled_refl].
      * rewrite S3, S2. reflexivity.
      * destruct Q3 as (_ & _ & _ & Q3). congruence.
Qed.

Lemma forEachCampaign_grows fuel cs :
  forall res w res' w',
    freshIds w -> forEachCampaign fuel cs res w = Ret res' w' ->
    grownFrom (nextObjectId w) (campaigns w) (campaigns w') /\
    freshIds w' /\ (nextObjectId w <= nextObjectId w')%nat.
Proof.
  induction cs as [| c cs IH]; intros res w res' w' FI.
  - cbn. unfold ret. intros E. injection E as <- <-.
    split; [apply grownFrom_refl | auto].
  - cbn [forEachCampaign]. unfold bind.
    destruct (iteration fuel c res w) as [r1 w1 | |] eqn:E1;
      [| discriminate | discriminate].
    intros E2.
    destruct (iteration_grows fuel c res w r1 w1 FI E1) as (G1 & F1 & L1).
    destruct (IH r1 w1 res' w' F1 E2) as (G2 & F2 & L2).
    split; [eapply grownFrom_trans; eauto |]. split; [exact F2 | lia].
Qed.

Lemma filter_grown next cs cs' :
  grownFrom next cs cs' ->
  map _id (filter Store.recurringQuery cs')
  = map _id (filter Store.recurringQuery cs).
Proof.
  intros (old & news & -> & O & N). rewrite filter_app.
  assert (E : filter Store.recurringQuery news = []).
  { induction N as [| n l [En _] _ IH]; [reflexivity |].
    cbn. unfold Store.recurringQuery at 1. now rewrite En. }
  rewrite E, app_nil_r.
  induction O as [| d d' l l' Hd _ IH]; [reflexivity |].
  destruct (rescheduled_keeps d d' Hd) as (Hi & He & Hs).
  assert (Q : Store.recurringQuery d' = Store.recurringQuery d)
    by (unfold Store.recurringQuery; now rewrite He, Hs).
  cbn [filter]. rewrite Q.
  destruct (Store.recurringQuery d); cbn [map]; now rewrite ?Hi, IH.
Qed.

(** X9.  A pass of the scheduler changes nothing of a stored campaign but
    [recurring.lastSent] and [recurring.nextScheduled]: none is removed,
    renamed, enabled, disabled or given another status or rule.  The
    campaigns it adds come after the stored ones and are not recurring.
    So the query selects after the pass the campaigns it selected
    before. *)
Theorem pass_frame fuel w :
  (6 <= fuel)%nat -> clockOK w -> schemaOK (campaigns w) -> freshIds w ->
  exists report w',
    processRecurringCampaigns fuel w = Ret report w' /\
    grownFrom (nextObjectId w) (campaigns w) (campaigns w') /\
    map _id (filter Store.recurringQuery (campaigns w'))
    = map _id (filter Store.recurringQuery (campaigns w)).
Proof.
  intros F K V FI.
  destruct (pass_keeps_order fuel w F K V) as (report & w' & E & _).
  exists report, w'. split; [exact E |].
  assert (G : grownFrom (nextObjectId w) (campaigns w) (campaigns w')).
  { destruct (find_effect w) as [(w0 & Q & S) | (e & w0 & Q & S)].
    - destruct (pass_after_query fuel w _ w0 F K V Q)
        as (_ & _ & results & w1 & E1 & E2).
      rewrite E2 in E. injection E as _ <-.
      unfold sameButFaults in S. destruct S as (S1 & _ & S3 & _).
      assert (FI0 : freshIds w0) by (unfold freshIds; now rewrite S1, S3).
      destruct (forEachCampaign_grows fuel _ [] w0 results w1 FI0 E1)
        as (G & _).
      now rewrite S1, S3 in G.
    - rewrite (report_fails_when_query_throws fuel w e w0 Q) in E.
      injection E as _ <-.
      unfold sameButFaults in S. destruct S as (-> & _).
      apply grownFrom_refl. }
  split; [exact G | now apply (filter_grown (nextObjectId w))].
Qed.

Lemma pass_frame_witness :
  exists report w',
    processRecurringCampaigns 6 threeDefinitions = Ret report w' /\
    map _id (filter Store.recurringQuery (campaigns w')) = [1; 2; 3]%nat.
Proof.
  destruct (pass_frame 6 threeDefinitions) as (report & w' & E & _ & S).
  - lia.
  - split; [split |]; vm_compute; discriminate.
  - repeat constructor.
  - repeat constructor.
  - exists report, w'. split; [exact E | exact S].
Defined.

End PassFrame.
(** * More on the next occurrence *)

Section NextOccurrenceMore.

Lemma TimeWithinDay_add t k : TimeWithinDay (t + k * msPerDay) = TimeWithinDay t.
Proof.
  unfold TimeWithinDay. apply Z.mod_add. rewrite msPerDay_eq. lia.
Qed.

Lemma WeekDay_of_Day t t' : Day t' = Day t -> WeekDay t' = WeekDay t.
Proof. unfold WeekDay. now intros ->. Qed.

Lemma TimeClip_Num x t : TimeClip x = Num t -> x = t.
Proof.
  unfold TimeClip. destruct (maxTimeValue <? Z.abs x); [discriminate |].
  now intros E; injection E.
Qed.

(** The day-of-month step keeps the time of the day. *)
Lemma applyDayOfMonth_time r fuel start :
  validRule r = true -> (6 <= fuel)%nat ->
  inRange start -> start <= lastStart ->
  exists w' next,
    computeNextOccurrence fuel r (Num start) = Some (Num next) /\
    applyTimeOfDay r (Num w') = Num next /\
    TimeWithinDay w' = TimeWithinDay start /\
    Day next = Day w'.
Proof.
  intros V F R L.
  destruct (computeNextOccurrence_steps r fuel start V F R L)
    as (k & w' & next & _ & _ & M & T & E & D & _ & Hdom).
  exists w', next. split; [exact E |]. split; [exact T |].
  split; [| exact D].
  set (w := start + baseDays (frequency r) start * msPerDay + k * msPerDay)
    in *.
  assert (Tw : TimeWithinDay w = TimeWithinDay start)
    by (unfold w; now rewrite !TimeWithinDay_add).
  destruct (truthyDayOfMonth r) as [dom |] eqn:Td.
  - destruct (String.eqb (frequency r) "monthly"
              || String.eqb (frequency r) "quarterly") eqn:Fq.
    + rewrite (Hdom dom eq_refl eq_refl), <- Tw.
      apply Day_MakeDate. apply Day_TimeWithinDay.
    + rewrite applyDayOfMonth_skip in M by (right; exact Fq).
      injection M as <-. exact Tw.
  - rewrite applyDayOfMonth_skip in M by (left; exact Td).
    injection M as <-. exact Tw.
Qed.

(** X10.  For every rule within the schema's bounds the next occurrence
    falls at the time of the day the rule names, HH:MM:00.000; when the
    rule names none, at the time of the day of the clock reading. *)
Theorem next_occurrence_time_of_day r fuel start :
  validRule r = true -> (6 <= fuel)%nat ->
  inRange start -> start <= lastStart ->
  exists next,
    computeNextOccurrence fuel r (Num start) = Some (Num next) /\
    match timeOfDay r with
    | Some s =>
        if String.eqb s "" then TimeWithinDay next = TimeWithinDay start
        else exists h m,
            map Str.toNumber (Str.split ":" s) = [Num h; Num m] /\
            TimeWithinDay next = h * msPerHour + m * msPerMinute
    | None => TimeWithinDay next = TimeWithinDay start
    end.
Proof.
  intros V F R L.
  destruct (applyDayOfMonth_time r fuel start V F R L)
    as (w' & next & E & T & Tw & D).
  exists next. split; [exact E |].
  unfold validRule in V. apply andb_prop in V. destruct V as [_ Vt].
  unfold validTimeOfDay in Vt. unfold applyTimeOfDay in T.
  destruct (timeOfDay r) as [s |]; [| injection T as <-; exact Tw].
  destruct (String.eqb s ""); [injection T as <-; exact Tw |].
  destruct (map Str.toNumber (Str.split ":" s))
    as [| [| h] [| [| m] [| ? ?]]]; try discriminate.
  exists h, m. split; [reflexivity |].
  cbn [element nth DateObj.setHours] in T. apply TimeClip_Num in T.
  apply andb_prop in Vt. destruct Vt as [Vt Vm2]. apply andb_prop in Vt.
  destruct Vt as [Vt Vm1]. apply andb_prop in Vt. destruct Vt as [Vh1 Vh2].
  apply Z.leb_le in Vh1, Vh2, Vm1, Vm2.
  assert (Hm : 0 <= MakeTime h m 0 0 < msPerDay).
  { unfold MakeTime, msPerHour, msPerMinute, msPerSecond.
    rewrite msPerDay_eq. lia. }
  rewrite <- T. rewrite (proj2 (Day_MakeDate (Day w') _ Hm)).
  unfold MakeTime, msPerSecond. lia.
Qed.

Lemma next_occurrence_time_of_day_witness :
  exists next,
    computeNextOccurrence 6 (rule "weekly" (Some 3) None (Some "17:30"))
      (Num (midnight 2024 1 15 + 10 * msPerHour)) = Some (Num next) /\
    TimeWithinDay next = 17 * msPerHour + 30 * msPerMinute.
Proof.
  destruct (next_occurrence_time_of_day
              (rule "weekly" (Some 3) None (Some "17:30")) 6
              (midnight 2024 1 15 + 10 * msPerHour))
    as (next & E & h & m & P & T).
  - reflexivity.
  - lia.
  - split; vm_compute; discriminate.
  - vm_compute. discriminate.
  - exists next. split; [exact E |].
    vm_compute in P. injection P as <- <-. exact T.
Defined.

(** The search comes back only with a date whose weekday is the one
    looked for. *)
Lemma dayOfWeekSearch_exit dow fuel :
  forall d x, dayOfWeekSearch fuel dow d = Some (Num x) -> WeekDay x = dow.
Proof.
  induction fuel as [| fuel IH]; intros d x; cbn [dayOfWeekSearch];
    destruct (JS.strictNeq (DateObj.getDay d) (Num dow)) eqn:N;
    try discriminate; try apply IH.
  all: intros E; injection E as ->; cbn in N;
    apply negb_false_iff, Z.eqb_eq in N; exact N.
Qed.

(** X11.  A weekly or biweekly rule with [dayOfWeek] set fires next on
    that weekday: on the first such day from the day 7 days after the
    clock reading on for weekly, 14 days for biweekly, so 7 to 13 or 14 to
    20 days later. *)
Theorem weekly_next_occurrence r fuel start dow :
  validRule r = true -> (6 <= fuel)%nat ->
  inRange start -> start <= lastStart ->
  frequency r = "weekly" \/ frequency r = "biweekly" ->
  dayOfWeek r = Some dow ->
  exists next,
    computeNextOccurrence fuel r (Num start) = Some (Num next) /\
    WeekDay next = dow /\
    (frequency r = "weekly" -> 7 <= Day next - Day start <= 13) /\
    (frequency r = "biweekly" -> 14 <= Day next - Day start <= 20).
Proof.
  intros V F R L Fq Dw.
  destruct (computeNextOccurrence_steps r fuel start V F R L)
    as (k & w' & next & Hk & S & M & _ & E & D & _ & _).
  exists next. split; [exact E |].
  set (w := start + baseDays (frequency r) start * msPerDay + k * msPerDay)
    in *.
  assert (Sk : String.eqb (frequency r) "monthly"
               || String.eqb (frequency r) "quarterly" = false)
    by (destruct Fq as [-> | ->]; reflexivity).
  rewrite applyDayOfMonth_skip in M by (right; exact Sk).
  injection M as <-.
  assert (Dw' : Day w = Day start + baseDays (frequency r) start + k)
    by (unfold w; now rewrite !Day_add).
  split.
  - rewrite (WeekDay_of_Day w next D).
    unfold applyDayOfWeek in S. rewrite Dw in S.
    assert (Nd : negb (String.eqb (frequency r) "daily") = true)
      by (destruct Fq as [-> | ->]; reflexivity).
    rewrite Nd in S. now apply dayOfWeekSearch_exit in S.
  - rewrite D, Dw'. split; intros Ef; rewrite Ef;
      unfold baseDays; cbn [String.eqb Ascii.eqb Bool.eqb]; lia.
Qed.

Lemma weekly_next_occurrence_witness :
  exists next,
    computeNextOccurrence 6 (rule "biweekly" (Some 5) None (Some "09:00"))
      (Num (midnight 2024 1 15 + 10 * msPerHour)) = Some (Num next) /\
    WeekDay next = 5.
Proof.
  destruct (weekly_next_occurrence
              (rule "biweekly" (Some 5) None (Some "09:00")) 6
              (midnight 2024 1 15 + 10 * msPerHour) 5)
    as (next & E & W & _).
  - reflexivity.
  - lia.
  - split; vm_compute; discriminate.
  - vm_compute. discriminate.
  - right. reflexivity.
  - reflexivity.
  - exists next. split; [exact E | exact W].
Defined.

(** X12.  Without [dayOfWeek] (or with the frequency daily, which ignores
    it) and without [timeOfDay], a daily, weekly or biweekly rule fires
    next exactly 1, 7 or 14 days after the clock reading, to the
    millisecond, whatever [dayOfMonth] holds and without a turn of the
    day-of-week loop. *)
Theorem fixed_interval_next_occurrence r fuel start :
  inRange start -> start <= lastStart ->
  timeOfDay r = None \/ timeOfDay r = Some EmptyString ->
  (frequency r = "daily" ->
   computeNextOccurrence fuel r (Num start)
   = Some (Num (start + 1 * msPerDay))) /\
  (frequency r = "weekly" -> dayOfWeek r = None ->
   computeNextOccurrence fuel r (Num start)
   = Some (Num (start + 7 * msPerDay))) /\
  (frequency r = "biweekly" -> dayOfWeek r = None ->
   computeNextOccurrence fuel r (Num start)
   = Some (Num (start + 14 * msPerDay))).
Proof.
  intros R L T. pose proof (Day_lastStart start R L) as DS.
  destruct (advance_fixed_days start) as (A1 & A7 & A14); [lia |].
  assert (Tm : forall d, applyTimeOfDay r d = d).
  { intros d. unfold applyTimeOfDay. destruct T as [-> | ->]; reflexivity. }
  assert (Sk : forall d,
             String.eqb (frequency r) "monthly"
             || String.eqb (frequency r) "quarterly" = false ->
             applyDayOfMonth r d = d)
    by (intros d H; apply applyDayOfMonth_skip; now right).
  unfold computeNextOccurrence, applyDayOfWeek.
  split; [| split].
  - intros Ef. rewrite Ef, A1. cbn [String.eqb Ascii.eqb Bool.eqb negb].
    destruct (dayOfWeek r); rewrite Tm, Sk; try reflexivity;
      rewrite Ef; reflexivity.
  - intros Ef Ed. rewrite Ed, Ef, A7. rewrite Tm, Sk; [reflexivity |].
    rewrite Ef. reflexivity.
  - intros Ef Ed. rewrite Ed, Ef, A14. rewrite Tm, Sk; [reflexivity |].
    rewrite Ef. reflexivity.
Qed.

Lemma fixed_interval_next_occurrence_witness :
  computeNextOccurrence 0 (rule "daily" (Some 2) (Some 31) None)
    (Num (midnight 2024 1 31 + 10 * msPerHour))
  = Some (Num (midnight 2024 1 31 + 10 * msPerHour + 1 * msPerDay)).
Proof.
  apply (fixed_interval_next_occurrence
           (rule "daily" (Some 2) (Some 31) None) 0
           (midnight 2024 1 31 + 10 * msPerHour)).
  - split; vm_compute; discriminate.
  - vm_compute. discriminate.
  - left. reflexivity.
  - reflexivity.
Defined.

Lemma split_colonless s : colonless s = true -> Str.split ":" s = [s].
Proof.
  unfold colonless. induction s as [| c s IH]; [reflexivity |].
  cbn [allChars Str.split]. intros H. apply andb_true_iff in H.
  destruct H as [Hc Hs]. apply negb_true_iff in Hc.
  rewrite Hc, (IH Hs). reflexivity.
Qed.

Lemma applyTimeOfDay_colonless r s d :
  timeOfDay r = Some s -> s <> EmptyString -> colonless s = true ->
  applyTimeOfDay r d = NaN.
Proof.
  intros T N C. unfold applyTimeOfDay. rewrite T.
  apply String.eqb_neq in N. rewrite N, (split_colonless s C).
  cbn [map element nth]. unfold DateObj.setHours.
  destruct d; [reflexivity |]. destruct (Str.toNumber s); reflexivity.
Qed.

(** X13.  A [timeOfDay] without colon (as 9 or 0900) leaves the minutes
    undefined, so the next date is an Invalid Date: when such a definition
    is due, its turn of the loop ends with the failure entry of the cast
    error, nothing is stored or sent to Mailchimp, and the definition is
    as due as before. *)
Theorem colonless_time_of_day_fails fuel c res w s :
  timeOfDay (recurring c) = Some s -> s <> EmptyString ->
  colonless s = true ->
  validDayOfWeek (recurring c) = true -> (6 <= fuel)%nat -> clockOK w ->
  isDue (nextScheduled (recurring c)) (Num (clock w)) = true ->
  exists w',
    iteration fuel c res w = Ret (res ++ [failureEntry c castError])%list w' /\
    campaigns w' = campaigns w /\ remote w' = remote w /\
    nextObjectId w' = nextObjectId w /\
    isDue (nextScheduled (recurring c)) (Num (clock w')) = true.
Proof.
  intros T N C Vw F K Due.
  destruct (newDate_frame w) as (now & wa & N1 & Ca & La & Ra & _ & Sa).
  destruct (clockOK_reading w now wa K Ca La Ra) as (_ & _ & Ka).
  destruct (newDate_frame wa) as (start & wb & N2 & Cb & Lb & Rb & _ & Sb).
  destruct (clockOK_reading wa start wb Ka Cb Lb Rb) as (Rs & Ls & _).
  pose proof (Day_lastStart start Rs Ls) as DS.
  pose proof (baseDays_range (frequency (recurring c)) start) as Hb.
  assert (E : computeNextOccurrence fuel (recurring c) (Num start)
              = Some NaN).
  { unfold computeNextOccurrence. rewrite advance_eq.
    rewrite TimeClip_inRange
      by (apply inRange_of_Day; rewrite Day_add; lia).
    destruct (applyDayOfWeek_valid (recurring c) fuel
                (start + baseDays (frequency (recurring c)) start * msPerDay)
                Vw F) as (k & _ & ->); [rewrite Day_add; lia |].
    now rewrite (applyTimeOfDay_colonless (recurring c) s _ T N C). }
  exists wb. unfold iteration, tryCatch, tryBody. unfold bind at 1.
  rewrite N1, (isDue_later _ (clock w) now Due La).
  unfold bind at 1. rewrite N2, E. unfold bind at 1.
  cbn [materialize]. unfold throw, ret.
  split; [reflexivity |].
  destruct Sa as (S1 & _ & S3 & S4 & _). destruct Sb as (T1 & _ & T3 & T4 & _).
  split; [congruence |]. split; [congruence |]. split; [congruence |].
  rewrite Cb. apply (isDue_later _ (clock w)); [exact Due | lia].
Qed.

Lemma colonless_time_of_day_fails_witness :
  exists w',
    iteration 6 (definition 1%nat "Morning mail" "draft"
                   (rule "daily" None None (Some "0900"))) []
      (world [] [])
    = Ret [failureEntry
             (definition 1%nat "Morning mail" "draft"
                (rule "daily" None None (Some "0900"))) castError] w'.
Proof.
  destruct (colonless_time_of_day_fails 6
              (definition 1%nat "Morning mail" "draft"
                 (rule "daily" None None (Some "0900"))) []
              (world [] []) "0900")
    as (w' & E & _).
  - reflexivity.
  - discriminate.
  - reflexivity.
  - reflexivity.
  - lia.
  - split; [split |]; vm_compute; discriminate.
  - reflexivity.
  - exists w'. exact E.
Defined.

End NextOccurrenceMore.
(** * Tags and segments *)

Section TagsAndSegments.

Lemma get_other key v k seg :
  String.eqb key k = false ->
  Criteria.get k ((key, v) :: seg) = Criteria.get k seg.
Proof. intros H. unfold Criteria.get. cbn. now rewrite H. Qed.

(** X14.  The tags [syncSubscriber] gives a subscriber are exactly the
    values of the conditions [createCampaign] builds from the criteria
    naming that subscriber's attributes, in the same order (status,
    interests, region:..., engagement:...), and every condition tests a
    tag for equality. *)
Theorem segment_conditions_match_tags (s : Subscriber.t) :
  exists o,
    segmentOpts (Some (criteriaOf s)) = inr o /\
    map value (conditionsOf o)
    = map Criteria.Text (tags (subscriberData s)) /\
    Forall (fun c => condition_type c = "Tag" /\ op c = "is"
                     /\ field c = "tag") (conditionsOf o).
Proof.
  destruct s as [e st fn ln co ph cs it rg en mc].
  unfold criteriaOf, subscriberData, segmentOpts, segmentConditions.
  cbn [Subscriber.customerStatus Subscriber.interests Subscriber.region
       Subscriber.engagementLevel tags].
  destruct cs as [cs |], it as [[| i it] |], rg as [rg |], en as [en |];
    cbn;
    repeat match goal with
           | |- context [String.eqb ?x ""] =>
               destruct (String.eqb x ""); cbn
           end;
    eexists; (split; [reflexivity |]); cbn;
    (split;
     [ rewrite ?map_app, ?map_map; reflexivity
     | repeat first
         [ apply Forall_nil
         | apply Forall_cons; [repeat split |]
         | apply Forall_app; split
         | apply Forall_forall; intros c Hc; apply in_map_iff in Hc;
           destruct Hc as (x & <- & _); repeat split ] ]).
Qed.

(** X15.  The conversion reads four keys only: a further key of the
    criteria adds no condition, and criteria made of such a key alone (as
    the [email] criterion of the inquiry follow-up) give segment options
    that match all of an empty list of conditions. *)
Theorem segment_other_keys_ignored key v seg :
  existsb (String.eqb key) segmentKeys = false ->
  segmentConditions ((key, v) :: seg) = segmentConditions seg /\
  segmentOpts (Some [(key, v)]) = inr (MatchAll []).
Proof.
  intros H. cbn in H.
  apply orb_false_iff in H. destruct H as [H1 H].
  apply orb_false_iff in H. destruct H as [H2 H].
  apply orb_false_iff in H. destruct H as [H3 H].
  apply orb_false_iff in H. destruct H as [H4 _].
  assert (E : forall s, segmentConditions ((key, v) :: s)
                        = segmentConditions s).
  { intros s. unfold segmentConditions. now rewrite !get_other. }
  split; [apply E |].
  unfold segmentOpts. now rewrite E.
Qed.

Lemma segment_other_keys_ignored_witness :
  segmentConditions
    [("email", Criteria.Items ["buyer@example.com"]);
     ("region", Criteria.Text "eu")]
  = segmentConditions [("region", Criteria.Text "eu")] /\
  segmentOpts (Some [("email", Criteria.Items ["buyer@example.com"])])
  = inr (MatchAll []).
Proof.
  apply (segment_other_keys_ignored "email"
           (Criteria.Items ["buyer@example.com"])
           [("region", Criteria.Text "eu")]).
  reflexivity.
Defined.

End TagsAndSegments.
(** * The slug of a product *)

Section ProductSlug.

Import Slug.

Lemma slugChar_not_dash c : isSlugChar c = true -> Ascii.eqb c dash = false.
Proof.
  intros H. destruct (Ascii.eqb_spec c dash) as [-> |]; [| reflexivity].
  discriminate H.
Qed.

Lemma lower_slugChar c : isSlugChar c = true -> lower c = c.
Proof.
  unfold isSlugChar, lower. intros H.
  destruct (((65 <=? code c) && (code c <=? 90))
            || ((192 <=? code c) && (code c <=? 222)
                && negb (code c =? 215))) eqn:E; [| reflexivity].
  exfalso. lia.
Qed.

Lemma allChars_replaceOthers s :
  allChars (fun c => isSlugChar c || Ascii.eqb c dash) (replaceOthers s)
  = true.
Proof.
  induction s as [| c s IH]; cbn [replaceOthers allChars]; [reflexivity |].
  rewrite IH, andb_true_r.
  destruct (isSlugChar c) eqn:E; [now rewrite E | reflexivity].
Qed.

Lemma startsWithDash_collapse s :
  startsWithDash (collapseDashes s) = startsWithDash s.
Proof.
  induction s as [| c s IH]; [reflexivity |].
  cbn [collapseDashes]. destruct (Ascii.eqb c dash) eqn:E.
  - destruct s as [| c' s']; [reflexivity |].
    destruct (Ascii.eqb c' dash) eqn:E'.
    + rewrite IH. cbn. now rewrite E, E'.
    + reflexivity.
  - reflexivity.
Qed.

Lemma allChars_collapse p s :
  allChars p s = true -> allChars p (collapseDashes s) = true.
Proof.
  induction s as [| c s IH]; [reflexivity |].
  cbn [allChars collapseDashes]. intros H.
  apply andb_true_iff in H. destruct H as [Hc Hs].
  destruct (Ascii.eqb c dash).
  - destruct s as [| c' s']; [cbn; now rewrite Hc |].
    destruct (Ascii.eqb c' dash); [now apply IH |].
    cbn [allChars]. rewrite Hc. now apply IH.
  - cbn [allChars]. rewrite Hc. now apply IH.
Qed.

Lemma hasDoubleDash_collapse s : hasDoubleDash (collapseDashes s) = false.
Proof.
  induction s as [| c s IH]; [reflexivity |].
  cbn [collapseDashes]. destruct (Ascii.eqb c dash) eqn:E.
  - destruct s as [| c' s']; [cbn; now rewrite andb_false_r |].
    destruct (Ascii.eqb c' dash) eqn:E'; [exact IH |].
    cbn [hasDoubleDash]. rewrite IH, startsWithDash_collapse. cbn.
    now rewrite E', andb_false_r.
  - cbn [hasDoubleDash]. now rewrite E, IH.
Qed.


Lemma allChars_dropTrailingDash p s :
  allChars p s = true -> allChars p (dropTrailingDash s) = true.
Proof.
  induction s as [| c s IH]; [reflexivity |].
  cbn [allChars]. intros H. apply andb_true_iff in H. destruct H as [Hc Hs].
  destruct s as [| c' s'].
  - cbn. destruct (Ascii.eqb c dash); [reflexivity | cbn; now rewrite Hc].
  - change (dropTrailingDash (String c (String c' s')))
      with (String c (dropTrailingDash (String c' s'))).
    cbn [allChars]. rewrite Hc. now apply IH.
Qed.

Lemma startsWithDash_dropTrailingDash s :
  startsWithDash s = false -> startsWithDash (dropTrailingDash s) = false.
Proof.
  destruct s as [| c [| c' s']]; cbn; intros H; [reflexivity | |exact H].
  now rewrite H.
Qed.

Lemma hasDoubleDash_dropTrailingDash s :
  hasDoubleDash s = false -> hasDoubleDash (dropTrailingDash s) = false.
Proof.
  induction s as [| c s IH]; [reflexivity |].
  destruct s as [| c' s'].
  - intros _. cbn. destruct (Ascii.eqb c dash); [reflexivity |].
    cbn. now rewrite andb_false_r.
  - change (dropTrailingDash (String c (String c' s')))
      with (String c (dropTrailingDash (String c' s'))).
    cbn [hasDoubleDash]. intros H. apply orb_false_iff in H.
    destruct H as [H1 H2]. rewrite (IH H2), orb_false_r.
    destruct (Ascii.eqb c dash); [| reflexivity].
    cbn [andb] in *. now apply startsWithDash_dropTrailingDash.
Qed.

Lemma endsWithDash_dropTrailingDash s :
  hasDoubleDash s = false -> endsWithDash (dropTrailingDash s) = false.
Proof.
  induction s as [| c s IH]; [reflexivity |].
  destruct s as [| c' s'].
  - cbn. destruct (Ascii.eqb c dash) eqn:E; [reflexivity |]. cbn. now rewrite E.
  - change (dropTrailingDash (String c (String c' s')))
      with (String c (dropTrailingDash (String c' s'))).
    cbn [hasDoubleDash]. intros H. apply orb_false_iff in H.
    destruct H as [H1 H2]. specialize (IH H2).
    destruct (dropTrailingDash (String c' s')) as [| d r] eqn:D.
    + (* the rest was a single dash *)
      destruct s' as [| c'' s''].
      * cbn in D. destruct (Ascii.eqb c' dash) eqn:E'; [| discriminate D].
        cbn in H1. rewrite E', andb_true_r in H1. cbn. exact H1.
      * discriminate D.
    + exact IH.
Qed.


(** The slug of a title consists of lower-case letters, digits and single
    dashes, and neither starts nor ends with a dash. *)
Lemma slugShaped_slugify title : slugShaped (slugify title) = true.
Proof.
  unfold slugify, trimDashes.
  set (s := collapseDashes (replaceOthers (toLowerCase title))).
  assert (A : allChars (fun c => isSlugChar c || Ascii.eqb c dash) s = true)
    by (apply allChars_collapse, allChars_replaceOthers).
  assert (D : hasDoubleDash s = false) by apply hasDoubleDash_collapse.
  clearbody s.
  assert (A' : allChars (fun c => isSlugChar c || Ascii.eqb c dash)
                 (dropLeadingDash s) = true).
  { destruct s as [| c s']; [reflexivity |]. cbn [dropLeadingDash].
    cbn [allChars] in A. apply andb_true_iff in A. destruct A as [A1 A2].
    destruct (Ascii.eqb c dash) eqn:E; [exact A2 |].
    cbn [allChars]. now rewrite E, A1, A2. }
  assert (D' : hasDoubleDash (dropLeadingDash s) = false).
  { destruct s as [| c s']; [reflexivity |]. cbn [dropLeadingDash].
    cbn [hasDoubleDash] in D. apply orb_false_iff in D. destruct D as [D1 D2].
    destruct (Ascii.eqb c dash) eqn:E; [exact D2 |].
    cbn [hasDoubleDash]. now rewrite E, D2. }
  assert (S' : startsWithDash (dropLeadingDash s) = false).
  { destruct s as [| c s']; [reflexivity |]. cbn [dropLeadingDash].
    cbn [hasDoubleDash] in D. apply orb_false_iff in D. destruct D as [D _].
    destruct (Ascii.eqb c dash) eqn:E; [exact D | cbn; exact E]. }
  unfold slugShaped.
  rewrite allChars_dropTrailingDash, startsWithDash_dropTrailingDash,
    endsWithDash_dropTrailingDash, hasDoubleDash_dropTrailingDash by assumption.
  reflexivity.
Qed.

(** A text of that shape is its own slug. *)
Lemma slugify_fixed s : slugShaped s = true -> slugify s = s.
Proof.
  unfold slugShaped. intros H.
  apply andb_true_iff in H. destruct H as [H H4].
  apply andb_true_iff in H. destruct H as [H H3].
  apply andb_true_iff in H. destruct H as [H1 H2].
  apply negb_true_iff in H2, H3, H4.
  assert (L : toLowerCase s = s).
  { clear H2 H3 H4. induction s as [| c s IH]; [reflexivity |].
    cbn [allChars] in H1. apply andb_true_iff in H1. destruct H1 as [Hc Hs].
    cbn [toLowerCase]. rewrite (IH Hs). f_equal.
    apply orb_true_iff in Hc. destruct Hc as [Hc | Hc].
    - now apply lower_slugChar.
    - apply Ascii.eqb_eq in Hc. now subst c. }
  assert (R : replaceOthers s = s).
  { clear H2 H3 H4 L. induction s as [| c s IH]; [reflexivity |].
    cbn [allChars] in H1. apply andb_true_iff in H1. destruct H1 as [Hc Hs].
    cbn [replaceOthers]. rewrite (IH Hs). f_equal.
    destruct (isSlugChar c); [reflexivity |].
    cbn in Hc. apply Ascii.eqb_eq in Hc. now subst c. }
  assert (C : collapseDashes s = s).
  { clear H1 H2 H3 L R. induction s as [| c s IH]; [reflexivity |].
    cbn [hasDoubleDash] in H4. apply orb_false_iff in H4.
    destruct H4 as [Ha Hb]. cbn [collapseDashes]. rewrite (IH Hb).
    destruct (Ascii.eqb c dash); [| reflexivity].
    destruct s as [| c' s']; [reflexivity |].
    cbn in Ha. now rewrite Ha. }
  assert (T : dropTrailingDash s = s).
  { clear H1 H2 H4 L R C. induction s as [| c s IH]; [reflexivity |].
    destruct s as [| c' s'].
    - cbn in H3. cbn. now rewrite H3.
    - change (dropTrailingDash (String c (String c' s')))
        with (String c (dropTrailingDash (String c' s'))).
      now rewrite IH. }
  unfold slugify, trimDashes. rewrite L, R, C.
  destruct s as [| c s']; [reflexivity |].
  cbn [dropLeadingDash]. cbn in H2. rewrite H2. exact T.
Qed.



Lemma keepChars_all p s :
  allChars p s = true -> keepChars p s = s.
Proof.
  induction s as [| c s IH]; [reflexivity |].
  cbn [allChars keepChars]. intros H. apply andb_true_iff in H.
  destruct H as [-> H]. now rewrite IH.
Qed.



(** X16.  Whatever the title, the slug the hook computes consists of
    lower-case ASCII letters, digits and dashes only, has no two dashes in
    a row and neither starts nor ends with a dash. *)
Theorem slug_shape title :
  allChars (fun c => isSlugChar c || Ascii.eqb c dash) (slugify title) = true
  /\ startsWithDash (slugify title) = false
  /\ endsWithDash (slugify title) = false
  /\ hasDoubleDash (slugify title) = false.
Proof.
  pose proof (slugShaped_slugify title) as H. unfold slugShaped in H.
  apply andb_true_iff in H. destruct H as [H H4].
  apply andb_true_iff in H. destruct H as [H H3].
  apply andb_true_iff in H. destruct H as [H1 H2].
  apply negb_true_iff in H2, H3, H4. auto.
Qed.

(** X17.  Computing the slug is idempotent: the slug of a slug is that
    slug.  So a product whose title is already a slug gets this very title
    as its slug. *)
Theorem slug_idempotent title (product : Product.t) :
  slugify (slugify title) = slugify title /\
  (slugShaped (Product.title product) = true ->
   Product.slug (preSave true product) = Product.title product).
Proof.
  split; [apply slugify_fixed, slugShaped_slugify |].
  intros H. cbn. now apply slugify_fixed.
Qed.

Lemma slug_idempotent_witness :
  slugify (slugify "Powder Coating Gun, Model X-1")
  = slugify "Powder Coating Gun, Model X-1" /\
  Product.slug
    (preSave true {| Product.title := "powder-coating-gun-model-x-1";
                     Product.slug := EmptyString;
                     Product.category := None |})
  = "powder-coating-gun-model-x-1".
Proof.
  split.
  - apply (slug_idempotent "Powder Coating Gun, Model X-1"
             {| Product.title := EmptyString; Product.slug := EmptyString;
                Product.category := None |}).
  - apply (slug_idempotent EmptyString
             {| Product.title := "powder-coating-gun-model-x-1";
                Product.slug := EmptyString; Product.category := None |}).
    vm_compute. reflexivity.
Defined.


End ProductSlug.
(** * Placeholder images *)

Section PlaceholderImages.

Lemma ofZ_inj a b : Str.ofZ a = Str.ofZ b -> a = b.
Proof.
  unfold Str.ofZ. intros H. apply DecimalZ.to_int_inj.
  assert (N : forall z, Z.to_int z <> Decimal.Pos Decimal.Nil /\
                        Z.to_int z <> Decimal.Neg Decimal.Nil).
  { intros [| p | p]; cbn; split; try discriminate;
      intros E; injection E; apply DecimalPos.Unsigned.to_uint_nonnil. }
  assert (S : Some (Z.to_int a) = Some (Z.to_int b)).
  { rewrite <- (NilZero.isi (Z.to_int a)), <- (NilZero.isi (Z.to_int b))
      by apply N. now rewrite H. }
  now injection S.
Qed.

Lemma length_append s1 s2 :
  String.length (s1 ++ s2) = (String.length s1 + String.length s2)%nat.
Proof. induction s1 as [| c s1 IH]; cbn; [reflexivity | now rewrite IH]. Qed.

Lemma append_inj_r s x y : (x ++ s = y ++ s)%string -> x = y.
Proof.
  revert y. induction x as [| c x IH]; intros [| d y] H.
  - reflexivity.
  - exfalso. apply (f_equal String.length) in H.
    cbn in H. rewrite length_append in H. lia.
  - exfalso. apply (f_equal String.length) in H.
    cbn in H. rewrite length_append in H. lia.
  - cbn in H. injection H as -> H. f_equal. now apply IH.
Qed.

Lemma append_inj_l s x y : (s ++ x = s ++ y)%string -> x = y.
Proof.
  induction s as [| c s IH]; cbn; [auto |].
  intros H. injection H as H. now apply IH.
Qed.

Lemma NoDup_map_injective {A B} (f : A -> B) l :
  (forall a b, f a = f b -> a = b) -> NoDup l -> NoDup (map f l).
Proof.
  intros I N. induction N as [| a l Ha N IH]; cbn; constructor; [| exact IH].
  intros H. apply in_map_iff in H. destruct H as (x & E & Hx).
  apply I in E. now subst x.
Qed.

Lemma url_inj product i j :
  url (placeholder product i) = url (placeholder product j) -> i = j.
Proof.
  unfold placeholder. cbn [url]. intros H.
  apply append_inj_l, append_inj_r, ofZ_inj in H. lia.
Qed.

(** The loop appends the placeholders of the indices [i], [i + 1], ... *)
Lemma imageLoop_eq product turns :
  forall i images,
    imageLoop product turns i images
    = (images
       ++ map (fun k => placeholder product (i + Z.of_nat k)) (seq 0 turns))%list.
Proof.
  induction turns as [| n IH]; intros i images.
  - cbn. now rewrite app_nil_r.
  - cbn [imageLoop]. rewrite IH, <- app_assoc. f_equal.
    cbn [seq map app]. rewrite Z.add_0_r. f_equal.
    rewrite <- seq_shift, map_map. apply map_ext.
    intros k. f_equal. lia.
Qed.

Lemma generateProductImages_eq product count :
  generateProductImages product (Some count)
  = map (fun k => placeholder product (Z.of_nat k)) (seq 0 (Z.to_nat count)).
Proof.
  unfold generateProductImages. rewrite imageLoop_eq. reflexivity.
Qed.

(** X19.  [generateProductImages] returns exactly [count] images (three by
    default, none for a count of zero or less); the image at position [i]
    is the placeholder numbered [i + 1] with the alt text of index [i], and
    it is the main image exactly when it is the first one. *)
Theorem images_count_and_main product count i img :
  List.length (generateProductImages product count)
  = Z.to_nat (match count with Some n => n | None => 3 end) /\
  (nth_error (generateProductImages product count) i = Some img ->
   img = placeholder product (Z.of_nat i) /\ isMain img = Nat.eqb i 0).
Proof.
  assert (E : generateProductImages product count
              = generateProductImages product
                  (Some (match count with Some n => n | None => 3 end)))
    by (destruct count; reflexivity).
  rewrite E, generateProductImages_eq. clear E.
  set (n := Z.to_nat _). clearbody n.
  split; [now rewrite length_map, length_seq |].
  intros H. rewrite nth_error_map in H.
  destruct (nth_error (seq 0 n) i) as [k |] eqn:K; [| discriminate H].
  assert (i < n)%nat as L.
  { rewrite <- (length_seq n 0). apply nth_error_Some. rewrite K.
    discriminate. }
  apply (nth_error_nth _ _ O) in K. rewrite seq_nth in K by exact L.
  cbn in K. subst k. cbn in H. injection H as <-.
  split; [reflexivity |]. cbn [isMain placeholder].
  destruct i; [reflexivity |]. apply Z.eqb_neq. lia.
Qed.

Lemma images_count_and_main_witness :
  List.length
    (generateProductImages
       {| Product.title := "Spray booth"; Product.slug := "spray-booth";
          Product.category := None |} None)
  = 3%nat /\
  isMain {| url := "/images/products/placeholder-2.jpg";
            alt := "Spray booth - side view"; isMain := false |}
  = false.
Proof.
  pose (p := {| Product.title := "Spray booth"; Product.slug := "spray-booth";
                Product.category := None |}).
  destruct (images_count_and_main p None 1
              {| url := "/images/products/placeholder-2.jpg";
                 alt := "Spray booth - side view"; isMain := false |})
    as [L H].
  split; [exact L |].
  destruct (H eq_refl) as [_ M]. exact M.
Defined.

(** X20.  The images of one call have pairwise distinct URLs. *)
Theorem image_urls_distinct product count :
  NoDup (map url (generateProductImages product count)).
Proof.
  assert (E : generateProductImages product count
              = generateProductImages product
                  (Some (match count with Some n => n | None => 3 end)))
    by (destruct count; reflexivity).
  rewrite E, generateProductImages_eq, map_map.
  apply NoDup_map_injective; [| apply seq_NoDup].
  intros a b H. apply url_inj in H. lia.
Qed.

(** X21.  The alt texts cycle through five views: the images of one call
    have pairwise distinct alt texts exactly when at most five images are
    asked for. *)
Theorem alt_texts_distinct_up_to_five product count :
  NoDup (map alt (generateProductImages product (Some count)))
  <-> count <= 5.
Proof.
  rewrite generateProductImages_eq, map_map. split.
  - intros N. destruct (Z.le_gt_cases count 5) as [| G]; [assumption |].
    exfalso.
    assert (L : (5 < Z.to_nat count)%nat) by lia.
    set (f := fun k => alt (placeholder product (Z.of_nat k))) in *.
    assert (E : (0 = 5)%nat); [| discriminate E].
    apply (proj1 (NoDup_nth_error (map f (seq 0 (Z.to_nat count)))) N).
    + rewrite length_map, length_seq. lia.
    + rewrite !nth_error_map.
      rewrite (nth_error_nth' _ O), (nth_error_nth' (seq 0 _) O)
        by (rewrite length_seq; lia).
      rewrite !seq_nth by lia. reflexivity.
  - intros H.
    assert (C : (Z.to_nat count <= 5)%nat) by lia.
    set (n := Z.to_nat count) in *. clearbody n.
    assert (V : forall k, (k < 5)%nat ->
                  alt (placeholder product (Z.of_nat k))
                  = (Product.title product ++ " - " ++ nth k views "")%string).
    { intros k K.
      do 5 (destruct k as [| k]; [reflexivity |]). lia. }
    assert (M : map (fun k => alt (placeholder product (Z.of_nat k))) (seq 0 n)
                = map (fun v => (Product.title product ++ " - " ++ v)%string)
                      (firstn n views)).
    { do 6 (destruct n as [| n]; [reflexivity |]). lia. }
    rewrite M. apply NoDup_map_injective.
    + intros a b E. now apply append_inj_l, append_inj_l in E.
    + do 6 (destruct n as [| n];
            [cbn; repeat constructor; cbn; intuition discriminate |]).
      lia.
Qed.

End PlaceholderImages.
